(** * Coordination environments from LOBSTER bonding analysis

    A shallow embedding of [pymatgen/io/lobster/lobsterenv.py]:
    the classes [LobsterNeighbors], [LobsterLightStructureEnvironments]
    and [ICOHPNeighborsInfo].

    Conventions of the embedding.
    - Python floats are modelled by exact rationals [Q]; the two infinite
      limits of a threshold window get constructors of their own.
    - Python exceptions are values of [exn]; a function that may raise
      returns [result A].
    - Python dicts are association lists in insertion order, Python lists
      are lists, numpy 3-vectors are triples.
    - Collaborators living outside this module (the ICOHP collection
      queries, the periodic neighbour search, the lattice, the valence
      estimator, the file readers) are fields of the record
      [Collaborators]; every theorem holds for any implementation. *)

From Stdlib Require Import QArith Qabs Qround ZArith List String Ascii Lia Lqa Bool.
From Stdlib Require Import Sorted Permutation DecimalString DecimalNat.
Import ListNotations.

Set Implicit Arguments.

(* ================================================================= *)
(** ** Exceptions and the error monad *)

Inductive exn : Type :=
| ValueError (msg : string)
| IndexError
| TypeError
| AttributeError
| StopIteration
| Exception (msg : string).

Inductive result (A : Type) : Type :=
| Ok (a : A)
| Err (e : exn).

Arguments Ok {A} a.
Arguments Err {A} e.

Definition bind {A B : Type} (m : result A) (k : A -> result B) : result B :=
  match m with
  | Ok a => k a
  | Err e => Err e
  end.

Declare Scope py_scope.
Delimit Scope py_scope with py.
Notation "x <- m ;; k" := (bind m (fun x => k))
  (at level 61, m at next level, right associativity) : py_scope.
Notation "' pat <- m ;; k" := (bind m (fun x => match x with pat => k end))
  (at level 61, pat pattern, m at next level, right associativity) : py_scope.
Open Scope py_scope.

(** A [for] loop whose body may raise: the accumulator is threaded from
    left to right and the first exception ends the loop. *)
Fixpoint for_each {A S : Type} (body : S -> A -> result S) (l : list A) (s : S)
  : result S :=
  match l with
  | [] => Ok s
  | x :: rest => s' <- body s x ;; for_each body rest s'
  end.

(** [enumerate(l)]. *)
Fixpoint enumerate_from {A : Type} (i : Z) (l : list A) : list (Z * A) :=
  match l with
  | [] => []
  | x :: rest => (i, x) :: enumerate_from (i + 1) rest
  end.

Definition enumerate {A : Type} (l : list A) : list (Z * A) := enumerate_from 0 l.

(** [range(n)]. *)
Definition range (n : nat) : list Z := map Z.of_nat (seq 0 n).

Definition len {A : Type} (l : list A) : Z := Z.of_nat (List.length l).

(** [l[i]] on a Python list: negative indices count from the end, anything
    outside [-len, len) raises [IndexError]. *)
Definition py_index {A : Type} (l : list A) (i : Z) : result A :=
  let j := (if i <? 0 then i + len l else i)%Z in
  if (j <? 0)%Z then Err IndexError
  else match nth_error l (Z.to_nat j) with
       | Some x => Ok x
       | None => Err IndexError
       end.

(** [del l[i]] for an index met while enumerating [l]. *)
Fixpoint delete_at {A : Type} (i : nat) (l : list A) {struct l} : list A :=
  match l, i with
  | [], _ => []
  | _ :: rest, O => rest
  | x :: rest, S i' => x :: delete_at i' rest
  end.

(* ================================================================= *)
(** ** Floats as rationals *)

Open Scope Q_scope.

Definition Qlt_bool (x y : Q) : bool := negb (Qle_bool y x).

(** The builtin two-argument [min(a, b)] and [max(a, b)]: the first
    argument is kept unless the second is strictly better. *)
Definition py_min2 (a b : Q) : Q := if Qlt_bool b a then b else a.
Definition py_max2 (a b : Q) : Q := if Qlt_bool a b then b else a.

(** The builtin [min(l)] and [max(l)] on a list: [ValueError] on an empty one. *)
Definition py_min (l : list Q) : result Q :=
  match l with
  | [] => Err (ValueError "min() arg is an empty sequence")
  | x :: rest => Ok (fold_left py_min2 rest x)
  end.

Definition py_max (l : list Q) : result Q :=
  match l with
  | [] => Err (ValueError "max() arg is an empty sequence")
  | x :: rest => Ok (fold_left py_max2 rest x)
  end.

(** The builtin [sum(l)]: a left fold from 0. *)
Definition py_sum (l : list Q) : Q := fold_left Qplus l 0.

(** [round(x)] and [numpy.round(x)]: nearest integer, exact halves go to
    the even neighbour. *)
Definition round_half_even (q : Q) : Z :=
  let f := Qfloor q in
  match Qcompare (q - inject_Z f) (1 # 2) with
  | Lt => f
  | Gt => (f + 1)%Z
  | Eq => if Z.even f then f else (f + 1)%Z
  end.

(** [round(x, 4)] on a numpy double: [rint(x * 1e4) / 1e4].  Here the
    product and the quotient are exact; in doubles they are rounded, which
    changes the result only for a coordinate within an ulp of a tie, of
    the form [k / 1e4 + 0.00005]. *)
Definition round4 (q : Q) : Q := inject_Z (round_half_even (q * 10000)) / 10000.

(** numpy's default tolerances. *)
Definition default_rtol : Q := 1 # 100000.
Definition default_atol : Q := 1 # 100000000.

(** [numpy.isclose(a, b, rtol, atol)] is [|a - b| <= atol + rtol * |b|]. *)
Definition isclose (rtol atol a b : Q) : bool :=
  Qle_bool (Qabs (a - b)) (atol + rtol * Qabs b).

(** Threshold bounds: a float or one of the two infinities. *)
Inductive limit : Type :=
| MinusInf
| Finite (q : Q)
| PlusInf.

(* ================================================================= *)
(** ** Strings: atom names such as "Na1" *)

Definition is_digit (c : ascii) : bool :=
  let n := nat_of_ascii c in (48 <=? n)%nat && (n <=? 57)%nat.

Fixpoint drop_digits (l : list ascii) : list ascii :=
  match l with
  | [] => []
  | c :: rest => if is_digit c then drop_digits rest else l
  end.

(** [s.rstrip("0123456789")]. *)
Definition rstrip_digits (s : string) : string :=
  string_of_list_ascii (rev (drop_digits (rev (list_ascii_of_string s)))).

(** [s[n:]]. *)
Fixpoint string_drop (n : nat) (s : string) : string :=
  match n, s with
  | O, _ => s
  | S n', EmptyString => EmptyString
  | S n', String _ rest => string_drop n' rest
  end.

(** [int(s)] for a run of ASCII decimal digits; the empty string and any
    other character raise [ValueError].  (Python also accepts a sign,
    surrounding blanks and underscores, and refuses a run of more than
    4300 digits; bond labels and atom ordinals are short plain digit
    runs.) *)
Fixpoint digits_value (acc : Z) (l : list ascii) : option Z :=
  match l with
  | [] => Some acc
  | c :: rest =>
      if is_digit c
      then digits_value (10 * acc + (Z.of_nat (nat_of_ascii c) - 48))%Z rest
      else None
  end.

Definition py_int (s : string) : result Z :=
  match list_ascii_of_string s with
  | [] => Err (ValueError "invalid literal for int() with base 10")
  | l => match digits_value 0 l with
         | Some z => Ok z
         | None => Err (ValueError "invalid literal for int() with base 10")
         end
  end.

Definition _split_string (s : string) : string * string :=
  let head := rstrip_digits s in
  let tail := string_drop (String.length head) s in
  (head, tail).

Definition _get_atomnumber (atomstring : string) : result Z :=
  n <- py_int (snd (_split_string atomstring)) ;; Ok (n - 1)%Z.

(* ================================================================= *)
(** ** Data model *)

Definition vec3 (A : Type) : Type := (A * A * A)%type.

Definition vec3_map {A B : Type} (f : A -> B) (v : vec3 A) : vec3 B :=
  let '(x, y, z) := v in (f x, f y, f z).

Definition vec3_map2 {A B C : Type} (f : A -> B -> C) (u : vec3 A) (v : vec3 B)
  : vec3 C :=
  let '(x, y, z) := u in let '(x', y', z') := v in (f x x', f y y', f z z').

Definition vec3_all {A : Type} (p : A -> bool) (v : vec3 A) : bool :=
  let '(x, y, z) := v in p x && p y && p z.

(** A site of the structure or one of its periodic images. *)
Record PeriodicSite : Type := {
  species_string : string;
  frac_coords : vec3 Q;
  coords : vec3 Q
}.

Definition Structure : Type := list PeriodicSite.

(** One entry of the neighbour search; the source reads it by position:
    [neigh[0]] the image site, [neigh[1]] its distance, [neigh[2]] the
    index of the site it is an image of, [neigh[3]] its cell. *)
Record PeriodicNeighbor : Type := {
  nn_site : PeriodicSite;
  nn_distance : Q;
  nn_index : Z;
  nn_image : vec3 Z
}.

(** One bond record of ICOHPLIST.lobster ([IcohpValue]). *)
Record IcohpValue : Type := {
  _label : string;
  _atom1 : string;
  _atom2 : string;
  _length : Q;
  _translation : vec3 Z;
  summed_icohp : Q
}.

Record IcohpCollection : Type := {
  _icohplist : list (string * IcohpValue);
  _list_atom1 : list string;
  _list_atom2 : list string
}.

(** The seven codes of [additional_condition]. *)
Inductive condition : Type :=
| NO_ADDITIONAL_CONDITION
| ONLY_ANION_CATION_BONDS
| NO_ELEMENT_TO_SAME_ELEMENT_BONDS
| ONLY_ANION_CATION_BONDS_AND_NO_ELEMENT_TO_SAME_ELEMENT_BONDS
| ONLY_ELEMENT_TO_OXYGEN_BONDS
| DO_NOT_CONSIDER_ANION_CATION_BONDS
| ONLY_CATION_CATION_BONDS.

(** [additional_condition in range(7)]. *)
Definition condition_of_code (code : Z) : option condition :=
  match code with
  | 0%Z => Some NO_ADDITIONAL_CONDITION
  | 1%Z => Some ONLY_ANION_CATION_BONDS
  | 2%Z => Some NO_ELEMENT_TO_SAME_ELEMENT_BONDS
  | 3%Z => Some ONLY_ANION_CATION_BONDS_AND_NO_ELEMENT_TO_SAME_ELEMENT_BONDS
  | 4%Z => Some ONLY_ELEMENT_TO_OXYGEN_BONDS
  | 5%Z => Some DO_NOT_CONSIDER_ANION_CATION_BONDS
  | 6%Z => Some ONLY_CATION_CATION_BONDS
  | _ => None
  end.

(** [additional_condition in [1, 3, 5, 6]]. *)
Definition in_1_3_5_6 (c : condition) : bool :=
  match c with
  | ONLY_ANION_CATION_BONDS
  | ONLY_ANION_CATION_BONDS_AND_NO_ELEMENT_TO_SAME_ELEMENT_BONDS
  | DO_NOT_CONSIDER_ANION_CATION_BONDS
  | ONLY_CATION_CATION_BONDS => true
  | _ => false
  end.

(** The collaborators of the module: code of pymatgen that lives in
    other files.  They are taken as they come. *)
Record Collaborators : Type := {
  (** [IcohpCollection.get_icohp_dict_of_site(site, maxbondlength,
      minsummedicohp, maxsummedicohp, only_bonds_to)]. *)
  get_icohp_dict_of_site :
    IcohpCollection -> Z -> Q -> option limit -> option limit ->
    option (list string) -> result (list (string * IcohpValue));
  (** [IcohpCollection.extremum_icohpvalue(summed_spin_channels=True)]. *)
  extremum_icohpvalue : IcohpCollection -> result Q;
  (** [IcohpCollection.get_icohp_by_label(label)]. *)
  get_icohp_by_label : IcohpCollection -> string -> result Q;
  (** [Structure.get_sites_in_sphere(pt, r, include_image=True,
      include_index=True)]. *)
  get_sites_in_sphere : Structure -> vec3 Q -> Q -> result (list PeriodicNeighbor);
  (** [PeriodicSite.to_unit_cell()]. *)
  to_unit_cell : PeriodicSite -> PeriodicSite;
  (** [site.lattice.get_cartesian_coords(fractional)]. *)
  get_cartesian_coords : PeriodicSite -> vec3 Q -> vec3 Q;
  (** [PeriodicSite.is_periodic_image(other)]. *)
  is_periodic_image : PeriodicSite -> PeriodicSite -> bool;
  (** [NearNeighbors._get_original_site(structure, site)]. *)
  _get_original_site : Structure -> PeriodicSite -> result Z;
  (** [BVAnalyzer().get_valences(structure)]. *)
  get_valences : Structure -> result (list Q);
  (** [Icohplist(are_coops, are_cobis, filename).icohpcollection]. *)
  Icohplist : bool -> bool -> option string -> result IcohpCollection;
  (** [Charge(filename)], as its [Mulliken] and [Loewdin] lists. *)
  Charge : string -> result (list Q * list Q);
  (** [LocalGeometryFinder]: [setup_local_geometry(isite, coords)] followed
      by [get_coordination_symmetry_measures()], as the items of the
      returned dict: symbol, "csm_wcs_ctwcc" and "indices". *)
  get_coordination_symmetry_measures :
    Structure -> Z -> list (vec3 Q) -> result (list (string * (Q * list Z)))
}.

(* ================================================================= *)
(** ** ConditionFilter *)

(** [self.valences[atomnr]]. *)
Definition valence_at (valences : option (list Q)) (atomnr : Z) : result Q :=
  match valences with
  | None => Err TypeError
  | Some vs => py_index vs atomnr
  end.

(** [(val1 < 0.0 < val2) or (val2 < 0.0 < val1)]. *)
Definition anion_cation (val1 val2 : Q) : bool :=
  (Qlt_bool val1 0 && Qlt_bool 0 val2) || (Qlt_bool val2 0 && Qlt_bool 0 val1).

(** [atom1.rstrip("0123456789") != atom2.rstrip("0123456789")]. *)
Definition different_elements (atom1 atom2 : string) : bool :=
  negb (String.eqb (rstrip_digits atom1) (rstrip_digits atom2)).

(** [atom1.rstrip("0123456789") == "O" or atom2.rstrip("0123456789") == "O"]. *)
Definition to_oxygen (atom1 atom2 : string) : bool :=
  String.eqb (rstrip_digits atom1) "O" || String.eqb (rstrip_digits atom2) "O".

(** [(val1 > 0.0 and val2 > 0.0) or (val1 < 0.0 and val2 < 0.0)]. *)
Definition no_anion_cation (val1 val2 : Q) : bool :=
  (Qlt_bool 0 val1 && Qlt_bool 0 val2) || (Qlt_bool val1 0 && Qlt_bool val2 0).

(** [val1 > 0.0 and val2 > 0.0]. *)
Definition cation_cation (val1 val2 : Q) : bool :=
  Qlt_bool 0 val1 && Qlt_bool 0 val2.

(** The four parallel lists filled by the filter. *)
Record Selected : Type := {
  keys_from_ICOHPs : list string;
  lengths_from_ICOHPs : list Q;
  neighbors_from_ICOHPs : list Z;
  icohps_from_ICOHPs : list Q
}.

Definition no_selection : Selected :=
  {| keys_from_ICOHPs := []; lengths_from_ICOHPs := [];
     neighbors_from_ICOHPs := []; icohps_from_ICOHPs := [] |}.

Definition append_selected (s : Selected) (key : string) (icohp : IcohpValue)
    (neighbor : Z) : Selected :=
  {| keys_from_ICOHPs := keys_from_ICOHPs s ++ [key];
     lengths_from_ICOHPs := lengths_from_ICOHPs s ++ [_length icohp];
     neighbors_from_ICOHPs := neighbors_from_ICOHPs s ++ [neighbor];
     icohps_from_ICOHPs := icohps_from_ICOHPs s ++ [summed_icohp icohp] |}.

(** The block repeated under each condition: the other endpoint of a
    record that touches [isite] is appended. *)
Definition append_neighbor (isite : Z) (s : Selected) (key : string)
    (icohp : IcohpValue) (atomnr1 atomnr2 : Z) : Selected :=
  if (atomnr1 =? isite)%Z then append_selected s key icohp atomnr2
  else if (atomnr2 =? isite)%Z then append_selected s key icohp atomnr1
  else s.

(** [val1 = self.valences[atomnr1]; val2 = self.valences[atomnr2]], read
    under conditions 1, 3, 5 and 6 only. *)
Definition endpoint_valences (valences : option (list Q)) (atomnr1 atomnr2 : Z)
  : result (Q * Q) :=
  val1 <- valence_at valences atomnr1 ;;
  val2 <- valence_at valences atomnr2 ;;
  Ok (val1, val2).

(** The test of each branch of the chain over [additional_condition]. *)
Definition condition_holds (valences : option (list Q))
    (additional_condition : condition) (icohp : IcohpValue) (atomnr1 atomnr2 : Z)
  : result bool :=
  match additional_condition with
  | NO_ADDITIONAL_CONDITION => Ok true
  | ONLY_ANION_CATION_BONDS =>
      '(val1, val2) <- endpoint_valences valences atomnr1 atomnr2 ;;
      Ok (anion_cation val1 val2)
  | NO_ELEMENT_TO_SAME_ELEMENT_BONDS =>
      Ok (different_elements (_atom1 icohp) (_atom2 icohp))
  | ONLY_ANION_CATION_BONDS_AND_NO_ELEMENT_TO_SAME_ELEMENT_BONDS =>
      '(val1, val2) <- endpoint_valences valences atomnr1 atomnr2 ;;
      Ok (anion_cation val1 val2
          && different_elements (_atom1 icohp) (_atom2 icohp))
  | ONLY_ELEMENT_TO_OXYGEN_BONDS =>
      Ok (to_oxygen (_atom1 icohp) (_atom2 icohp))
  | DO_NOT_CONSIDER_ANION_CATION_BONDS =>
      '(val1, val2) <- endpoint_valences valences atomnr1 atomnr2 ;;
      Ok (no_anion_cation val1 val2)
  | ONLY_CATION_CATION_BONDS =>
      '(val1, val2) <- endpoint_valences valences atomnr1 atomnr2 ;;
      Ok (cation_cation val1 val2)
  end.

(** The body of the loop over [icohps.items()]. *)
Definition relevant_atoms_step (valences : option (list Q)) (isite : Z)
    (additional_condition : condition) (s : Selected) (item : string * IcohpValue)
  : result Selected :=
  let '(key, icohp) := item in
  atomnr1 <- _get_atomnumber (_atom1 icohp) ;;
  atomnr2 <- _get_atomnumber (_atom2 icohp) ;;
  selected <- condition_holds valences additional_condition icohp atomnr1 atomnr2 ;;
  Ok (if selected then append_neighbor isite s key icohp atomnr1 atomnr2 else s).

Definition _find_relevant_atoms_additional_condition (valences : option (list Q))
    (isite : Z) (icohps : list (string * IcohpValue))
    (additional_condition : condition) : result Selected :=
  for_each (relevant_atoms_step valences isite additional_condition) icohps
           no_selection.

(* ================================================================= *)
(** ** The attributes of a [LobsterNeighbors] object *)

(** What [__init__] stores before it evaluates the environments. *)
Record Setup : Type := {
  Icohpcollection : IcohpCollection;
  structure : Structure;
  lowerlimit : option limit;
  upperlimit : option limit;
  only_bonds_to : option (list string);
  adapt_extremum_to_add_cond : bool;
  are_coops : bool;
  are_cobis : bool;
  add_additional_data_sg : bool;
  bonding_list_1 : option IcohpCollection;
  bonding_list_2 : option IcohpCollection;
  noise_cutoff : option Q;
  additional_condition : condition;
  valences : option (list Q)
}.

(** [not self.are_coops and not self.are_cobis]: the data are ICOHPs. *)
Definition are_icohps (self : Setup) : bool :=
  negb (are_coops self) && negb (are_cobis self).

(* ================================================================= *)
(** ** ThresholdSelector *)

Section Threshold.

Variable C : Collaborators.
Variable self : Setup.

Definition _adapt_extremum_to_add_cond (list_icohps : list Q) (percentage : Q)
  : result Q :=
  extremum <- (if are_icohps self then py_min list_icohps else py_max list_icohps) ;;
  Ok (extremum * percentage).

(** [list_icohps = []; for value in ...: if test(value): list_icohps.append(...)]. *)
Definition collect_icohps (test : IcohpValue -> result bool)
    (values : list IcohpValue) : result (list Q) :=
  for_each (fun list_icohps value =>
              keep <- test value ;;
              Ok (if keep then list_icohps ++ [summed_icohp value] else list_icohps))
           values [].

(** The records over which the extremum is taken when it is adapted to
    [additional_condition] (conditions 1 to 6; condition 0 never gets
    here). *)
Definition adaptation_subset (icohpcollection : IcohpCollection)
    (additional_condition : condition) : result (list Q) :=
  let values := map snd (_icohplist icohpcollection) in
  let by_valences (test : Q -> Q -> IcohpValue -> bool) :=
    collect_icohps
      (fun value =>
         atomnr1 <- _get_atomnumber (_atom1 value) ;;
         atomnr2 <- _get_atomnumber (_atom2 value) ;;
         '(val1, val2) <- endpoint_valences (valences self) atomnr1 atomnr2 ;;
         Ok (test val1 val2 value)) values in
  match additional_condition with
  | NO_ADDITIONAL_CONDITION => Ok []
  | ONLY_ANION_CATION_BONDS =>
      by_valences (fun val1 val2 _ => anion_cation val1 val2)
  | NO_ELEMENT_TO_SAME_ELEMENT_BONDS =>
      collect_icohps
        (fun value => Ok (different_elements (_atom1 value) (_atom2 value))) values
  | ONLY_ANION_CATION_BONDS_AND_NO_ELEMENT_TO_SAME_ELEMENT_BONDS =>
      by_valences (fun val1 val2 value =>
                     anion_cation val1 val2
                     && different_elements (_atom1 value) (_atom2 value))
  | ONLY_ELEMENT_TO_OXYGEN_BONDS =>
      collect_icohps
        (fun value => Ok (to_oxygen (_atom1 value) (_atom2 value))) values
  | DO_NOT_CONSIDER_ANION_CATION_BONDS =>
      by_valences (fun val1 val2 _ => no_anion_cation val1 val2)
  | ONLY_CATION_CATION_BONDS =>
      by_valences (fun val1 val2 _ => cation_cation val1 val2)
  end.

(** The first half of [_get_limit_from_extremum]: [extremum_based]. *)
Definition extremum_based (icohpcollection : IcohpCollection) (percentage : Q)
    (adapt_extremum_to_add_cond : bool) (additional_condition : condition)
  : result Q :=
  match adapt_extremum_to_add_cond, additional_condition with
  | false, _ | _, NO_ADDITIONAL_CONDITION =>
      extremum <- extremum_icohpvalue C icohpcollection ;;
      Ok (extremum * percentage)
  | true, _ =>
      list_icohps <- adaptation_subset icohpcollection additional_condition ;;
      _adapt_extremum_to_add_cond list_icohps percentage
  end.

(** The second half: the noise cutoff and the direction of the window. *)
Definition limit_from (extremum_based : Q) : limit * limit :=
  if are_icohps self then
    let max_here := match noise_cutoff self with
                    | Some cutoff => py_min2 extremum_based (- cutoff)
                    | None => extremum_based
                    end in
    (MinusInf, Finite max_here)
  else
    let min_here := match noise_cutoff self with
                    | Some cutoff => py_max2 extremum_based cutoff
                    | None => extremum_based
                    end in
    (Finite min_here, PlusInf).

Definition _get_limit_from_extremum (icohpcollection : IcohpCollection)
    (percentage : Q) (adapt_extremum_to_add_cond : bool)
    (additional_condition : condition) : result (limit * limit) :=
  extremum_based <- extremum_based icohpcollection percentage
                      adapt_extremum_to_add_cond additional_condition ;;
  Ok (limit_from extremum_based).

End Threshold.

(* ================================================================= *)
(** ** NeighborResolver *)

(** [sorted(l, key=...)] is stable: an element goes in front of the first
    element of the sorted rest whose key is not smaller than its own. *)
Section Sorted.

Variable A : Type.
Variable key : A -> Q.

Fixpoint insert_by_key (x : A) (l : list A) : list A :=
  match l with
  | [] => [x]
  | y :: rest =>
      if Qle_bool (key x) (key y) then x :: l else y :: insert_by_key x rest
  end.

Fixpoint sorted (l : list A) : list A :=
  match l with
  | [] => []
  | x :: rest => insert_by_key x (sorted rest)
  end.

End Sorted.

(** The test of the inner loop: [np.isclose(dist, distance, rtol=1e-4)]
    (numpy's default [atol] stays) [and neighbor == index_here2]. *)
Definition pool_entry_matches (distance : Q) (index_here2 : Z) (dist : Q)
    (neighbor : Z) : bool :=
  isclose (1 # 10000) default_atol dist distance && (neighbor =? index_here2)%Z.

(** [for idist, dist in enumerate(copied_distances_from_ICOHPs)]: the
    position of the first entry of the pool that matches.  The two lists
    of the pool always have one length. *)
Fixpoint find_in_pool (distance : Q) (index_here2 : Z) (dists : list Q)
    (neighs : list Z) (idist : nat) : option nat :=
  match dists, neighs with
  | dist :: dists', neighbor :: neighs' =>
      if pool_entry_matches distance index_here2 dist neighbor
      then Some idist
      else find_in_pool distance index_here2 dists' neighs' (S idist)
  | _, _ => None
  end.

(** The lists filled while the sorted neighbours are walked, and the pool. *)
Record Resolution : Type := {
  _list_neighsite : list PeriodicSite;
  _list_neighisite : list Z;
  _neigh_coords : list (vec3 Q);
  _neigh_frac_coords : list (vec3 Q);
  copied_neighbors_from_ICOHPs : list Z;
  copied_distances_from_ICOHPs : list Q
}.

Section Resolver.

Variable C : Collaborators.

(** [coords[ineigh]]: the Cartesian coordinates of the image. *)
Definition image_coords (neigh_new : PeriodicNeighbor) : vec3 Q :=
  let site_here := to_unit_cell C (nn_site neigh_new) in
  let new_coords :=
    vec3_map2 (fun f c => f + inject_Z c) (frac_coords site_here)
              (nn_image neigh_new) in
  get_cartesian_coords C site_here new_coords.

(** The body of [for ineigh, neigh in enumerate(neighbors_by_distance)].
    The lists [neighbors_by_distance], [list_distances], [index_here_list]
    and [coords] are read at one position [ineigh]: they are the fields
    of the sorted entry. *)
Definition resolve_step (r : Resolution) (neigh_new : PeriodicNeighbor)
  : Resolution :=
  let index_here2 := nn_index neigh_new in
  match find_in_pool (nn_distance neigh_new) index_here2
                     (copied_distances_from_ICOHPs r)
                     (copied_neighbors_from_ICOHPs r) 0 with
  | Some idist =>
      {| _list_neighsite := _list_neighsite r ++ [nn_site neigh_new];
         _list_neighisite := _list_neighisite r ++ [index_here2];
         _neigh_coords := _neigh_coords r ++ [image_coords neigh_new];
         _neigh_frac_coords :=
           _neigh_frac_coords r ++ [frac_coords (nn_site neigh_new)];
         copied_neighbors_from_ICOHPs :=
           delete_at idist (copied_neighbors_from_ICOHPs r);
         copied_distances_from_ICOHPs :=
           delete_at idist (copied_distances_from_ICOHPs r) |}
  | None => r
  end.

Definition start_resolution (neighbors_from_ICOHPs : list Z)
    (lengths_from_ICOHPs : list Q) : Resolution :=
  {| _list_neighsite := []; _list_neighisite := []; _neigh_coords := [];
     _neigh_frac_coords := [];
     copied_neighbors_from_ICOHPs := neighbors_from_ICOHPs;
     copied_distances_from_ICOHPs := lengths_from_ICOHPs |}.

(** The walk over [sorted(neighbors_by_distance_start, key=lambda x: x[1])]. *)
Definition resolve (neighbors_by_distance_start : list PeriodicNeighbor)
    (neighbors_from_ICOHPs : list Z) (lengths_from_ICOHPs : list Q)
  : Resolution :=
  fold_left resolve_step (sorted nn_distance neighbors_by_distance_start)
            (start_resolution neighbors_from_ICOHPs lengths_from_ICOHPs).

(** The six lists returned by [_find_environments], one entry per site. *)
Record Environments : Type := {
  list_icohps : list (list Q);
  list_keys : list (list string);
  list_lengths : list (list Q);
  list_neighisite : list (list Z);
  list_neighsite : list (list PeriodicSite);
  list_coords : list (list (vec3 Q))
}.

Definition no_environments : Environments :=
  {| list_icohps := []; list_keys := []; list_lengths := [];
     list_neighisite := []; list_neighsite := []; list_coords := [] |}.

Definition _get_icohps (icohpcollection : IcohpCollection) (isite : Z)
    (lowerlimit upperlimit : option limit) (only_bonds_to : option (list string))
  : result (list (string * IcohpValue)) :=
  get_icohp_dict_of_site C icohpcollection isite 6 lowerlimit upperlimit
                         only_bonds_to.

Variable self : Setup.

(** The body of [for idx, site in enumerate(self.structure)]. *)
Definition find_environments_step (additional_condition : condition)
    (lowerlimit upperlimit : limit) (only_bonds_to : option (list string))
    (env : Environments) (entry : Z * PeriodicSite) : result Environments :=
  let '(idx, site) := entry in
  icohps <- _get_icohps (Icohpcollection self) idx (Some lowerlimit)
                        (Some upperlimit) only_bonds_to ;;
  additional_conds <- _find_relevant_atoms_additional_condition
                        (valences self) idx icohps additional_condition ;;
  if (0 <? len (neighbors_from_ICOHPs additional_conds))%Z then
    longest <- py_max (lengths_from_ICOHPs additional_conds) ;;
    neighbors_by_distance_start <-
      get_sites_in_sphere C (structure self) (coords site) (longest + (1 # 2)) ;;
    let r := resolve neighbors_by_distance_start
                     (neighbors_from_ICOHPs additional_conds)
                     (lengths_from_ICOHPs additional_conds) in
    Ok {| list_icohps := list_icohps env ++ [icohps_from_ICOHPs additional_conds];
          list_keys := list_keys env ++ [keys_from_ICOHPs additional_conds];
          list_lengths := list_lengths env ++ [lengths_from_ICOHPs additional_conds];
          list_neighisite := list_neighisite env ++ [_list_neighisite r];
          list_neighsite := list_neighsite env ++ [_list_neighsite r];
          list_coords := list_coords env ++ [_neigh_coords r] |}
  else
    Ok {| list_icohps := list_icohps env ++ [[]];
          list_keys := list_keys env ++ [[]];
          list_lengths := list_lengths env ++ [[]];
          list_neighisite := list_neighisite env ++ [[]];
          list_neighsite := list_neighsite env ++ [[]];
          list_coords := list_coords env ++ [[]] |}.

Definition _find_environments (additional_condition : condition)
    (lowerlimit upperlimit : limit) (only_bonds_to : option (list string))
  : result Environments :=
  for_each (find_environments_step additional_condition lowerlimit upperlimit
                                   only_bonds_to)
           (enumerate (structure self)) no_environments.

End Resolver.

(* ================================================================= *)
(** ** The evaluation pass and the constructor *)

(** One entry of [sg_list]; [extra] holds the two values added when
    [add_additional_data_sg] is set. *)
Record EdgeProperties : Type := {
  edge_ICOHP : Q;
  edge_bond_length : Q;
  edge_bond_label : string;
  edge_extra : option (Q * Q)
}.

Record GraphEntry : Type := {
  sg_site : PeriodicSite;
  sg_image : vec3 Z;
  sg_weight : Z;
  sg_edge_properties : EdgeProperties;
  sg_site_index : Z
}.

(** What [_evaluate_ce] stores. *)
Record Evaluation : Type := {
  environments : Environments;
  sg_list : list (list GraphEntry)
}.

(** [next(x for x in l if p(x))]. *)
Fixpoint next_such {A : Type} (p : A -> bool) (l : list A) : result A :=
  match l with
  | [] => Err StopIteration
  | x :: rest => if p x then Ok x else next_such p rest
  end.

(** [result.append(f(x)) for x in l], with a body that may raise. *)
Fixpoint map_result {A B : Type} (f : A -> result B) (l : list A)
  : result (list B) :=
  match l with
  | [] => Ok []
  | x :: rest => y <- f x ;; ys <- map_result f rest ;; Ok (y :: ys)
  end.

Section Evaluate.

Variable C : Collaborators.
Variable self : Setup.

(** [next(isite for isite, site in enumerate(self.structure)
          if neighbor.is_periodic_image(site))]. *)
Definition periodic_image_index (neighbor : PeriodicSite) : result Z :=
  entry <- next_such (fun entry => is_periodic_image C neighbor (snd entry))
                     (enumerate (structure self)) ;;
  Ok (fst entry).

(** The "image" of an entry of [sg_list]:
    [tuple(int(round(i)) for i in neighbor.frac_coords - site.frac_coords)]. *)
Definition graph_image (neighbor : PeriodicSite) : result (vec3 Z) :=
  isite <- periodic_image_index neighbor ;;
  site <- py_index (structure self) isite ;;
  Ok (vec3_map round_half_even
        (vec3_map2 Qminus (frac_coords neighbor) (frac_coords site))).

Definition graph_entry (env : Environments) (ineighbors : Z)
    (entry : Z * PeriodicSite) : result GraphEntry :=
  let '(ineighbor, neighbor) := entry in
  image <- graph_image neighbor ;;
  icohps <- py_index (list_icohps env) ineighbors ;;
  icohp <- py_index icohps ineighbor ;;
  lengths <- py_index (list_lengths env) ineighbors ;;
  bond_length <- py_index lengths ineighbor ;;
  keys <- py_index (list_keys env) ineighbors ;;
  bond_label <- py_index keys ineighbor ;;
  extra <- (if add_additional_data_sg self then
              match bonding_list_1 self, bonding_list_2 self with
              | Some list_1, Some list_2 =>
                  keys1 <- py_index (list_keys env) ineighbors ;;
                  label1 <- py_index keys1 ineighbor ;;
                  value1 <- get_icohp_by_label C list_1 label1 ;;
                  keys2 <- py_index (list_keys env) ineighbors ;;
                  label2 <- py_index keys2 ineighbor ;;
                  value2 <- get_icohp_by_label C list_2 label2 ;;
                  Ok (Some (value1, value2))
              | _, _ => Err AttributeError
              end
            else Ok None) ;;
  site_index <- periodic_image_index neighbor ;;
  Ok {| sg_site := neighbor;
        sg_image := image;
        sg_weight := 1;
        sg_edge_properties :=
          {| edge_ICOHP := icohp; edge_bond_length := bond_length;
             edge_bond_label := bond_label; edge_extra := extra |};
        sg_site_index := site_index |}.

Definition make_sg_list (env : Environments) : result (list (list GraphEntry)) :=
  map_result (fun entry : Z * list PeriodicSite =>
                let '(ineighbors, neighbors) := entry in
                map_result (graph_entry env ineighbors) (enumerate neighbors))
             (enumerate (list_neighsite env)).

Definition _evaluate_ce (lowerlimit upperlimit : option limit)
    (only_bonds_to : option (list string)) (additional_condition : condition)
    (perc_strength_icohp : Q) (adapt_extremum_to_add_cond : bool)
  : result Evaluation :=
  limits <- match lowerlimit, upperlimit with
            | None, None =>
                _get_limit_from_extremum C self (Icohpcollection self)
                  perc_strength_icohp adapt_extremum_to_add_cond
                  additional_condition
            | Some lower, Some upper => Ok (lower, upper)
            | _, _ =>
                Err (ValueError "Please give two limits or leave them both at None")
            end ;;
  let '(lowerlimit, upperlimit) := limits in
  env <- _find_environments C self additional_condition lowerlimit upperlimit
                            only_bonds_to ;;
  sg <- make_sg_list env ;;
  Ok {| environments := env; sg_list := sg |}.

End Evaluate.

(** [s.lower()] on ASCII letters. *)
Definition lower_ascii (c : ascii) : ascii :=
  let n := nat_of_ascii c in
  if (65 <=? n)%nat && (n <=? 90)%nat then ascii_of_nat (n + 32) else c.

Definition lower (s : string) : string :=
  string_of_list_ascii (map lower_ascii (list_ascii_of_string s)).

(** The arguments of [LobsterNeighbors.__init__]. *)
Record InitArgs : Type := {
  arg_structure : Structure;
  arg_filename_icohp : option string;
  arg_obj_icohp : option IcohpCollection;
  arg_are_coops : bool;
  arg_are_cobis : bool;
  arg_valences : option (list Q);
  arg_limits : option (limit * limit);
  arg_additional_condition : Z;
  arg_only_bonds_to : option (list string);
  arg_perc_strength_icohp : Q;
  arg_noise_cutoff : option Q;
  arg_valences_from_charges : bool;
  arg_filename_charge : option string;
  arg_obj_charge : option (list Q * list Q);
  arg_which_charge : string;
  arg_adapt_extremum_to_add_cond : bool;
  arg_add_additional_data_sg : bool;
  arg_filename_blist_sg1 : option string;
  arg_filename_blist_sg2 : option string;
  arg_id_blist_sg1 : string;
  arg_id_blist_sg2 : string
}.

(** [np.allclose(self.valences or [], np.zeros_like(self.valences))].
    When [self.valences] is [None], [np.zeros_like(None)] is an array of
    dtype object, on which [np.allclose] raises [TypeError]. *)
Definition valences_all_zero (valences : option (list Q)) : result bool :=
  match valences with
  | Some vs => Ok (forallb (fun v => isclose default_rtol default_atol v 0) vs)
  | None => Err TypeError
  end.

Section Init.

Variable C : Collaborators.
Variable args : InitArgs.

Definition allowed_argument (id : string) : bool :=
  String.eqb (lower id) "icoop" || String.eqb (lower id) "icobi".

(** [Icohplist(filename=..., are_coops=..., are_cobis=...)] for one of the
    two additional bonding lists. *)
Definition read_bonding_list (id : string) (filename : option string)
  : result IcohpCollection :=
  if String.eqb (lower id) "icoop" then Icohplist C true false filename
  else if String.eqb (lower id) "icobi" then Icohplist C false true filename
  else Err (ValueError "only icoops and icobis can be added").

(** [chg.Mulliken] or [chg.Loewdin]; any other name leaves
    [self.valences] unset. *)
Definition charges_of (chg : list Q * list Q) : result (option (list Q)) :=
  if String.eqb (arg_which_charge args) "Mulliken" then Ok (Some (fst chg))
  else if String.eqb (arg_which_charge args) "Loewdin" then Ok (Some (snd chg))
  else Err AttributeError.

(** "will read in valences, will prefer manual setting of valences". *)
Definition determine_valences (additional_condition : condition)
  : result (option (list Q)) :=
  match arg_valences args with
  | Some valences => Ok (Some valences)
  | None =>
      match arg_valences_from_charges args, arg_filename_charge args,
            arg_obj_charge args with
      | true, Some filename_charge, _ =>
          chg <- Charge C filename_charge ;; charges_of chg
      | true, None, Some obj_charge => charges_of obj_charge
      | _, _, _ =>
          match get_valences C (arg_structure args) with
          | Ok valences => Ok (Some valences)
          | Err (ValueError _) =>
              if in_1_3_5_6 additional_condition
              then Err (ValueError
                  "Valences cannot be assigned, additional_conditions 1, 3, 5 and 6 will not work")
              else Ok None
          | Err e => Err e
          end
      end
  end.

(** [self.ICOHP = ...; self.Icohpcollection = self.ICOHP.icohpcollection]. *)
Definition read_icohp : result IcohpCollection :=
  match arg_filename_icohp args, arg_obj_icohp args with
  | Some filename_icohp, _ =>
      Icohplist C (arg_are_coops args) (arg_are_cobis args) (Some filename_icohp)
  | None, Some obj_icohp => Ok obj_icohp
  | None, None =>
      Err (ValueError "Please provide either filename_icohp or obj_icohp")
  end.

Definition check_identifiers : result unit :=
  if negb (allowed_argument (arg_id_blist_sg1 args))
     || negb (allowed_argument (arg_id_blist_sg2 args))
  then Err (ValueError "Algorithm can only work with ICOOPs, ICOBIs")
  else Ok tt.

Definition read_additional_data
  : result (option IcohpCollection * option IcohpCollection) :=
  if arg_add_additional_data_sg args then
    list_1 <- read_bonding_list (arg_id_blist_sg1 args)
                                (arg_filename_blist_sg1 args) ;;
    list_2 <- read_bonding_list (arg_id_blist_sg2 args)
                                (arg_filename_blist_sg2 args) ;;
    Ok (Some list_1, Some list_2)
  else Ok (None, None).

(** "will check if the additional condition is correctly delivered". *)
Definition check_additional_condition : result condition :=
  match condition_of_code (arg_additional_condition args) with
  | Some c => Ok c
  | None => Err (ValueError "Unexpected additional_condition, must be one of [0, 1, 2, 3, 4, 5, 6]")
  end.

(** The left operand of [and] is evaluated first, whatever the
    condition. *)
Definition check_valences (valences : option (list Q))
    (additional_condition : condition) : result unit :=
  all_zero <- valences_all_zero valences ;;
  if all_zero && in_1_3_5_6 additional_condition
  then Err (ValueError
      "All valences are equal to 0, additional_conditions 1, 3, 5 and 6 will not work")
  else Ok tt.

(** [__init__] up to the call of [_evaluate_ce]. *)
Definition init_setup : result Setup :=
  ICOHP <- read_icohp ;;
  _ <- check_identifiers ;;
  lists <- read_additional_data ;;
  additional_condition <- check_additional_condition ;;
  valences <- determine_valences additional_condition ;;
  _ <- check_valences valences additional_condition ;;
  Ok {| Icohpcollection := ICOHP;
        structure := arg_structure args;
        lowerlimit := option_map fst (arg_limits args);
        upperlimit := option_map snd (arg_limits args);
        only_bonds_to := arg_only_bonds_to args;
        adapt_extremum_to_add_cond := arg_adapt_extremum_to_add_cond args;
        are_coops := arg_are_coops args;
        are_cobis := arg_are_cobis args;
        add_additional_data_sg := arg_add_additional_data_sg args;
        bonding_list_1 := fst lists;
        bonding_list_2 := snd lists;
        noise_cutoff := arg_noise_cutoff args;
        additional_condition := additional_condition;
        valences := valences |}.

(** [LobsterNeighbors(...)]: the setup, then one evaluation pass. *)
Definition __init__ : result (Setup * Evaluation) :=
  self <- init_setup ;;
  ce <- _evaluate_ce C self (lowerlimit self) (upperlimit self)
                     (arg_only_bonds_to args) (additional_condition self)
                     (arg_perc_strength_icohp args)
                     (arg_adapt_extremum_to_add_cond args) ;;
  Ok (self, ce).

End Init.

(* ================================================================= *)
(** ** Aggregation of bond strengths *)

Module ICOHPNeighborsInfo.

(** The named tuple returned by the two aggregators. *)
Record t : Type := {
  total_icohp : Q;
  list_icohps : list Q;
  n_bonds : Z;
  labels : list string;
  atoms : list (string * string);
  central_isites : option (list Z)
}.

End ICOHPNeighborsInfo.

(** [math.floor(round(coord, 4))] for each fractional coordinate. *)
Definition _determine_unit_cell (site : PeriodicSite) : vec3 Z :=
  vec3_map (fun coord => Qfloor (round4 coord)) (frac_coords site).

Definition vec3_eqb (u v : vec3 Z) : bool :=
  vec3_all (fun b : bool => b) (vec3_map2 Z.eqb u v).

Section Aggregation.

Variable C : Collaborators.
Variable self : Setup.
Variable ce : Environments.

(** [[i for i in range(len(self.structure)) if self.valences[i] >= 0.0]]. *)
Definition cation_isites : result (list Z) :=
  for_each (fun isites i =>
              val <- valence_at (valences self) i ;;
              Ok (if Qle_bool 0 val then isites ++ [i] else isites))
           (range (List.length (structure self))) [].

(** The first lines of both aggregators: the sites to work on. *)
Definition select_isites (isites : option (list Z)) (onlycation_isites : bool)
  : result (list Z) :=
  match valences self, onlycation_isites with
  | None, true => Err (ValueError "No valences are provided")
  | _, _ =>
      match isites with
      | Some isites => Ok isites
      | None =>
          if onlycation_isites then cation_isites
          else Ok (range (List.length (structure self)))
      end
  end.

(** The local variables [summed_icohps], [list_icohps], [number_bonds],
    [labels], [atoms] and [final_isites] of the aggregators. *)
Record Sums : Type := {
  summed_icohps : Q;
  sums_list_icohps : list Q;
  number_bonds : Z;
  sums_labels : list string;
  sums_atoms : list (string * string);
  final_isites : list Z
}.

Definition no_sums : Sums :=
  {| summed_icohps := 0; sums_list_icohps := []; number_bonds := 0;
     sums_labels := []; sums_atoms := []; final_isites := [] |}.

(** [[self.Icohpcollection._list_atom1[int(label) - 1],
      self.Icohpcollection._list_atom2[int(label) - 1]]]. *)
Definition atoms_of_label (label : string) : result (string * string) :=
  n <- py_int label ;;
  atom1 <- py_index (_list_atom1 (Icohpcollection self)) (n - 1) ;;
  atom2 <- py_index (_list_atom2 (Icohpcollection self)) (n - 1) ;;
  Ok (atom1, atom2).

(** The body of the loop of [get_info_icohps_to_neighbors]. *)
Definition add_neighbor_bond (ival : Z) (s : Sums) (bond : string * Q)
  : result Sums :=
  let '(keys, icohpsum) := bond in
  pair <- atoms_of_label keys ;;
  Ok {| summed_icohps := summed_icohps s + icohpsum;
        sums_list_icohps := sums_list_icohps s ++ [icohpsum];
        number_bonds := number_bonds s + 1;
        sums_labels := sums_labels s ++ [keys];
        sums_atoms := sums_atoms s ++ [pair];
        final_isites := final_isites s ++ [ival] |}.

Definition get_info_icohps_to_neighbors (isites : option (list Z))
    (onlycation_isites : bool) : result ICOHPNeighborsInfo.t :=
  isites <- select_isites isites onlycation_isites ;;
  s <- for_each
         (fun s (entry : Z * PeriodicSite) =>
            let ival := fst entry in
            if existsb (Z.eqb ival) isites then
              keys <- py_index (list_keys ce) ival ;;
              icohps <- py_index (list_icohps ce) ival ;;
              for_each (add_neighbor_bond ival) (combine keys icohps) s
            else Ok s)
         (enumerate (structure self)) no_sums ;;
  Ok {| ICOHPNeighborsInfo.total_icohp := summed_icohps s;
        ICOHPNeighborsInfo.list_icohps := sums_list_icohps s;
        ICOHPNeighborsInfo.n_bonds := number_bonds s;
        ICOHPNeighborsInfo.labels := sums_labels s;
        ICOHPNeighborsInfo.atoms := sums_atoms s;
        ICOHPNeighborsInfo.central_isites := Some (final_isites s) |}.

(** The five statements repeated in [get_info_icohps_between_neighbors]
    when a bond record is counted. *)
Definition add_pair_bond (s : Sums) (icohp : IcohpValue) : result Sums :=
  pair <- atoms_of_label (_label icohp) ;;
  Ok {| summed_icohps := summed_icohps s + summed_icohp icohp;
        sums_list_icohps := sums_list_icohps s ++ [summed_icohp icohp];
        number_bonds := number_bonds s + 1;
        sums_labels := sums_labels s ++ [_label icohp];
        sums_atoms := sums_atoms s ++ [pair];
        final_isites := final_isites s |}.

(** The body of [for icohp in icohps.values()]; the state is the sums and
    the flag [done]. *)
Definition between_step (index_n_site index_n_site2 : Z) (translation : vec3 Z)
    (state : Sums * bool) (icohp : IcohpValue) : result (Sums * bool) :=
  let '(s, done) := state in
  atomnr1 <- _get_atomnumber (_atom1 icohp) ;;
  atomnr2 <- _get_atomnumber (_atom2 icohp) ;;
  if ((index_n_site =? atomnr1)%Z && (index_n_site2 =? atomnr2)%Z)
     || ((index_n_site =? atomnr2)%Z && (index_n_site2 =? atomnr1)%Z)
  then
    if negb (atomnr1 =? atomnr2)%Z then
      if vec3_eqb translation (_translation icohp)
      then s' <- add_pair_bond s icohp ;; Ok (s', done)
      else Ok (s, done)
    else if negb done then
      let icohp_trans := vec3_map Z.opp (_translation icohp) in
      if vec3_eqb translation (_translation icohp)
         || vec3_eqb translation icohp_trans
      then s' <- add_pair_bond s icohp ;; Ok (s', true)
      else Ok (s, done)
    else Ok (s, done)
  else Ok (s, done).

(** The body of the two nested loops over the neighbours of one site,
    for one pair of positions. *)
Definition between_pair (s : Sums) (pair : (Z * PeriodicSite) * (Z * PeriodicSite))
  : result Sums :=
  let '((in_site, n_site), (in_site2, n_site2)) := pair in
  if (in_site <? in_site2)%Z then
    let unitcell1 := _determine_unit_cell n_site in
    let unitcell2 := _determine_unit_cell n_site2 in
    index_n_site <- _get_original_site C (structure self) n_site ;;
    index_n_site2 <- _get_original_site C (structure self) n_site2 ;;
    let translation :=
      if (index_n_site <? index_n_site2)%Z then vec3_map2 Z.sub unitcell1 unitcell2
      else if (index_n_site2 <? index_n_site)%Z
           then vec3_map2 Z.sub unitcell2 unitcell1
           else vec3_map2 Z.sub unitcell1 unitcell2 in
    icohps <- _get_icohps C (Icohpcollection self) index_n_site (lowerlimit self)
                          (upperlimit self) (only_bonds_to self) ;;
    state <- for_each (between_step index_n_site index_n_site2 translation)
                      (map snd icohps) (s, false) ;;
    Ok (fst state)
  else Ok s.

Definition get_info_icohps_between_neighbors (isites : option (list Z))
    (onlycation_isites : bool) : result ICOHPNeighborsInfo.t :=
  isites <- select_isites isites onlycation_isites ;;
  s <- for_each
         (fun s isite =>
            neighsite <- py_index (list_neighsite ce) isite ;;
            for_each between_pair
                     (list_prod (enumerate neighsite) (enumerate neighsite)) s)
         isites no_sums ;;
  Ok {| ICOHPNeighborsInfo.total_icohp := summed_icohps s;
        ICOHPNeighborsInfo.list_icohps := sums_list_icohps s;
        ICOHPNeighborsInfo.n_bonds := number_bonds s;
        ICOHPNeighborsInfo.labels := sums_labels s;
        ICOHPNeighborsInfo.atoms := sums_atoms s;
        ICOHPNeighborsInfo.central_isites := None |}.

End Aggregation.

(* ================================================================= *)
(** ** Output assembly: [LobsterLightStructureEnvironments] *)

Record CeDict : Type := {
  ce_symbol : option string;
  ce_fraction : Q;
  csm : option Q;
  permutation : option (list Z)
}.

(** An entry of [all_nbs_sites]. *)
Record NbSite : Type := {
  nb_site : option PeriodicSite;
  nb_index : option Z;
  nb_image_cell : option (vec3 Z)
}.

(** [NeighborsSet(structure, isite, all_nbs_sites, all_nbs_sites_indices)];
    [nb_shares_all_nbs_sites] tells whether it was given the list
    [all_nbs_sites] under construction or a fresh empty one. *)
Record NeighborsSet : Type := {
  nb_set_isite : Z;
  nb_set_indices : list Z;
  nb_shares_all_nbs_sites : bool
}.

Record LobsterLightStructureEnvironments : Type := {
  coordination_environments : list (list (option CeDict));
  all_nbs_sites : list NbSite;
  neighbors_sets : list (list NeighborsSet);
  lse_structure : Structure;
  lse_valences : option (list Q);
  valences_origin : string
}.

(** The image cell of one neighbour in [from_Lobster]:
    [diff], [round_diff = np.round(diff)], the test
    [np.allclose(diff, round_diff)] and [np.array(round_diff, int)]. *)
Definition image_cell_of (neigh_site site : PeriodicSite) : result (vec3 Z) :=
  let diff := vec3_map2 Qminus (frac_coords neigh_site) (frac_coords site) in
  let round_diff := vec3_map round_half_even diff in
  if negb (vec3_all (fun b : bool => b)
             (vec3_map2 (fun d r => isclose default_rtol default_atol d (inject_Z r))
                        diff round_diff))
  then Err (ValueError
      "Weird, differences between one site in a periodic image cell is not integer ...")
  else Ok round_diff.

(** The state of the loop over the sites in [from_Lobster]. *)
Record Assembly : Type := {
  asm_coordination_environments : list (list (option CeDict));
  asm_all_nbs_sites : list NbSite;
  asm_all_nbs_sites_indices : list (list Z);
  asm_neighbors_sets : list (list NeighborsSet);
  counter : Z
}.

Section FromLobster.

Variable list_ce_symbol : option (list (option string)).
Variable list_csm : list (option Q).
Variable list_permutation : list (option (list Z)).
Variable list_neighsite : list (list PeriodicSite).
Variable list_neighisite : list (option (list Z)).
Variable structure : Structure.

(** The body of [for idx_neigh_site, neigh_site in enumerate(...)]; the
    state is [all_nbs_sites], [all_nbs_sites_indices_here] and [counter]. *)
Definition assemble_neighbor (neighisite : list Z)
    (state : list NbSite * list Z * Z) (entry : Z * PeriodicSite)
  : result (list NbSite * list Z * Z) :=
  let '(all_nbs, indices_here, counter) := state in
  let '(idx_neigh_site, neigh_site) := entry in
  index <- py_index neighisite idx_neigh_site ;;
  site <- py_index structure index ;;
  nb_image_cell <- image_cell_of neigh_site site ;;
  Ok (all_nbs ++ [{| nb_site := Some neigh_site; nb_index := Some index;
                     nb_image_cell := Some nb_image_cell |}],
      indices_here ++ [counter], (counter + 1)%Z).

(** The body of [for isite in range(len(structure))]. *)
Definition assemble_site (a : Assembly) (isite : Z) : result Assembly :=
  ce_dict <- match list_ce_symbol with
             | Some symbols =>
                 symbol <- py_index symbols isite ;;
                 csm <- py_index list_csm isite ;;
                 permutation <- py_index list_permutation isite ;;
                 Ok (Some {| ce_symbol := symbol; ce_fraction := 1; csm := csm;
                             permutation := permutation |})
             | None => Ok None
             end ;;
  neighisite <- py_index list_neighisite isite ;;
  match neighisite with
  | Some neighisite =>
      neighsite <- py_index list_neighsite isite ;;
      '(all_nbs, indices_here, counter') <-
        for_each (assemble_neighbor neighisite) (enumerate neighsite)
                 (asm_all_nbs_sites a, [], counter a) ;;
      Ok {| asm_coordination_environments :=
              asm_coordination_environments a ++ [[ce_dict]];
            asm_all_nbs_sites := all_nbs;
            asm_all_nbs_sites_indices :=
              asm_all_nbs_sites_indices a ++ [indices_here];
            asm_neighbors_sets :=
              asm_neighbors_sets a
              ++ [[{| nb_set_isite := isite; nb_set_indices := indices_here;
                      nb_shares_all_nbs_sites := true |}]];
            counter := counter' |}
  | None =>
      Ok {| asm_coordination_environments :=
              asm_coordination_environments a ++ [[ce_dict]];
            asm_all_nbs_sites :=
              asm_all_nbs_sites a
              ++ [{| nb_site := None; nb_index := None; nb_image_cell := None |}];
            asm_all_nbs_sites_indices := asm_all_nbs_sites_indices a ++ [[]];
            asm_neighbors_sets :=
              asm_neighbors_sets a
              ++ [[{| nb_set_isite := isite; nb_set_indices := [];
                      nb_shares_all_nbs_sites := false |}]];
            counter := counter a |}
  end.

Definition from_Lobster (valences : option (list Q))
  : result LobsterLightStructureEnvironments :=
  a <- for_each assemble_site (range (List.length structure))
                {| asm_coordination_environments := []; asm_all_nbs_sites := [];
                   asm_all_nbs_sites_indices := []; asm_neighbors_sets := [];
                   counter := 0 |} ;;
  Ok {| coordination_environments := asm_coordination_environments a;
        all_nbs_sites := asm_all_nbs_sites a;
        neighbors_sets := asm_neighbors_sets a;
        lse_structure := structure;
        lse_valences := valences;
        valences_origin := "user-defined" |}.

End FromLobster.

(** [min(items, key=...)]: the first item with the least key. *)
Fixpoint min_by {A : Type} (key : A -> Q) (best : A) (l : list A) : A :=
  match l with
  | [] => best
  | x :: rest => min_by key (if Qlt_bool (key x) (key best) then x else best) rest
  end.

Definition py_min_by {A : Type} (key : A -> Q) (l : list A) : result A :=
  match l with
  | [] => Err (ValueError "min() arg is an empty sequence")
  | x :: rest => Ok (min_by key x rest)
  end.

(** The five lists handed to [from_Lobster]. *)
Record CeLists : Type := {
  new_list_ce_symbols : list (option string);
  new_list_csm : list (option Q);
  new_list_permut : list (option (list Z));
  new_list_neighisite : list (list Z);
  new_list_neighsite : list (list PeriodicSite)
}.

Definition no_ce_lists : CeLists :=
  {| new_list_ce_symbols := []; new_list_csm := []; new_list_permut := [];
     new_list_neighisite := []; new_list_neighsite := [] |}.

Section LightStructureEnvironment.

Variable C : Collaborators.
Variable self : Setup.
Variable ce : Environments.

(** The body of [for ival, _neigh_coords in enumerate(self.list_coords)]. *)
Definition geometry_step
    (lists : list (option string) * list (option Q) * list (option (list Z)))
    (entry : Z * list (vec3 Q))
  : result (list (option string) * list (option Q) * list (option (list Z))) :=
  let '(list_ce_symbols, list_csm, list_permut) := lists in
  let '(ival, _neigh_coords) := entry in
  if (13 <? len _neigh_coords)%Z then
    Err (ValueError
      "Environment cannot be determined. Number of neighbors is larger than 13.")
  else
    match _neigh_coords with
    | [] => Ok (list_ce_symbols ++ [None], list_csm ++ [None], list_permut ++ [None])
    | _ =>
        cncgsm <- get_coordination_symmetry_measures C (structure self) ival
                                                     _neigh_coords ;;
        best <- py_min_by (fun t : string * (Q * list Z) => fst (snd t)) cncgsm ;;
        Ok (list_ce_symbols ++ [Some (fst best)],
            list_csm ++ [Some (fst (snd best))],
            list_permut ++ [Some (snd (snd best))])
    end.

(** The block repeated in the two restricting branches: the lists of a
    kept site are copied, those of another site are emptied. *)
Definition restrict_step
    (lists : list (option string) * list (option Q) * list (option (list Z)))
    (new : CeLists) (i : Z) (keep : bool) : result CeLists :=
  let '(list_ce_symbols, list_csm, list_permut) := lists in
  if keep then
    symbol <- py_index list_ce_symbols i ;;
    csm <- py_index list_csm i ;;
    permut <- py_index list_permut i ;;
    neighisite <- py_index (list_neighisite ce) i ;;
    neighsite <- py_index (list_neighsite ce) i ;;
    Ok {| new_list_ce_symbols := new_list_ce_symbols new ++ [symbol];
          new_list_csm := new_list_csm new ++ [csm];
          new_list_permut := new_list_permut new ++ [permut];
          new_list_neighisite := new_list_neighisite new ++ [neighisite];
          new_list_neighsite := new_list_neighsite new ++ [neighsite] |}
  else
    Ok {| new_list_ce_symbols := new_list_ce_symbols new ++ [None];
          new_list_csm := new_list_csm new ++ [None];
          new_list_permut := new_list_permut new ++ [Some []];
          new_list_neighisite := new_list_neighisite new ++ [[]];
          new_list_neighsite := new_list_neighsite new ++ [[]] |}.

(** [for ival, val in enumerate(self.valences): if val >= 0.0: ...]. *)
Definition cation_lists
    (lists : list (option string) * list (option Q) * list (option (list Z)))
  : result CeLists :=
  match valences self with
  | None => Err TypeError
  | Some vals =>
      for_each (fun new (entry : Z * Q) =>
                  restrict_step lists new (fst entry) (Qle_bool 0 (snd entry)))
               (enumerate vals) no_ce_lists
  end.

(** [for isite, _site in enumerate(self.structure): if isite in only_indices: ...]. *)
Definition indices_lists
    (lists : list (option string) * list (option Q) * list (option (list Z)))
    (only_indices : list Z) : result CeLists :=
  for_each (fun new (entry : Z * PeriodicSite) =>
              restrict_step lists new (fst entry)
                            (existsb (Z.eqb (fst entry)) only_indices))
           (enumerate (structure self)) no_ce_lists.

(** The lists chosen by the arguments of [get_light_structure_environment]. *)
Definition light_lists (only_cation_environments : bool)
    (only_indices : option (list Z)) : result CeLists :=
  lists <- for_each geometry_step (enumerate (list_coords ce)) ([], [], []) ;;
  match only_indices with
  | None =>
      if negb only_cation_environments then
        let '(list_ce_symbols, list_csm, list_permut) := lists in
        Ok {| new_list_ce_symbols := list_ce_symbols;
              new_list_csm := list_csm;
              new_list_permut := list_permut;
              new_list_neighisite := list_neighisite ce;
              new_list_neighsite := list_neighsite ce |}
      else cation_lists lists
  | Some only_indices => indices_lists lists only_indices
  end.

Definition get_light_structure_environment (only_cation_environments : bool)
    (only_indices : option (list Z))
  : result LobsterLightStructureEnvironments :=
  new <- light_lists only_cation_environments only_indices ;;
  from_Lobster (Some (new_list_ce_symbols new)) (new_list_csm new)
               (new_list_permut new) (new_list_neighsite new)
               (map Some (new_list_neighisite new)) (structure self)
               (valences self).

End LightStructureEnvironment.

(* ================================================================= *)
(** ** The [NearNeighbors] interface *)

Section NearNeighbors.

Variable self : Setup.

(** The property [anion_types]: the species of the sites of negative
    valence, as a set (a list without repetition). *)
Definition anion_types : result (list string) :=
  match valences self with
  | None => Err (ValueError "No cations and anions defined")
  | Some vals =>
      Ok (nodup string_dec
            (map (fun entry : PeriodicSite * Q => species_string (fst entry))
                 (filter (fun entry : PeriodicSite * Q =>
                            Qlt_bool (snd entry) 0)
                         (combine (structure self) vals))))
  end.

(** [get_nn_info(structure, n, use_weights)]. *)
Definition get_nn_info (ce : Evaluation) (structure' : Structure) (n : Z)
    (use_weights : bool) : result (list GraphEntry) :=
  if use_weights then Err (ValueError "LobsterEnv cannot use weights")
  else if negb (len structure' =? len (structure self))%Z
       then Err (ValueError
                   "Length of structure and LobsterNeighbors differ")
       else py_index (sg_list ce) n.

End NearNeighbors.

(* ================================================================= *)
(** ** The label of a summed COHP plot *)

(** [new = [a, b]; new.sort()]; Python compares strings by code point. *)
Definition sort_pair (a b : string) : string * string :=
  if String.ltb b a then (b, a) else (a, b).

(** The f-string [f"{new[0]}-{new[1]}"] of one pair of atom names. *)
Definition bond_type (atoms_names : string * string) : string :=
  let new := sort_pair (fst (_split_string (fst atoms_names)))
                       (fst (_split_string (snd atoms_names))) in
  (fst new ++ "-" ++ snd new)%string.

(** One update of [collections.Counter]: the keys keep the order of their
    first occurrence. *)
Fixpoint count_up (key : string) (count : list (string * nat))
  : list (string * nat) :=
  match count with
  | [] => [(key, 1%nat)]
  | (k, n) :: rest =>
      if String.eqb k key then (k, S n) :: rest
      else (k, n) :: count_up key rest
  end.

Definition Counter (labels : list string) : list (string * nat) :=
  fold_left (fun count key => count_up key count) labels [].

(** [str(item)] for a count. *)
Definition str_of_count (n : nat) : string :=
  NilEmpty.string_of_uint (Nat.to_uint n).

(** [sep.join(parts)]. *)
Fixpoint join (sep : string) (parts : list string) : string :=
  match parts with
  | [] => ""
  | [part] => part
  | part :: rest => (part ++ sep ++ join sep rest)%string
  end.

Definition _get_plot_label (atoms : list (string * string)) (per_bond : bool)
  : string :=
  let all_labels := map bond_type atoms in
  let count := Counter all_labels in
  let plotlabels :=
    map (fun entry : string * nat =>
           (str_of_count (snd entry) ++ " x " ++ fst entry)%string) count in
  let label := join ", " plotlabels in
  if per_bond then (label ++ " (per bond)")%string else label.

(* ================================================================= *)
(** ** Vocabulary of the statements *)

(** The atom numbers and the valences of the two endpoints of a bond
    record, when all four can be read. *)
Definition endpoints (valences : option (list Q)) (icohp : IcohpValue)
  : option (Z * Z * Q * Q) :=
  match _get_atomnumber (_atom1 icohp), _get_atomnumber (_atom2 icohp) with
  | Ok atomnr1, Ok atomnr2 =>
      match valence_at valences atomnr1, valence_at valences atomnr2 with
      | Ok val1, Ok val2 => Some (atomnr1, atomnr2, val1, val2)
      | _, _ => None
      end
  | _, _ => None
  end.

(** Both valences strictly positive or both strictly negative. *)
Definition strictly_same_sign (val1 val2 : Q) : Prop :=
  (0 < val1 /\ 0 < val2) \/ (val1 < 0 /\ val2 < 0).

(** "Both endpoints share valence sign (both >= 0 or both < 0)". *)
Definition share_valence_sign (val1 val2 : Q) : Prop :=
  (0 <= val1 /\ 0 <= val2) \/ (val1 < 0 /\ val2 < 0).

(** A stored bond length agrees with a distance of the neighbour search:
    the test of [np.isclose] with [rtol=1e-4] and the default [atol]. *)
Definition length_matches (dist distance : Q) : Prop :=
  Qabs (dist - distance) <= (1 # 100000000) + (1 # 10000) * Qabs distance.

(** Position [i] of the pool holds a candidate for the search result with
    this distance and this site index. *)
Definition matches_at (distance : Q) (index : Z) (dists : list Q)
    (neighs : list Z) (i : nat) : Prop :=
  exists dist neighbor,
    nth_error dists i = Some dist /\ nth_error neighs i = Some neighbor
    /\ neighbor = index /\ length_matches dist distance.

(** Position [i] is the first such position. *)
Definition first_match (distance : Q) (index : Z) (dists : list Q)
    (neighs : list Z) (i : nat) : Prop :=
  matches_at distance index dists neighs i
  /\ forall j, (j < i)%nat -> ~ matches_at distance index dists neighs j.

(** Ascending distances along a list of search results. *)
Definition ascending (l : list PeriodicNeighbor) : Prop :=
  StronglySorted (fun a b => nn_distance a <= nn_distance b) l.

(** A resolved neighbour [(site, index)] of a site comes from a search
    result that is bound to a candidate of the pool. *)
Definition bound_to_candidate (start : list PeriodicNeighbor)
    (neighbors : list Z) (lengths : list Q) (site : PeriodicSite) (index : Z)
  : Prop :=
  exists neigh dist,
    In neigh start /\ nn_site neigh = site /\ nn_index neigh = index
    /\ In (index, dist) (combine neighbors lengths)
    /\ length_matches dist (nn_distance neigh).

(** What holds of the lists of one site all along the walk. *)
Definition resolution_invariant (start : list PeriodicNeighbor)
    (neighbors : list Z) (lengths : list Q) (r : Resolution) : Prop :=
  List.length (_list_neighisite r) = List.length (_list_neighsite r)
  /\ List.length (_neigh_coords r) = List.length (_list_neighsite r)
  /\ (List.length (_list_neighsite r)
      + List.length (copied_neighbors_from_ICOHPs r)
      = List.length neighbors)%nat
  /\ (forall x, In x (combine (copied_neighbors_from_ICOHPs r)
                              (copied_distances_from_ICOHPs r)) ->
                In x (combine neighbors lengths))
  /\ Forall2 (bound_to_candidate start neighbors lengths)
             (_list_neighsite r) (_list_neighisite r).

(** The running total is the sum of the list and the count its length. *)
Definition sums_consistent (s : Sums) : Prop :=
  summed_icohps s = py_sum (sums_list_icohps s)
  /\ number_bonds s = len (sums_list_icohps s).



Definition vec3_Forall {A : Type} (P : A -> Prop) (v : vec3 A) : Prop :=
  let '(x, y, z) := v in P x /\ P y /\ P z.

(** A difference of fractional coordinates passes [np.allclose(diff,
    np.round(diff))] with numpy's default tolerances. *)
Definition near_integer (d : Q) : Prop :=
  Qabs (d - inject_Z (round_half_even d))
  <= (1 # 100000000) + (1 # 100000) * Qabs (inject_Z (round_half_even d)).

(** "A near-integer check (tolerance 1e-6)": the deviation from the
    rounded value that the specification takes as the limit. *)
Definition deviates_beyond_1e_6 (d : Q) : Prop :=
  (1 # 1000000) < Qabs (d - inject_Z (round_half_even d)).

(** [picked] is [l] with some entries left out, the order kept. *)
Inductive subsequence {A : Type} : list A -> list A -> Prop :=
| subsequence_nil : subsequence [] []
| subsequence_skip (x : A) (picked l : list A) :
    subsequence picked l -> subsequence picked (x :: l)
| subsequence_keep (x : A) (picked l : list A) :
    subsequence picked l -> subsequence (x :: picked) (x :: l).

(** Two implementations of the collaborators used by the evaluation pass
    that answer every query alike. *)
Definition agree (C1 C2 : Collaborators) : Prop :=
  (forall icohpcollection site maxbondlength lower upper only_bonds_to,
     get_icohp_dict_of_site C1 icohpcollection site maxbondlength lower upper
                            only_bonds_to
     = get_icohp_dict_of_site C2 icohpcollection site maxbondlength lower upper
                              only_bonds_to)
  /\ (forall icohpcollection,
        extremum_icohpvalue C1 icohpcollection
        = extremum_icohpvalue C2 icohpcollection)
  /\ (forall icohpcollection label,
        get_icohp_by_label C1 icohpcollection label
        = get_icohp_by_label C2 icohpcollection label)
  /\ (forall structure pt r,
        get_sites_in_sphere C1 structure pt r
        = get_sites_in_sphere C2 structure pt r)
  /\ (forall site, to_unit_cell C1 site = to_unit_cell C2 site)
  /\ (forall site fractional,
        get_cartesian_coords C1 site fractional
        = get_cartesian_coords C2 site fractional)
  /\ (forall site other,
        is_periodic_image C1 site other = is_periodic_image C2 site other).

(** The decimal writing of a site ordinal, as in the atom name "Na12". *)
Definition decimal (n : nat) : string :=
  NilEmpty.string_of_uint (Nat.to_uint n).

(** A string that does not end with a digit. *)
Definition no_trailing_digit (s : string) : Prop := rstrip_digits s = s.

(** A string made of decimal digits only. *)
Definition all_digits (s : string) : Prop :=
  forallb is_digit (list_ascii_of_string s) = true.

(** The four lists of the filter read side by side: one row per selected
    bond record, with its key, its length, the neighbour and the ICOHP. *)
Definition rows (s : Selected) : list (string * Q * Z * Q) :=
  combine (combine (combine (keys_from_ICOHPs s) (lengths_from_ICOHPs s))
                   (neighbors_from_ICOHPs s))
          (icohps_from_ICOHPs s).

Definition parallel (s : Selected) : Prop :=
  List.length (lengths_from_ICOHPs s) = List.length (keys_from_ICOHPs s)
  /\ List.length (neighbors_from_ICOHPs s) = List.length (keys_from_ICOHPs s)
  /\ List.length (icohps_from_ICOHPs s) = List.length (keys_from_ICOHPs s).

(** [other] is the endpoint of a bond between atoms [atomnr1] and
    [atomnr2] that the filter records as the neighbour of [isite]. *)
Definition other_endpoint (isite atomnr1 atomnr2 other : Z) : Prop :=
  (atomnr1 = isite /\ other = atomnr2)
  \/ (atomnr1 <> isite /\ atomnr2 = isite /\ other = atomnr1).

(** A row stands for a bond record of the dict that touches the site and
    passes the condition. *)
Definition row_of_record (valences : option (list Q)) (isite : Z)
    (additional_condition : condition) (icohps : list (string * IcohpValue))
    (row : string * Q * Z * Q) : Prop :=
  let '(key, length, neighbor, value) := row in
  exists icohp atomnr1 atomnr2,
    In (key, icohp) icohps
    /\ _get_atomnumber (_atom1 icohp) = Ok atomnr1
    /\ _get_atomnumber (_atom2 icohp) = Ok atomnr2
    /\ condition_holds valences additional_condition icohp atomnr1 atomnr2
       = Ok true
    /\ other_endpoint isite atomnr1 atomnr2 neighbor
    /\ length = _length icohp
    /\ value = summed_icohp icohp.

(** The rows added by the block that appends a neighbour. *)
Definition step_rows (isite : Z) (key : string) (icohp : IcohpValue)
    (atomnr1 atomnr2 : Z) : list (string * Q * Z * Q) :=
  if (atomnr1 =? isite)%Z
  then [(key, _length icohp, atomnr2, summed_icohp icohp)]
  else if (atomnr2 =? isite)%Z
       then [(key, _length icohp, atomnr1, summed_icohp icohp)]
       else [].

(** Pairs of conditions of which the first asks for more than the second:
    every condition against condition 0, cation-cation (6) against
    no-anion-cation (5), and condition 3 against each of its two halves,
    conditions 1 and 2. *)
Definition narrower (c1 c2 : condition) : bool :=
  match c1, c2 with
  | _, NO_ADDITIONAL_CONDITION => true
  | ONLY_CATION_CATION_BONDS, DO_NOT_CONSIDER_ANION_CATION_BONDS => true
  | ONLY_ANION_CATION_BONDS_AND_NO_ELEMENT_TO_SAME_ELEMENT_BONDS,
    ONLY_ANION_CATION_BONDS => true
  | ONLY_ANION_CATION_BONDS_AND_NO_ELEMENT_TO_SAME_ELEMENT_BONDS,
    NO_ELEMENT_TO_SAME_ELEMENT_BONDS => true
  | _, _ => false
  end.

(** The bonds gathered by [get_info_icohps_to_neighbors], one row per bond:
    label, ICOHP and central site. *)
Definition sums_rows (s : Sums) : list (string * Q * Z) :=
  combine (combine (sums_labels s) (sums_list_icohps s)) (final_isites s).

Definition sums_parallel (s : Sums) : Prop :=
  List.length (sums_labels s) = List.length (sums_list_icohps s)
  /\ List.length (sums_atoms s) = List.length (sums_list_icohps s)
  /\ List.length (final_isites s) = List.length (sums_list_icohps s).

(** A reported bond is a bond stored by the evaluation pass for its
    central site, and that site is one of the sites asked for. *)
Definition reported_bond (self : Setup) (ce : Environments) (isites : list Z)
    (row : string * Q * Z) : Prop :=
  let '(label, value, center) := row in
  (0 <= center < len (structure self))%Z
  /\ In center isites
  /\ exists keys icohps,
       py_index (list_keys ce) center = Ok keys
       /\ py_index (list_icohps ce) center = Ok icohps
       /\ In (label, value) (combine keys icohps).

(** The result with no bond in it. *)
Definition no_bonds (central_isites : option (list Z)) : ICOHPNeighborsInfo.t :=
  {| ICOHPNeighborsInfo.total_icohp := 0;
     ICOHPNeighborsInfo.list_icohps := [];
     ICOHPNeighborsInfo.n_bonds := 0;
     ICOHPNeighborsInfo.labels := [];
     ICOHPNeighborsInfo.atoms := [];
     ICOHPNeighborsInfo.central_isites := central_isites |}.

(** An entry of [all_nbs_sites] that stands for a neighbour. *)
Definition filled (nb : NbSite) : Prop :=
  nb_site nb <> None /\ nb_index nb <> None /\ nb_image_cell nb <> None.

(** What [from_Lobster] keeps while it runs over sites whose neighbour
    lists are all present: the counter is the number of entries so far,
    and the indices handed out so far are 0, 1, 2, ... in this order. *)
Definition assembly_invariant (a : Assembly) : Prop :=
  counter a = len (asm_all_nbs_sites a)
  /\ List.concat (asm_all_nbs_sites_indices a)
     = range (List.length (asm_all_nbs_sites a))
  /\ map (fun sets => List.concat (map nb_set_indices sets)) (asm_neighbors_sets a)
     = asm_all_nbs_sites_indices a
  /\ List.length (asm_coordination_environments a)
     = List.length (asm_neighbors_sets a)
  /\ Forall filled (asm_all_nbs_sites a).

(** The count stored for a key, 0 when the key is absent. *)
Fixpoint count_of (key : string) (count : list (string * nat)) : nat :=
  match count with
  | [] => 0
  | (k, n) :: rest => if String.eqb k key then n else count_of key rest
  end.

(** Two lists of atom pairs that differ only in the order of the two
    atoms inside some pairs. *)
Definition same_bonds (atoms atoms' : list (string * string)) : Prop :=
  Forall2 (fun pair pair' => pair' = pair \/ pair' = (snd pair, fst pair))
          atoms atoms'.

(** One of the ten characters of "0123456789". *)
Definition decimal_digit (c : ascii) : Prop :=
  In c (list_ascii_of_string "0123456789").

(** The last character of the string is one of them. *)
Definition ends_with_digit (s : string) : Prop :=
  exists front c, s = (front ++ String c "")%string /\ decimal_digit c.

(** Every character of the string is one of them. *)
Definition digits_only (s : string) : Prop :=
  Forall decimal_digit (list_ascii_of_string s).

(** [element] is the name of an atom without its ordinal: what is left of
    "Na12" when the digits at its end are taken away. *)
Definition element_of (name element : string) : Prop :=
  exists ordinal,
    name = (element ++ ordinal)%string
    /\ digits_only ordinal
    /\ ~ ends_with_digit element.

(** One valence strictly negative and the other strictly positive. *)
Definition opposite_signs (val1 val2 : Q) : Prop :=
  (val1 < 0 /\ 0 < val2) \/ (val2 < 0 /\ 0 < val1).

(** The two atoms of a bond record are of one element. *)
Definition same_element (value : IcohpValue) : Prop :=
  exists element,
    element_of (_atom1 value) element /\ element_of (_atom2 value) element.

(** A bond record satisfies the policy of a condition: anion-cation (1),
    two elements (2), both (3), one end is oxygen (4), two valences of
    one strict sign (5), two cations (6). *)
Definition satisfies_policy (valences : option (list Q)) (cond : condition)
    (value : IcohpValue) : Prop :=
  let by_valences (P : Q -> Q -> Prop) :=
    exists atomnr1 atomnr2 val1 val2,
      endpoints valences value = Some (atomnr1, atomnr2, val1, val2)
      /\ P val1 val2 in
  match cond with
  | NO_ADDITIONAL_CONDITION => True
  | ONLY_ANION_CATION_BONDS => by_valences opposite_signs
  | NO_ELEMENT_TO_SAME_ELEMENT_BONDS => ~ same_element value
  | ONLY_ANION_CATION_BONDS_AND_NO_ELEMENT_TO_SAME_ELEMENT_BONDS =>
      by_valences opposite_signs /\ ~ same_element value
  | ONLY_ELEMENT_TO_OXYGEN_BONDS =>
      element_of (_atom1 value) "O" \/ element_of (_atom2 value) "O"
  | DO_NOT_CONSIDER_ANION_CATION_BONDS => by_valences strictly_same_sign
  | ONLY_CATION_CATION_BONDS =>
      by_valences (fun val1 val2 => 0 < val1 /\ 0 < val2)
  end.

(** The atom numbers and the valences that the policy of the condition
    looks at can be read. *)
Definition readable (valences : option (list Q)) (cond : condition)
    (value : IcohpValue) : Prop :=
  in_1_3_5_6 cond = true -> endpoints valences value <> None.

(** The test that the loops of [_get_limit_from_extremum] apply to a
    record, condition by condition. *)
Definition policy_test (valences : option (list Q)) (cond : condition)
    (value : IcohpValue) : result bool :=
  let by_valences (test : Q -> Q -> bool) :=
    atomnr1 <- _get_atomnumber (_atom1 value) ;;
    atomnr2 <- _get_atomnumber (_atom2 value) ;;
    '(val1, val2) <- endpoint_valences valences atomnr1 atomnr2 ;;
    Ok (test val1 val2) in
  match cond with
  | NO_ADDITIONAL_CONDITION => Ok true
  | ONLY_ANION_CATION_BONDS => by_valences anion_cation
  | NO_ELEMENT_TO_SAME_ELEMENT_BONDS =>
      Ok (different_elements (_atom1 value) (_atom2 value))
  | ONLY_ANION_CATION_BONDS_AND_NO_ELEMENT_TO_SAME_ELEMENT_BONDS =>
      by_valences (fun val1 val2 =>
                     anion_cation val1 val2
                     && different_elements (_atom1 value) (_atom2 value))
  | ONLY_ELEMENT_TO_OXYGEN_BONDS =>
      Ok (to_oxygen (_atom1 value) (_atom2 value))
  | DO_NOT_CONSIDER_ANION_CATION_BONDS => by_valences no_anion_cation
  | ONLY_CATION_CATION_BONDS => by_valences cation_cation
  end.





(* ================================================================= *)
(** ** A small crystal to run the functions on

    Two sites, Na at the origin and Cl on the first axis of a cubic cell
    of edge 6, and one bond record "1" between Na1 and Cl2.  The stored
    bond length and the distance found by the neighbour search are
    parameters, so that they can be made to disagree. *)

Module Example.

Definition site_at (species : string) (x : Q) : PeriodicSite :=
  {| species_string := species; frac_coords := (x / 6, 0, 0); coords := (x, 0, 0) |}.

Definition nacl (distance : Q) : Structure :=
  [site_at "Na" 0; site_at "Cl" distance].

Definition bond (length : Q) : IcohpValue :=
  {| _label := "1"; _atom1 := "Na1"; _atom2 := "Cl2"; _length := length;
     _translation := (0, 0, 0)%Z; summed_icohp := - (1) |}.

Definition collection (length : Q) : IcohpCollection :=
  {| _icohplist := [("1"%string, bond length)];
     _list_atom1 := ["Na1"%string]; _list_atom2 := ["Cl2"%string] |}.

Definition touches (site : Z) (value : IcohpValue) : bool :=
  match _get_atomnumber (_atom1 value), _get_atomnumber (_atom2 value) with
  | Ok atomnumber1, Ok atomnumber2 =>
      (site =? atomnumber1)%Z || (site =? atomnumber2)%Z
  | _, _ => false
  end.

Definition above (bound : option limit) (x : Q) : bool :=
  match bound with
  | Some (Finite q) => Qle_bool q x
  | Some PlusInf => false
  | _ => true
  end.

Definition below (bound : option limit) (x : Q) : bool :=
  match bound with
  | Some (Finite q) => Qle_bool x q
  | Some MinusInf => false
  | _ => true
  end.

(** The neighbour search around a point of the first axis: the site
    itself and the other one. *)
Definition search (distance : Q) (structure : Structure) (pt : vec3 Q)
  : list PeriodicNeighbor :=
  let '(x, _, _) := pt in
  if Qeq_bool x 0 then
    [ {| nn_site := site_at "Cl" distance; nn_distance := distance;
         nn_index := 1; nn_image := (0, 0, 0)%Z |};
      {| nn_site := site_at "Na" 0; nn_distance := 0;
         nn_index := 0; nn_image := (0, 0, 0)%Z |} ]
  else
    [ {| nn_site := site_at "Na" 0; nn_distance := distance;
         nn_index := 0; nn_image := (0, 0, 0)%Z |};
      {| nn_site := site_at "Cl" distance; nn_distance := 0;
         nn_index := 1; nn_image := (0, 0, 0)%Z |} ].

Definition same_site (a b : PeriodicSite) : bool :=
  String.eqb (species_string a) (species_string b)
  && vec3_all (fun d => Qeq_bool d (inject_Z (Qfloor d)))
              (vec3_map2 Qminus (frac_coords a) (frac_coords b)).

Definition world (distance : Q) : Collaborators :=
  {| get_icohp_dict_of_site :=
       fun icohpcollection site maxbondlength minsummedicohp maxsummedicohp _ =>
         Ok (filter (fun item : string * IcohpValue =>
                       touches site (snd item)
                       && Qle_bool (_length (snd item)) maxbondlength
                       && above minsummedicohp (summed_icohp (snd item))
                       && below maxsummedicohp (summed_icohp (snd item)))
                    (_icohplist icohpcollection));
     extremum_icohpvalue :=
       fun icohpcollection =>
         py_min (map (fun item => summed_icohp (snd item))
                     (_icohplist icohpcollection));
     get_icohp_by_label := fun _ _ => Err (ValueError "label not found");
     get_sites_in_sphere := fun structure pt _ => Ok (search distance structure pt);
     to_unit_cell := fun site => site;
     get_cartesian_coords := fun _ fractional => vec3_map (Qmult 6) fractional;
     is_periodic_image := same_site;
     _get_original_site :=
       fun structure site =>
         entry <- next_such (fun entry => same_site site (snd entry))
                            (enumerate structure) ;;
         Ok (fst entry);
     get_valences := fun _ => Ok [1; - (1)];
     Icohplist := fun _ _ _ => Err (ValueError "no such file");
     Charge := fun _ => Err (ValueError "no such file");
     get_coordination_symmetry_measures :=
       fun _ _ _ => Ok [("L:2"%string, (0, [0%Z]))] |}.

(** The arguments of the constructor: the bond list is handed over as an
    object, everything else is left at its default. *)
Definition arguments (length distance : Q) (additional_condition : Z)
    (valences : option (list Q)) (adapt : bool) : InitArgs :=
  {| arg_structure := nacl distance;
     arg_filename_icohp := None;
     arg_obj_icohp := Some (collection length);
     arg_are_coops := false;
     arg_are_cobis := false;
     arg_valences := valences;
     arg_limits := None;
     arg_additional_condition := additional_condition;
     arg_only_bonds_to := None;
     arg_perc_strength_icohp := 15 # 100;
     arg_noise_cutoff := Some (1 # 10);
     arg_valences_from_charges := false;
     arg_filename_charge := None;
     arg_obj_charge := None;
     arg_which_charge := "Mulliken";
     arg_adapt_extremum_to_add_cond := adapt;
     arg_add_additional_data_sg := false;
     arg_filename_blist_sg1 := None;
     arg_filename_blist_sg2 := None;
     arg_id_blist_sg1 := "ICOOP";
     arg_id_blist_sg2 := "ICOBI" |}.

(** The attributes after the setup, for ICOHPs with the default noise
    cutoff and no explicit limits. *)
Definition self (length distance : Q) (additional_condition : condition)
    (valences : option (list Q)) : Setup :=
  {| Icohpcollection := collection length;
     structure := nacl distance;
     lowerlimit := None;
     upperlimit := None;
     only_bonds_to := None;
     adapt_extremum_to_add_cond := false;
     are_coops := false;
     are_cobis := false;
     add_additional_data_sg := false;
     bonding_list_1 := None;
     bonding_list_2 := None;
     noise_cutoff := Some (1 # 10);
     additional_condition := additional_condition;
     valences := valences |}.

(** The same with the extremum adapted to the condition. *)
Definition self_adapted (length distance : Q) (additional_condition : condition)
    (valences : option (list Q)) : Setup :=
  {| Icohpcollection := collection length;
     structure := nacl distance;
     lowerlimit := None;
     upperlimit := None;
     only_bonds_to := None;
     adapt_extremum_to_add_cond := true;
     are_coops := false;
     are_cobis := false;
     add_additional_data_sg := false;
     bonding_list_1 := None;
     bonding_list_2 := None;
     noise_cutoff := Some (1 # 10);
     additional_condition := additional_condition;
     valences := valences |}.

(** The lists stored by the evaluation pass when the stored length and
    the distance of the search are both 3. *)
Definition resolved : Environments :=
  {| list_icohps := [[- (1)]; [- (1)]];
     list_keys := [["1"%string]; ["1"%string]];
     list_lengths := [[3]; [3]];
     list_neighisite := [[1%Z]; [0%Z]];
     list_neighsite := [[site_at "Cl" 3]; [site_at "Na" 0]];
     list_coords := [[(3, 0, 0)]; [(0, 0, 0)]] |}.

(** The same collaborators with the lattice operations written out in
    another way. *)
Definition world_again (distance : Q) : Collaborators :=
  {| get_icohp_dict_of_site := get_icohp_dict_of_site (world distance);
     extremum_icohpvalue := extremum_icohpvalue (world distance);
     get_icohp_by_label := get_icohp_by_label (world distance);
     get_sites_in_sphere := get_sites_in_sphere (world distance);
     to_unit_cell :=
       fun site => {| species_string := species_string site;
                      frac_coords := frac_coords site;
                      coords := coords site |};
     get_cartesian_coords :=
       fun _ fractional =>
         let '(x, y, z) := fractional in (6 * x, 6 * y, 6 * z);
     is_periodic_image := fun site other => same_site site other;
     _get_original_site := _get_original_site (world distance);
     get_valences := get_valences (world distance);
     Icohplist := Icohplist (world distance);
     Charge := Charge (world distance);
     get_coordination_symmetry_measures :=
       get_coordination_symmetry_measures (world distance) |}.

(** The same collaborators when the bond-valence estimate of the
    valences fails. *)
Definition world_without_valences (distance : Q) : Collaborators :=
  {| get_icohp_dict_of_site := get_icohp_dict_of_site (world distance);
     extremum_icohpvalue := extremum_icohpvalue (world distance);
     get_icohp_by_label := get_icohp_by_label (world distance);
     get_sites_in_sphere := get_sites_in_sphere (world distance);
     to_unit_cell := to_unit_cell (world distance);
     get_cartesian_coords := get_cartesian_coords (world distance);
     is_periodic_image := is_periodic_image (world distance);
     _get_original_site := _get_original_site (world distance);
     get_valences := fun _ => Err (ValueError "Valences cannot be assigned");
     Icohplist := Icohplist (world distance);
     Charge := Charge (world distance);
     get_coordination_symmetry_measures :=
       get_coordination_symmetry_measures (world distance) |}.

(** The crystal with one bond record between the Cl site and its image
    in the next cell along the first axis. *)
Definition chlorine_chain : Setup :=
  {| Icohpcollection :=
       {| _icohplist :=
            [("1"%string,
              {| _label := "1"; _atom1 := "Cl2"; _atom2 := "Cl2"; _length := 6;
                 _translation := (1, 0, 0)%Z; summed_icohp := - (1 # 2) |})];
          _list_atom1 := ["Cl2"%string]; _list_atom2 := ["Cl2"%string] |};
     structure := nacl 3;
     lowerlimit := None;
     upperlimit := None;
     only_bonds_to := None;
     adapt_extremum_to_add_cond := false;
     are_coops := false;
     are_cobis := false;
     add_additional_data_sg := false;
     bonding_list_1 := None;
     bonding_list_2 := None;
     noise_cutoff := Some (1 # 10);
     additional_condition := NO_ADDITIONAL_CONDITION;
     valences := Some [1; - (1)] |}.

End Example.

(* ================================================================= *)
(** * Properties *)

(** ** Comparisons, the error monad and loops *)

Lemma Qlt_bool_iff (x y : Q) : Qlt_bool x y = true <-> x < y.
Proof.
  unfold Qlt_bool. rewrite negb_true_iff.
  split; intro H.
  - apply Qnot_le_lt. intro Hle. apply Qle_bool_iff in Hle. congruence.
  - destruct (Qle_bool y x) eqn:E; [|reflexivity].
    apply Qle_bool_iff in E. exfalso. exact (Qlt_not_le _ _ H E).
Qed.

Lemma Qlt_bool_false_iff (x y : Q) : Qlt_bool x y = false <-> y <= x.
Proof.
  unfold Qlt_bool. rewrite negb_false_iff. apply Qle_bool_iff.
Qed.

Lemma Qle_bool_false_iff (x y : Q) : Qle_bool x y = false <-> y < x.
Proof.
  rewrite <- Qlt_bool_iff. unfold Qlt_bool.
  destruct (Qle_bool x y); simpl; split; congruence.
Qed.

Lemma bind_Ok {A B : Type} (m : result A) (k : A -> result B) (b : B) :
  bind m k = Ok b <-> exists a, m = Ok a /\ k a = Ok b.
Proof.
  destruct m as [a|e]; simpl; split.
  - intro H. exists a. auto.
  - intros (a' & Ha & Hk). injection Ha as ->. exact Hk.
  - discriminate.
  - intros (a' & Ha & _). discriminate.
Qed.

Lemma bind_cong {A B : Type} (m1 m2 : result A) (k1 k2 : A -> result B) :
  m1 = m2 -> (forall a, k1 a = k2 a) -> bind m1 k1 = bind m2 k2.
Proof.
  intros -> Hk. destruct m2 as [a|e]; simpl; [apply Hk | reflexivity].
Qed.

(** A property kept by every successful turn of a loop holds when the
    loop ends without an exception. *)
Lemma for_each_invariant {A S : Type} (P : S -> Prop) (body : S -> A -> result S)
    (l : list A) :
  (forall s x s', In x l -> P s -> body s x = Ok s' -> P s') ->
  forall s s', P s -> for_each body l s = Ok s' -> P s'.
Proof.
  induction l as [|x rest IH]; simpl; intros Hstep s s' Hs Hrun.
  - injection Hrun as <-. exact Hs.
  - apply bind_Ok in Hrun. destruct Hrun as (s1 & Hbody & Hrest).
    apply (IH (fun s0 y s0' Hy => Hstep s0 y s0' (or_intror Hy)) s1 s').
    + apply (Hstep s x s1); auto.
    + exact Hrest.
Qed.

(** Two loops with bodies that agree do the same. *)
Lemma for_each_ext {A S : Type} (body1 body2 : S -> A -> result S) (l : list A) :
  (forall s x, In x l -> body1 s x = body2 s x) ->
  forall s, for_each body1 l s = for_each body2 l s.
Proof.
  induction l as [|x rest IH]; simpl; intros Hext s.
  - reflexivity.
  - rewrite (Hext s x (or_introl eq_refl)).
    destruct (body2 s x) as [s1|e]; simpl; [|reflexivity].
    apply IH. intros s0 y Hy. apply Hext. right. exact Hy.
Qed.

Lemma map_result_ext {A B : Type} (f g : A -> result B) (l : list A) :
  (forall x, In x l -> f x = g x) -> map_result f l = map_result g l.
Proof.
  induction l as [|x rest IH]; simpl; intro Hext.
  - reflexivity.
  - rewrite (Hext x (or_introl eq_refl)), IH; [reflexivity|].
    intros y Hy. apply Hext. right. exact Hy.
Qed.

(* ================================================================= *)
(** ** ThresholdSelector *)

Lemma py_min2_le_r (a b : Q) : py_min2 a b <= b.
Proof.
  unfold py_min2. destruct (Qlt_bool b a) eqn:E.
  - apply Qle_refl.
  - apply Qlt_bool_false_iff in E. exact E.
Qed.

Lemma py_min2_le_l (a b : Q) : py_min2 a b <= a.
Proof.
  unfold py_min2. destruct (Qlt_bool b a) eqn:E.
  - apply Qlt_bool_iff in E. apply Qlt_le_weak. exact E.
  - apply Qle_refl.
Qed.

Lemma py_max2_ge_r (a b : Q) : b <= py_max2 a b.
Proof.
  unfold py_max2. destruct (Qlt_bool a b) eqn:E.
  - apply Qle_refl.
  - apply Qlt_bool_false_iff in E. exact E.
Qed.

Lemma py_max2_ge_l (a b : Q) : a <= py_max2 a b.
Proof.
  unfold py_max2. destruct (Qlt_bool a b) eqn:E.
  - apply Qlt_bool_iff in E. apply Qlt_le_weak. exact E.
  - apply Qle_refl.
Qed.

Lemma py_min2_cases (a b : Q) : py_min2 a b = a \/ py_min2 a b = b.
Proof. unfold py_min2. destruct (Qlt_bool b a); auto. Qed.

Lemma py_max2_cases (a b : Q) : py_max2 a b = a \/ py_max2 a b = b.
Proof. unfold py_max2. destruct (Qlt_bool a b); auto. Qed.

(** C3.  Without explicit limits the window is computed from
    [extremum_based], the extremum times the percentage.  For ICOHPs
    (neither COOPs nor COBIs) it is (-inf, min(extremum_based,
    -noise_cutoff)); for COOPs or COBIs it is (max(extremum_based,
    noise_cutoff), +inf); without a noise cutoff the bound is
    [extremum_based] itself.  Hence with a noise cutoff the upper bound of
    the first window is at most [-noise_cutoff] and the lower bound of the
    second at least [noise_cutoff]. *)
Theorem limit_from_extremum_window (C : Collaborators) (self : Setup)
    (icohpcollection : IcohpCollection) (percentage : Q) (adapt : bool)
    (additional_condition : condition) (eb : Q) :
  extremum_based C self icohpcollection percentage adapt additional_condition
    = Ok eb ->
  (* the window *)
  (are_coops self = false /\ are_cobis self = false ->
   match noise_cutoff self with
   | Some cutoff =>
       _get_limit_from_extremum C self icohpcollection percentage adapt
                                additional_condition
         = Ok (MinusInf, Finite (py_min2 eb (- cutoff)))
       /\ py_min2 eb (- cutoff) <= - cutoff
       /\ py_min2 eb (- cutoff) <= eb
       /\ (py_min2 eb (- cutoff) = eb \/ py_min2 eb (- cutoff) = - cutoff)
   | None =>
       _get_limit_from_extremum C self icohpcollection percentage adapt
                                additional_condition
         = Ok (MinusInf, Finite eb)
   end)
  /\ (are_coops self = true \/ are_cobis self = true ->
      match noise_cutoff self with
      | Some cutoff =>
          _get_limit_from_extremum C self icohpcollection percentage adapt
                                   additional_condition
            = Ok (Finite (py_max2 eb cutoff), PlusInf)
          /\ cutoff <= py_max2 eb cutoff
          /\ eb <= py_max2 eb cutoff
          /\ (py_max2 eb cutoff = eb \/ py_max2 eb cutoff = cutoff)
      | None =>
          _get_limit_from_extremum C self icohpcollection percentage adapt
                                   additional_condition
            = Ok (Finite eb, PlusInf)
      end)
  (* [extremum_based] is the extremum times the percentage *)
  /\ (adapt = false \/ additional_condition = NO_ADDITIONAL_CONDITION ->
      exists extremum,
        extremum_icohpvalue C icohpcollection = Ok extremum
        /\ eb = extremum * percentage)
  /\ (adapt = true /\ additional_condition <> NO_ADDITIONAL_CONDITION ->
      exists list_icohps extremum,
        adaptation_subset self icohpcollection additional_condition
          = Ok list_icohps
        /\ (if are_icohps self then py_min list_icohps else py_max list_icohps)
           = Ok extremum
        /\ eb = extremum * percentage).
Proof.
  intro Heb. unfold _get_limit_from_extremum. rewrite Heb. simpl.
  unfold limit_from, are_icohps.
  repeat split.
  - intros [Hcoops Hcobis]. rewrite Hcoops, Hcobis. simpl.
    destruct (noise_cutoff self) as [cutoff|]; [|reflexivity].
    repeat split.
    + apply py_min2_le_r.
    + apply py_min2_le_l.
    + apply py_min2_cases.
  - intros Hor.
    assert (Hneg : negb (are_coops self) && negb (are_cobis self) = false).
    { destruct Hor as [-> | ->]; simpl; [reflexivity | apply andb_false_r]. }
    rewrite Hneg.
    destruct (noise_cutoff self) as [cutoff|]; [|reflexivity].
    repeat split.
    + apply py_max2_ge_r.
    + apply py_max2_ge_l.
    + apply py_max2_cases.
  - intros Hor. unfold extremum_based in Heb.
    assert (Hrun : (extremum <- extremum_icohpvalue C icohpcollection ;;
                    Ok (extremum * percentage)) = Ok eb).
    { destruct Hor as [-> | ->]; [exact Heb|].
      destruct adapt; exact Heb. }
    apply bind_Ok in Hrun. destruct Hrun as (extremum & Hext & Hval).
    exists extremum. split; [exact Hext | congruence].
  - intros [-> Hcond]. unfold extremum_based in Heb.
    assert (Hrun : (list_icohps <- adaptation_subset self icohpcollection
                                     additional_condition ;;
                    _adapt_extremum_to_add_cond self list_icohps percentage)
                   = Ok eb).
    { destruct additional_condition; try exact Heb. congruence. }
    apply bind_Ok in Hrun. destruct Hrun as (list_icohps & Hsub & Hadapt).
    unfold _adapt_extremum_to_add_cond in Hadapt.
    apply bind_Ok in Hadapt. destruct Hadapt as (extremum & Hext & Hval).
    exists list_icohps, extremum. repeat split; [exact Hsub | exact Hext | congruence].
Qed.


(** Exact zeros pass [np.allclose(valences, 0)]. *)
Lemma valences_all_zero_of_zeros (vs : list Q) :
  Forall (fun v => v == 0) vs -> valences_all_zero (Some vs) = Ok true.
Proof.
  intro Hzero. unfold valences_all_zero. f_equal. apply forallb_forall.
  intros v Hin. rewrite Forall_forall in Hzero. specialize (Hzero v Hin).
  unfold isclose. apply Qle_bool_iff.
  assert (Habs : Qabs (v - 0) == 0).
  { rewrite Hzero. reflexivity. }
  rewrite Habs. unfold default_atol, default_rtol. simpl Qabs.
  discriminate.
Qed.

(** C6.  With a condition among 1, 3, 5 and 6 and valences (given or
    derived) that are all zero, the constructor ends with an exception
    during the setup, so [_evaluate_ce] is never called; when the steps
    before the valences pass, the exception is the [ValueError] "All
    valences are equal to 0 ...". *)
Theorem all_zero_valences_fail_at_setup (C : Collaborators) (args : InitArgs)
    (additional_condition : condition) (vs : list Q) :
  condition_of_code (arg_additional_condition args) = Some additional_condition ->
  in_1_3_5_6 additional_condition = true ->
  determine_valences C args additional_condition = Ok (Some vs) ->
  Forall (fun v => v == 0) vs ->
  (exists e, init_setup C args = Err e /\ __init__ C args = Err e)
  /\ (forall ICOHP lists,
        read_icohp C args = Ok ICOHP ->
        check_identifiers args = Ok tt ->
        read_additional_data C args = Ok lists ->
        let missing_valence := ValueError
          "All valences are equal to 0, additional_conditions 1, 3, 5 and 6 will not work" in
        init_setup C args = Err missing_valence
        /\ __init__ C args = Err missing_valence).
Proof.
  intros Hcode Hcond Hvalences Hzero.
  assert (Hcheck : check_valences (Some vs) additional_condition
                   = Err (ValueError
      "All valences are equal to 0, additional_conditions 1, 3, 5 and 6 will not work")).
  { unfold check_valences.
    rewrite (valences_all_zero_of_zeros Hzero). simpl. rewrite Hcond.
    reflexivity. }
  assert (Hprecise : forall ICOHP lists,
        read_icohp C args = Ok ICOHP ->
        check_identifiers args = Ok tt ->
        read_additional_data C args = Ok lists ->
        init_setup C args = Err (ValueError
      "All valences are equal to 0, additional_conditions 1, 3, 5 and 6 will not work")).
  { intros ICOHP lists Hicohp Hids Hlists. unfold init_setup.
    rewrite Hicohp. simpl. rewrite Hids. simpl. rewrite Hlists. simpl.
    unfold check_additional_condition. rewrite Hcode. simpl.
    rewrite Hvalences. simpl. rewrite Hcheck. reflexivity. }
  split.
  - assert (Hfail : exists e, init_setup C args = Err e).
    { destruct (read_icohp C args) as [ICOHP|e] eqn:Hicohp.
      2:{ exists e. unfold init_setup. rewrite Hicohp. reflexivity. }
      destruct (check_identifiers args) as [[]|e] eqn:Hids.
      2:{ exists e. unfold init_setup. rewrite Hicohp. simpl. rewrite Hids.
          reflexivity. }
      destruct (read_additional_data C args) as [lists|e] eqn:Hlists.
      2:{ exists e. unfold init_setup. rewrite Hicohp. simpl. rewrite Hids.
          simpl. rewrite Hlists. reflexivity. }
      eexists. apply (Hprecise ICOHP lists); reflexivity. }
    destruct Hfail as (e & He). exists e. split; [exact He|].
    unfold __init__. rewrite He. reflexivity.
  - intros ICOHP lists Hicohp Hids Hlists missing_valence.
    pose proof (Hprecise ICOHP lists Hicohp Hids Hlists) as He.
    split; [exact He|]. unfold __init__. rewrite He. reflexivity.
Qed.

(* ================================================================= *)
(** ** ConditionFilter *)

Lemma no_anion_cation_iff (val1 val2 : Q) :
  no_anion_cation val1 val2 = true <-> strictly_same_sign val1 val2.
Proof.
  unfold no_anion_cation, strictly_same_sign.
  rewrite orb_true_iff, !andb_true_iff, !Qlt_bool_iff. reflexivity.
Qed.

Lemma zero_valence_not_strict (val1 val2 : Q) :
  val1 == 0 \/ val2 == 0 -> ~ strictly_same_sign val1 val2.
Proof.
  intros Hzero [[H1 H2] | [H1 H2]]; destruct Hzero as [Hz | Hz];
    rewrite Hz in *;
    match goal with H : 0 < 0 |- _ => exact (Qlt_irrefl 0 H) end.
Qed.

Lemma endpoint_valences_Ok (valences : option (list Q)) (atomnr1 atomnr2 : Z)
    (val1 val2 : Q) :
  endpoint_valences valences atomnr1 atomnr2 = Ok (val1, val2)
  <-> valence_at valences atomnr1 = Ok val1
      /\ valence_at valences atomnr2 = Ok val2.
Proof.
  unfold endpoint_valences.
  destruct (valence_at valences atomnr1) as [v1|e1]; simpl.
  2:{ split; [discriminate | intros [H _]; discriminate]. }
  destruct (valence_at valences atomnr2) as [v2|e2]; simpl.
  2:{ split; [discriminate | intros [_ H]; discriminate]. }
  split.
  - intro H. injection H as -> ->. auto.
  - intros [H1 H2]. injection H1 as ->. injection H2 as ->. reflexivity.
Qed.

(** One turn of the filter loop under condition 5. *)
Lemma relevant_atoms_step_5 (valences : option (list Q)) (isite : Z)
    (s s' : Selected) (key : string) (icohp : IcohpValue) :
  relevant_atoms_step valences isite DO_NOT_CONSIDER_ANION_CATION_BONDS s
                      (key, icohp) = Ok s' ->
  exists atomnr1 atomnr2 val1 val2,
    endpoints valences icohp = Some (atomnr1, atomnr2, val1, val2)
    /\ s' = if no_anion_cation val1 val2
            then append_neighbor isite s key icohp atomnr1 atomnr2 else s.
Proof.
  unfold relevant_atoms_step, endpoints. intro H.
  apply bind_Ok in H. destruct H as (atomnr1 & H1 & H).
  apply bind_Ok in H. destruct H as (atomnr2 & H2 & H).
  apply bind_Ok in H. destruct H as (selected & Hsel & H).
  simpl in Hsel. apply bind_Ok in Hsel. destruct Hsel as ([val1 val2] & Hv & Hsel).
  apply endpoint_valences_Ok in Hv. destruct Hv as [Hv1 Hv2].
  injection Hsel as <-. injection H as <-.
  exists atomnr1, atomnr2, val1, val2.
  rewrite H1, H2, Hv1, Hv2. split; reflexivity.
Qed.

Lemma keys_append_neighbor (isite : Z) (s : Selected) (key : string)
    (icohp : IcohpValue) (atomnr1 atomnr2 : Z) :
  keys_from_ICOHPs (append_neighbor isite s key icohp atomnr1 atomnr2)
  = keys_from_ICOHPs s
    ++ (if (atomnr1 =? isite)%Z || (atomnr2 =? isite)%Z then [key] else []).
Proof.
  unfold append_neighbor.
  destruct (atomnr1 =? isite)%Z; simpl; [reflexivity|].
  destruct (atomnr2 =? isite)%Z; simpl; [reflexivity|].
  symmetry. apply app_nil_r.
Qed.

(** The keys selected under condition 5, for any pool already filled. *)
Lemma relevant_atoms_5_keys (valences : option (list Q)) (isite : Z)
    (icohps : list (string * IcohpValue)) :
  forall s sel,
    for_each (relevant_atoms_step valences isite
                DO_NOT_CONSIDER_ANION_CATION_BONDS) icohps s = Ok sel ->
    forall key,
      In key (keys_from_ICOHPs sel)
      <-> In key (keys_from_ICOHPs s)
          \/ exists icohp atomnr1 atomnr2 val1 val2,
               In (key, icohp) icohps
               /\ endpoints valences icohp = Some (atomnr1, atomnr2, val1, val2)
               /\ (atomnr1 = isite \/ atomnr2 = isite)
               /\ strictly_same_sign val1 val2.
Proof.
  induction icohps as [|[key0 icohp0] rest IH]; simpl; intros s sel Hrun key.
  - injection Hrun as <-. split; [auto|].
    intros [H | (? & ? & ? & ? & ? & [] & _)]. exact H.
  - apply bind_Ok in Hrun. destruct Hrun as (s1 & Hstep & Hrest).
    apply relevant_atoms_step_5 in Hstep.
    destruct Hstep as (n1 & n2 & v1 & v2 & Hend & Hs1).
    rewrite (IH s1 sel Hrest key). clear IH Hrest.
    assert (Hkeys : In key (keys_from_ICOHPs s1)
                    <-> In key (keys_from_ICOHPs s)
                        \/ (key = key0 /\ (n1 = isite \/ n2 = isite)
                            /\ strictly_same_sign v1 v2)).
    { subst s1. destruct (no_anion_cation v1 v2) eqn:Hsign.
      - apply no_anion_cation_iff in Hsign.
        rewrite keys_append_neighbor, in_app_iff.
        destruct ((n1 =? isite)%Z || (n2 =? isite)%Z) eqn:Htouch.
        + apply orb_true_iff in Htouch. rewrite !Z.eqb_eq in Htouch.
          simpl. split.
          * intros [H | [H | []]]; [left; exact H | right; auto].
          * intros [H | (H & _)]; [left; exact H | right; left; auto].
        + apply orb_false_iff in Htouch. rewrite !Z.eqb_neq in Htouch.
          simpl. split.
          * intros [H | []]. left. exact H.
          * intros [H | (_ & [H | H] & _)]; [left; exact H | | ];
              exfalso; tauto.
      - split; [auto|]. intros [H | (_ & _ & H)]; [exact H|].
        apply no_anion_cation_iff in H. congruence. }
    rewrite Hkeys. split.
    + intros [[H | (-> & Htouch & Hsign)] | (icohp & a1 & a2 & w1 & w2 & Hin & H)].
      * left. exact H.
      * right. exists icohp0, n1, n2, v1, v2. auto.
      * right. exists icohp, a1, a2, w1, w2. tauto.
    + intros [H | (icohp & a1 & a2 & w1 & w2 & [Hhead | Hin] & Hend' & Htouch & Hsign)].
      * left. left. exact H.
      * injection Hhead as -> ->. rewrite Hend in Hend'.
        injection Hend' as -> -> -> ->. left. right. auto.
      * right. exists icohp, a1, a2, w1, w2. auto.
Qed.

(** What [collect_icohps] keeps. *)
Lemma collect_icohps_In (test : IcohpValue -> result bool)
    (values : list IcohpValue) :
  forall acc list_icohps,
    for_each (fun list_icohps value =>
                keep <- test value ;;
                Ok (if keep then list_icohps ++ [summed_icohp value]
                    else list_icohps)) values acc = Ok list_icohps ->
    forall x,
      In x list_icohps
      <-> In x acc
          \/ exists value, In value values /\ test value = Ok true
                           /\ summed_icohp value = x.
Proof.
  induction values as [|value rest IH]; simpl; intros acc list_icohps Hrun x.
  - injection Hrun as <-. split; [auto|]. intros [H | (? & [] & _)]. exact H.
  - apply bind_Ok in Hrun. destruct Hrun as (acc1 & Hstep & Hrest).
    apply bind_Ok in Hstep. destruct Hstep as (keep & Htest & Hacc1).
    injection Hacc1 as <-.
    rewrite (IH _ _ Hrest x). clear IH Hrest.
    destruct keep.
    + rewrite in_app_iff. simpl. split.
      * intros [[H | [H | []]] | (v & Hin & Hv)].
        -- left. exact H.
        -- right. exists value. simpl. auto.
        -- right. exists v. simpl. tauto.
      * intros [H | (v & [<- | Hin] & Hv)].
        -- left. left. exact H.
        -- left. right. left. tauto.
        -- right. exists v. simpl. tauto.
    + split.
      * intros [H | (v & Hin & Hv)]; [left; exact H | right; exists v; simpl; tauto].
      * intros [H | (v & [<- | Hin] & Hv & Hx)].
        -- left. exact H.
        -- congruence.
        -- right. exists v. simpl. tauto.
Qed.

(** C4 (as the code has it).  Under condition 5 a bond record read from
    the dict of a site is selected exactly when it touches the site and
    the valences of its two endpoints are both strictly positive or both
    strictly negative; the records kept for the adapted extremum obey the
    same test; a record with an endpoint of valence exactly 0 is never
    selected. *)
Theorem no_anion_cation_selects_strict_signs (self : Setup) :
  (forall isite icohps sel,
     _find_relevant_atoms_additional_condition (valences self) isite icohps
       DO_NOT_CONSIDER_ANION_CATION_BONDS = Ok sel ->
     forall key,
       In key (keys_from_ICOHPs sel)
       <-> exists icohp atomnr1 atomnr2 val1 val2,
             In (key, icohp) icohps
             /\ endpoints (valences self) icohp
                = Some (atomnr1, atomnr2, val1, val2)
             /\ (atomnr1 = isite \/ atomnr2 = isite)
             /\ strictly_same_sign val1 val2)
  /\ (forall icohpcollection list_icohps,
        adaptation_subset self icohpcollection
          DO_NOT_CONSIDER_ANION_CATION_BONDS = Ok list_icohps ->
        forall x,
          In x list_icohps
          <-> exists value atomnr1 atomnr2 val1 val2,
                In value (map snd (_icohplist icohpcollection))
                /\ endpoints (valences self) value
                   = Some (atomnr1, atomnr2, val1, val2)
                /\ strictly_same_sign val1 val2
                /\ summed_icohp value = x)
  /\ (forall val1 val2,
        val1 == 0 \/ val2 == 0 -> ~ strictly_same_sign val1 val2).
Proof.
  split; [|split].
  - intros isite icohps sel Hrun key.
    unfold _find_relevant_atoms_additional_condition in Hrun.
    rewrite (relevant_atoms_5_keys _ _ _ _ Hrun key). simpl.
    split; [intros [[] | H]; exact H | intro H; right; exact H].
  - intros icohpcollection list_icohps Hrun x.
    unfold adaptation_subset, collect_icohps in Hrun.
    rewrite (collect_icohps_In _ _ _ Hrun x). simpl.
    split.
    + intros [[] | (value & Hin & Htest & Hx)].
      apply bind_Ok in Htest. destruct Htest as (n1 & H1 & Htest).
      apply bind_Ok in Htest. destruct Htest as (n2 & H2 & Htest).
      apply bind_Ok in Htest. destruct Htest as ([v1 v2] & Hv & Htest).
      apply endpoint_valences_Ok in Hv. destruct Hv as [Hv1 Hv2].
      injection Htest as Hsign. apply no_anion_cation_iff in Hsign.
      exists value, n1, n2, v1, v2. unfold endpoints.
      rewrite H1, H2, Hv1, Hv2. auto.
    + intros (value & n1 & n2 & v1 & v2 & Hin & Hend & Hsign & Hx).
      right. exists value. split; [exact Hin|]. split; [|exact Hx].
      unfold endpoints in Hend.
      destruct (_get_atomnumber (_atom1 value)) as [a1|]; [|discriminate].
      destruct (_get_atomnumber (_atom2 value)) as [a2|]; [|discriminate].
      simpl. unfold endpoint_valences.
      destruct (valence_at (valences self) a1) as [w1|]; [|discriminate].
      destruct (valence_at (valences self) a2) as [w2|]; [|discriminate].
      injection Hend as -> -> -> ->. simpl.
      apply no_anion_cation_iff in Hsign. rewrite Hsign. reflexivity.
  - exact zero_valence_not_strict.
Qed.

(** C4 as the specification words it fails: with valences 0 for Na1 and 1
    for Cl2 both endpoints of bond "1" have a valence >= 0, yet the
    record is not selected for site 0 under condition 5. *)
Lemma no_anion_cation_drops_zero_valence :
  let valences := Some [0; 1] in
  let icohps := [("1"%string, Example.bond 3)] in
  share_valence_sign 0 1
  /\ endpoints valences (Example.bond 3) = Some (0%Z, 1%Z, 0, 1)
  /\ exists sel,
       _find_relevant_atoms_additional_condition valences 0 icohps
         DO_NOT_CONSIDER_ANION_CATION_BONDS = Ok sel
       /\ ~ In "1"%string (keys_from_ICOHPs sel).
Proof.
  split; [|split].
  - left. split; discriminate.
  - reflexivity.
  - exists no_selection. split; [reflexivity|]. simpl. tauto.
Qed.

(* ================================================================= *)
(** ** The stable sort *)

Section SortedFacts.

Variable A : Type.
Variable key : A -> Q.

Let le_key (a b : A) : Prop := key a <= key b.

Lemma insert_by_key_perm (x : A) (l : list A) :
  Permutation (x :: l) (insert_by_key key x l).
Proof.
  induction l as [|y rest IH]; simpl.
  - apply Permutation_refl.
  - destruct (Qle_bool (key x) (key y)).
    + apply Permutation_refl.
    + apply perm_trans with (y :: x :: rest).
      * apply perm_swap.
      * apply perm_skip. exact IH.
Qed.

Lemma sorted_perm (l : list A) : Permutation l (sorted key l).
Proof.
  induction l as [|x rest IH]; simpl.
  - apply perm_nil.
  - apply perm_trans with (x :: sorted key rest).
    + apply perm_skip. exact IH.
    + apply insert_by_key_perm.
Qed.

Lemma insert_by_key_ascending (x : A) (l : list A) :
  StronglySorted le_key l -> StronglySorted le_key (insert_by_key key x l).
Proof.
  induction l as [|y rest IH]; simpl; intro Hsorted.
  - constructor; constructor.
  - inversion Hsorted as [|? ? Hrest Hall]; subst.
    destruct (Qle_bool (key x) (key y)) eqn:Hle.
    + apply Qle_bool_iff in Hle. constructor; [exact Hsorted|].
      constructor; [exact Hle|].
      eapply Forall_impl; [|exact Hall].
      intros z Hz. unfold le_key in *. eapply Qle_trans; eassumption.
    + apply Qle_bool_false_iff in Hle. constructor; [apply IH; exact Hrest|].
      apply (Permutation_Forall (insert_by_key_perm x rest)).
      constructor; [|exact Hall].
      unfold le_key. apply Qlt_le_weak. exact Hle.
Qed.

Lemma sorted_ascending (l : list A) : StronglySorted le_key (sorted key l).
Proof.
  induction l as [|x rest IH]; simpl.
  - constructor.
  - apply insert_by_key_ascending. exact IH.
Qed.

(** Entries with one key keep the order they had. *)
Lemma insert_by_key_stable (d : Q) (x : A) (l : list A) :
  filter (fun a => Qeq_bool (key a) d) (insert_by_key key x l)
  = filter (fun a => Qeq_bool (key a) d) (x :: l).
Proof.
  induction l as [|y rest IH].
  - reflexivity.
  - simpl insert_by_key. destruct (Qle_bool (key x) (key y)) eqn:Hle.
    + reflexivity.
    + apply Qle_bool_false_iff in Hle.
      simpl. simpl in IH. rewrite IH.
      destruct (Qeq_bool (key y) d) eqn:Hy; destruct (Qeq_bool (key x) d) eqn:Hx;
        try reflexivity.
      apply Qeq_bool_iff in Hy. apply Qeq_bool_iff in Hx.
      exfalso. rewrite Hx, Hy in Hle. exact (Qlt_irrefl d Hle).
Qed.

Lemma sorted_stable (d : Q) (l : list A) :
  filter (fun a => Qeq_bool (key a) d) (sorted key l)
  = filter (fun a => Qeq_bool (key a) d) l.
Proof.
  induction l as [|x rest IH].
  - reflexivity.
  - simpl sorted. rewrite insert_by_key_stable. simpl. rewrite IH. reflexivity.
Qed.

End SortedFacts.

(* ================================================================= *)
(** ** NeighborResolver *)

Lemma isclose_iff (rtol atol a b : Q) :
  isclose rtol atol a b = true <-> Qabs (a - b) <= atol + rtol * Qabs b.
Proof. unfold isclose. apply Qle_bool_iff. Qed.

Lemma pool_entry_matches_iff (distance : Q) (index : Z) (dist : Q)
    (neighbor : Z) :
  pool_entry_matches distance index dist neighbor = true
  <-> neighbor = index /\ length_matches dist distance.
Proof.
  unfold pool_entry_matches, length_matches.
  rewrite andb_true_iff, isclose_iff, Z.eqb_eq. unfold default_atol. tauto.
Qed.

Lemma find_in_pool_from (distance : Q) (index : Z) (dists : list Q) :
  forall neighs k,
    find_in_pool distance index dists neighs k
    = option_map (fun i => (k + i)%nat)
                 (find_in_pool distance index dists neighs 0).
Proof.
  induction dists as [|dist rest IH]; intros [|neighbor neighs] k; simpl;
    try reflexivity.
  destruct (pool_entry_matches distance index dist neighbor).
  - simpl. f_equal. lia.
  - rewrite (IH neighs (S k)), (IH neighs 1%nat).
    destruct (find_in_pool distance index rest neighs 0); simpl; [|reflexivity].
    f_equal. lia.
Qed.

Lemma matches_at_head (distance : Q) (index : Z) (dist : Q) (dists : list Q)
    (neighbor : Z) (neighs : list Z) :
  matches_at distance index (dist :: dists) (neighbor :: neighs) 0
  <-> pool_entry_matches distance index dist neighbor = true.
Proof.
  rewrite pool_entry_matches_iff. unfold matches_at. simpl. split.
  - intros (d & n & Hd & Hn & Heq & Hclose).
    injection Hd as <-. injection Hn as <-. auto.
  - intros [Heq Hclose]. exists dist, neighbor. auto.
Qed.

Lemma matches_at_tail (distance : Q) (index : Z) (dist : Q) (dists : list Q)
    (neighbor : Z) (neighs : list Z) (i : nat) :
  matches_at distance index (dist :: dists) (neighbor :: neighs) (S i)
  <-> matches_at distance index dists neighs i.
Proof. reflexivity. Qed.

(** The scan of the pool returns the first matching position. *)
Lemma find_in_pool_first (distance : Q) (index : Z) (dists : list Q) :
  forall neighs i,
    find_in_pool distance index dists neighs 0 = Some i
    <-> first_match distance index dists neighs i.
Proof.
  induction dists as [|dist rest IH]; intros neighs i.
  - simpl. split; [discriminate|].
    intros [(d & n & Hd & _) _]. destruct i; discriminate.
  - destruct neighs as [|neighbor neighs].
    + simpl. split; [discriminate|].
      intros [(d & n & _ & Hn & _) _]. destruct i; discriminate.
    + simpl. destruct (pool_entry_matches distance index dist neighbor) eqn:Hm.
      * split.
        -- intro H. injection H as <-. split.
           ++ apply matches_at_head. exact Hm.
           ++ intros j Hj. lia.
        -- intros [_ Hfirst]. destruct i as [|i]; [reflexivity|].
           exfalso. apply (Hfirst 0%nat); [lia|].
           apply matches_at_head. exact Hm.
      * rewrite find_in_pool_from.
        destruct i as [|i].
        -- split.
           ++ destruct (find_in_pool distance index rest neighs 0); discriminate.
           ++ intros [H0 _]. apply matches_at_head in H0. congruence.
        -- specialize (IH neighs i). split.
           ++ intro H.
              destruct (find_in_pool distance index rest neighs 0) as [i'|];
                [|discriminate].
              simpl in H. injection H as <-.
              destruct (proj1 IH eq_refl) as [Hat Hfirst]. split.
              ** apply matches_at_tail. exact Hat.
              ** intros [|j] Hj Hmatch.
                 --- apply matches_at_head in Hmatch. congruence.
                 --- apply matches_at_tail in Hmatch.
                     apply (Hfirst j); [lia | exact Hmatch].
           ++ intros [Hat Hfirst].
              assert (Hi : first_match distance index rest neighs i).
              { split.
                - apply matches_at_tail in Hat. exact Hat.
                - intros j Hj Hmatch. apply (Hfirst (S j)); [lia|].
                  apply matches_at_tail. exact Hmatch. }
              apply IH in Hi. rewrite Hi. reflexivity.
Qed.

Lemma find_in_pool_none (distance : Q) (index : Z) (dists : list Q) :
  forall neighs,
    find_in_pool distance index dists neighs 0 = None
    <-> forall i, ~ matches_at distance index dists neighs i.
Proof.
  induction dists as [|dist rest IH]; intros neighs.
  - simpl. split; [|reflexivity].
    intros _ i (d & n & Hd & _). destruct i; discriminate.
  - destruct neighs as [|neighbor neighs].
    + simpl. split; [|reflexivity].
      intros _ i (d & n & _ & Hn & _). destruct i; discriminate.
    + simpl. destruct (pool_entry_matches distance index dist neighbor) eqn:Hm.
      * split; [discriminate|]. intro Hnone. exfalso.
        apply (Hnone 0%nat). apply matches_at_head. exact Hm.
      * rewrite find_in_pool_from. specialize (IH neighs). split.
        -- intros H [|i] Hmatch.
           ++ apply matches_at_head in Hmatch. congruence.
           ++ destruct (find_in_pool distance index rest neighs 0);
                [discriminate|].
              apply (proj1 IH eq_refl i). apply matches_at_tail in Hmatch.
              exact Hmatch.
        -- intro Hnone.
           assert (Hrest : find_in_pool distance index rest neighs 0 = None).
           { apply IH. intros i Hmatch. apply (Hnone (S i)).
             apply matches_at_tail. exact Hmatch. }
           rewrite Hrest. reflexivity.
Qed.

(** The four lists of the filter grow together. *)
Lemma selected_parallel (valences : option (list Q)) (isite : Z)
    (icohps : list (string * IcohpValue)) (additional_condition : condition)
    (sel : Selected) :
  _find_relevant_atoms_additional_condition valences isite icohps
                                            additional_condition = Ok sel ->
  List.length (lengths_from_ICOHPs sel) = List.length (keys_from_ICOHPs sel)
  /\ List.length (neighbors_from_ICOHPs sel) = List.length (keys_from_ICOHPs sel)
  /\ List.length (icohps_from_ICOHPs sel) = List.length (keys_from_ICOHPs sel).
Proof.
  unfold _find_relevant_atoms_additional_condition.
  apply (for_each_invariant
           (fun s => List.length (lengths_from_ICOHPs s)
                     = List.length (keys_from_ICOHPs s)
                     /\ List.length (neighbors_from_ICOHPs s)
                        = List.length (keys_from_ICOHPs s)
                     /\ List.length (icohps_from_ICOHPs s)
                        = List.length (keys_from_ICOHPs s))).
  - intros s [key icohp] s' _ (H1 & H2 & H3) Hstep.
    unfold relevant_atoms_step in Hstep.
    apply bind_Ok in Hstep. destruct Hstep as (n1 & _ & Hstep).
    apply bind_Ok in Hstep. destruct Hstep as (n2 & _ & Hstep).
    apply bind_Ok in Hstep. destruct Hstep as (selected & _ & Hstep).
    injection Hstep as <-.
    destruct selected; [|auto].
    unfold append_neighbor.
    destruct (n1 =? isite)%Z; [|destruct (n2 =? isite)%Z]; simpl;
      rewrite ?length_app; simpl; auto; lia.
  - simpl. auto.
Qed.

(** The step of the loop over the sites, for a site with candidates. *)
Lemma find_environments_step_candidates (C : Collaborators) (self : Setup)
    (additional_condition : condition) (lowerlimit upperlimit : limit)
    (only_bonds_to : option (list string)) (env : Environments) (idx : Z)
    (site : PeriodicSite) (icohps : list (string * IcohpValue)) (sel : Selected) :
  _get_icohps C (Icohpcollection self) idx (Some lowerlimit) (Some upperlimit)
              only_bonds_to = Ok icohps ->
  _find_relevant_atoms_additional_condition (valences self) idx icohps
                                            additional_condition = Ok sel ->
  neighbors_from_ICOHPs sel <> [] ->
  exists longest,
    py_max (lengths_from_ICOHPs sel) = Ok longest
    /\ find_environments_step C self additional_condition lowerlimit upperlimit
                              only_bonds_to env (idx, site)
       = (start <- get_sites_in_sphere C (structure self) (coords site)
                                       (longest + (1 # 2)) ;;
          let r := resolve C start (neighbors_from_ICOHPs sel)
                           (lengths_from_ICOHPs sel) in
          Ok {| list_icohps := list_icohps env ++ [icohps_from_ICOHPs sel];
                list_keys := list_keys env ++ [keys_from_ICOHPs sel];
                list_lengths := list_lengths env ++ [lengths_from_ICOHPs sel];
                list_neighisite := list_neighisite env ++ [_list_neighisite r];
                list_neighsite := list_neighsite env ++ [_list_neighsite r];
                list_coords := list_coords env ++ [_neigh_coords r] |}).
Proof.
  intros Hicohps Hsel Hnonempty.
  destruct (selected_parallel _ _ _ _ Hsel) as (Hlen & Hneigh & _).
  destruct (lengths_from_ICOHPs sel) as [|first others] eqn:Hlengths.
  { exfalso. apply Hnonempty.
    destruct (neighbors_from_ICOHPs sel); [reflexivity|].
    simpl in *. lia. }
  exists (fold_left py_max2 others first). split; [reflexivity|].
  unfold find_environments_step. rewrite Hicohps. simpl. rewrite Hsel. simpl.
  assert (Hpos : (0 <? len (neighbors_from_ICOHPs sel))%Z = true).
  { apply Z.ltb_lt. unfold len.
    destruct (neighbors_from_ICOHPs sel); [congruence|]. simpl. lia. }
  rewrite Hpos, Hlengths. reflexivity.
Qed.

(** [del l[i]] takes away the entry at position [i] and nothing else. *)
Lemma delete_at_firstn_skipn {A : Type} (l : list A) :
  forall i, delete_at i l = firstn i l ++ skipn (S i) l.
Proof.
  induction l as [|x rest IH]; intros [|i]; simpl; try reflexivity.
  rewrite IH. reflexivity.
Qed.

(** C1.  For a site with candidates the search results are walked in
    ascending order of distance (a sorted rearrangement of what the search
    returned).  Each result is bound to the first candidate still in the
    pool whose neighbour index is the index of the result and whose
    stored length passes [np.isclose(length, distance, rtol=1e-4)]; that
    candidate, and no other, leaves the pool: the candidates before it
    and after it stay, in their order.  A result without such a candidate
    changes nothing.  A candidate of length 3.00 is bound to an image at
    3.00015 and not to one at 3.01; in the second case the walk ends with
    the candidate left in the pool and no neighbour recorded, and the
    constructor returns without an exception.  Of three candidates of
    lengths 3.2, 3.00 and 3.0002 the image at 3.00015 takes the second,
    which is the first that matches, and leaves the other two; two
    images of one atom take one candidate each, the nearer image first,
    and a second image finds nothing when there is one candidate only. *)
Theorem resolver_binds_first_match (C : Collaborators) :
  (* the walk *)
  (forall start neighbors lengths,
     resolve C start neighbors lengths
     = fold_left (resolve_step C) (sorted nn_distance start)
                 (start_resolution neighbors lengths)
     /\ Permutation start (sorted nn_distance start)
     /\ ascending (sorted nn_distance start))
  (* a result with a candidate *)
  /\ (forall r neigh_new idist,
        first_match (nn_distance neigh_new) (nn_index neigh_new)
                    (copied_distances_from_ICOHPs r)
                    (copied_neighbors_from_ICOHPs r) idist ->
        resolve_step C r neigh_new
        = {| _list_neighsite := _list_neighsite r ++ [nn_site neigh_new];
             _list_neighisite := _list_neighisite r ++ [nn_index neigh_new];
             _neigh_coords := _neigh_coords r ++ [image_coords C neigh_new];
             _neigh_frac_coords :=
               _neigh_frac_coords r ++ [frac_coords (nn_site neigh_new)];
             copied_neighbors_from_ICOHPs :=
               firstn idist (copied_neighbors_from_ICOHPs r)
               ++ skipn (S idist) (copied_neighbors_from_ICOHPs r);
             copied_distances_from_ICOHPs :=
               firstn idist (copied_distances_from_ICOHPs r)
               ++ skipn (S idist) (copied_distances_from_ICOHPs r) |})
  (* a result without a candidate *)
  /\ (forall r neigh_new,
        (forall i, ~ matches_at (nn_distance neigh_new) (nn_index neigh_new)
                                (copied_distances_from_ICOHPs r)
                                (copied_neighbors_from_ICOHPs r) i) ->
        resolve_step C r neigh_new = r)
  (* the walk is what the loop over the sites runs *)
  /\ (forall self additional_condition lowerlimit upperlimit only_bonds_to env
             idx site icohps sel,
        _get_icohps C (Icohpcollection self) idx (Some lowerlimit)
                    (Some upperlimit) only_bonds_to = Ok icohps ->
        _find_relevant_atoms_additional_condition (valences self) idx icohps
          additional_condition = Ok sel ->
        neighbors_from_ICOHPs sel <> [] ->
        exists longest,
          py_max (lengths_from_ICOHPs sel) = Ok longest
          /\ forall start,
               get_sites_in_sphere C (structure self) (coords site)
                                   (longest + (1 # 2)) = Ok start ->
               exists env',
                 find_environments_step C self additional_condition lowerlimit
                   upperlimit only_bonds_to env (idx, site) = Ok env'
                 /\ list_neighsite env'
                    = list_neighsite env
                      ++ [_list_neighsite
                            (resolve C start (neighbors_from_ICOHPs sel)
                                     (lengths_from_ICOHPs sel))]
                 /\ list_neighisite env'
                    = list_neighisite env
                      ++ [_list_neighisite
                            (resolve C start (neighbors_from_ICOHPs sel)
                                     (lengths_from_ICOHPs sel))])
  (* length 3.00 against 3.00015 and against 3.01 *)
  /\ length_matches 3 (300015 # 100000)
  /\ ~ length_matches 3 (301 # 100)
  /\ (let found distance :=
        Example.search distance (Example.nacl distance) (0, 0, 0) in
      _list_neighisite (resolve C (found (300015 # 100000)) [1%Z] [3]) = [1%Z]
      /\ copied_neighbors_from_ICOHPs
           (resolve C (found (300015 # 100000)) [1%Z] [3]) = []
      /\ resolve C (found (301 # 100)) [1%Z] [3] = start_resolution [1%Z] [3])
  (* a pool of several candidates: the first that matches is taken *)
  /\ (let found :=
        Example.search (300015 # 100000) (Example.nacl (300015 # 100000))
                       (0, 0, 0) in
      let r := resolve C found [1; 1; 1]%Z [32 # 10; 3; 30002 # 10000] in
      _list_neighisite r = [1%Z]
      /\ copied_neighbors_from_ICOHPs r = [1; 1]%Z
      /\ copied_distances_from_ICOHPs r = [32 # 10; 30002 # 10000])
  (* two images of one atom *)
  /\ (let near := {| nn_site := Example.site_at "Cl" 3; nn_distance := 3;
                     nn_index := 1; nn_image := (0, 0, 0)%Z |} in
      let far := {| nn_site := Example.site_at "Cl" (- (3));
                    nn_distance := 30001 # 10000;
                    nn_index := 1; nn_image := (- (1), 0, 0)%Z |} in
      let two := resolve C [far; near] [1; 1]%Z [3; 3] in
      let one := resolve C [far; near] [1%Z] [3] in
      _list_neighsite two = [nn_site near; nn_site far]
      /\ copied_neighbors_from_ICOHPs two = []
      /\ _list_neighsite one = [nn_site near]
      /\ copied_neighbors_from_ICOHPs one = [])
  (* the same through the constructor *)
  /\ (let built distance :=
        __init__ (Example.world distance)
                 (Example.arguments 3 distance 0 (Some [1; - (1)]) false) in
      (exists self ce,
         built (300015 # 100000) = Ok (self, ce)
         /\ list_neighisite (environments ce) = [[1%Z]; [0%Z]])
      /\ (exists self ce,
            built (301 # 100) = Ok (self, ce)
            /\ list_neighisite (environments ce) = [[]; []])).
Proof.
  split; [|split; [|split; [|split; [|split; [|split; [|split; [|split; [|split]]]]]]]].
  - intros start neighbors lengths. split; [reflexivity|]. split.
    + apply sorted_perm.
    + apply sorted_ascending.
  - intros r neigh_new idist Hfirst. unfold resolve_step.
    apply find_in_pool_first in Hfirst. rewrite Hfirst.
    rewrite !delete_at_firstn_skipn. reflexivity.
  - intros r neigh_new Hnone. unfold resolve_step.
    apply find_in_pool_none in Hnone. rewrite Hnone. reflexivity.
  - intros self additional_condition lowerlimit upperlimit only_bonds_to env
           idx site icohps sel Hicohps Hsel Hnonempty.
    destruct (@find_environments_step_candidates C self additional_condition
                lowerlimit upperlimit only_bonds_to env idx site icohps sel
                Hicohps Hsel Hnonempty) as (longest & Hmax & Hstep).
    exists longest. split; [exact Hmax|].
    intros start Hstart. rewrite Hstep, Hstart. simpl.
    eexists. split; [reflexivity|]. split; reflexivity.
  - unfold length_matches. apply Qle_bool_iff. vm_compute. reflexivity.
  - unfold length_matches. intro H. apply Qle_bool_iff in H.
    vm_compute in H. discriminate.
  - repeat split; reflexivity.
  - repeat split; reflexivity.
  - repeat split; reflexivity.
  - split; do 2 eexists; (split; [vm_compute; reflexivity | reflexivity]).
Qed.

Lemma fold_left_invariant {A S : Type} (P : S -> Prop) (f : S -> A -> S)
    (l : list A) :
  (forall s x, In x l -> P s -> P (f s x)) ->
  forall s, P s -> P (fold_left f l s).
Proof.
  induction l as [|x rest IH]; simpl; intros Hstep s Hs.
  - exact Hs.
  - apply IH.
    + intros s0 y Hy. apply Hstep. right. exact Hy.
    + apply Hstep; [left; reflexivity | exact Hs].
Qed.

Lemma delete_at_length {A : Type} (l : list A) :
  forall i, (i < List.length l)%nat ->
            S (List.length (delete_at i l)) = List.length l.
Proof.
  induction l as [|x rest IH]; simpl; intros i Hi.
  - lia.
  - destruct i as [|i]; [reflexivity|]. simpl. rewrite IH; [reflexivity|lia].
Qed.

Lemma combine_delete_at_incl {A B : Type} (a : list A) :
  forall (b : list B) i x,
    In x (combine (delete_at i a) (delete_at i b)) -> In x (combine a b).
Proof.
  induction a as [|u a IH]; intros [|v b] i x; simpl; try tauto.
  - rewrite combine_nil. simpl. tauto.
  - destruct i as [|i]; simpl.
    + auto.
    + intros [H | H]; [left; exact H | right; apply (IH b i x H)].
Qed.

Lemma nth_error_combine_In {A B : Type} (a : list A) :
  forall (b : list B) i x y,
    nth_error a i = Some x -> nth_error b i = Some y -> In (x, y) (combine a b).
Proof.
  induction a as [|u a IH]; intros [|v b] [|i] x y Ha Hb; simpl in *;
    try discriminate.
  - injection Ha as ->. injection Hb as ->. left. reflexivity.
  - right. apply (IH b i x y Ha Hb).
Qed.

Lemma resolve_step_invariant (C : Collaborators) (start : list PeriodicNeighbor)
    (neighbors : list Z) (lengths : list Q) (r : Resolution)
    (neigh_new : PeriodicNeighbor) :
  In neigh_new start ->
  resolution_invariant start neighbors lengths r ->
  resolution_invariant start neighbors lengths (resolve_step C r neigh_new).
Proof.
  intros Hin (Hisite & Hcoords & Hcount & Hpool & Hbound).
  unfold resolve_step.
  destruct (find_in_pool (nn_distance neigh_new) (nn_index neigh_new)
              (copied_distances_from_ICOHPs r)
              (copied_neighbors_from_ICOHPs r) 0) as [idist|] eqn:Hfind.
  2:{ repeat split; assumption. }
  apply find_in_pool_first in Hfind.
  destruct Hfind as [(dist & neighbor & Hd & Hn & Heq & Hclose) _].
  assert (Hi : (idist < List.length (copied_neighbors_from_ICOHPs r))%nat).
  { apply nth_error_Some. congruence. }
  unfold resolution_invariant. simpl. rewrite !length_app. simpl.
  repeat split.
  - lia.
  - lia.
  - pose proof (delete_at_length (copied_neighbors_from_ICOHPs r) Hi). lia.
  - intros x Hx. apply Hpool. apply (combine_delete_at_incl _ _ _ _ Hx).
  - apply Forall2_app; [exact Hbound|]. constructor; [|constructor].
    exists neigh_new, dist. repeat split; try assumption; try reflexivity.
    apply Hpool. subst neighbor. apply (nth_error_combine_In _ _ _ Hn Hd).
Qed.

Lemma resolve_invariant (C : Collaborators) (start : list PeriodicNeighbor)
    (neighbors : list Z) (lengths : list Q) :
  resolution_invariant start neighbors lengths
                       (resolve C start neighbors lengths).
Proof.
  unfold resolve. apply fold_left_invariant.
  - intros s x Hx. apply resolve_step_invariant.
    apply (Permutation_in x (Permutation_sym (sorted_perm nn_distance start))).
    exact Hx.
  - unfold resolution_invariant, start_resolution. simpl.
    repeat split; auto.
Qed.

(** What one turn of the loop over the sites appends. *)
Lemma find_environments_step_shape (C : Collaborators) (self : Setup)
    (additional_condition : condition) (lowerlimit upperlimit : limit)
    (only_bonds_to : option (list string)) (env env' : Environments)
    (entry : Z * PeriodicSite) :
  find_environments_step C self additional_condition lowerlimit upperlimit
                         only_bonds_to env entry = Ok env' ->
  exists keys neighsite neighisite site_coords,
    list_keys env' = list_keys env ++ [keys]
    /\ list_neighsite env' = list_neighsite env ++ [neighsite]
    /\ list_neighisite env' = list_neighisite env ++ [neighisite]
    /\ list_coords env' = list_coords env ++ [site_coords]
    /\ (List.length neighsite <= List.length keys)%nat
    /\ List.length neighsite = List.length neighisite
    /\ List.length neighsite = List.length site_coords.
Proof.
  destruct entry as [idx site]. unfold find_environments_step. intro H.
  apply bind_Ok in H. destruct H as (icohps & _ & H).
  apply bind_Ok in H. destruct H as (sel & Hsel & H).
  destruct (0 <? len (neighbors_from_ICOHPs sel))%Z.
  - apply bind_Ok in H. destruct H as (longest & _ & H).
    apply bind_Ok in H. destruct H as (start & _ & H).
    injection H as <-. simpl.
    destruct (resolve_invariant C start (neighbors_from_ICOHPs sel)
                                (lengths_from_ICOHPs sel))
      as (Hisite & Hcoords & Hcount & _).
    destruct (selected_parallel _ _ _ _ Hsel) as (_ & Hneigh & _).
    do 4 eexists. repeat split; try reflexivity; lia.
  - injection H as <-. simpl.
    exists [], [], [], []. repeat split; simpl; lia.
Qed.

Lemma find_environments_shape (C : Collaborators) (self : Setup)
    (additional_condition : condition) (lowerlimit upperlimit : limit)
    (only_bonds_to : option (list string)) (sites : list (Z * PeriodicSite)) :
  forall env env',
    for_each (find_environments_step C self additional_condition lowerlimit
                upperlimit only_bonds_to) sites env = Ok env' ->
    exists keys neighsite neighisite site_coords,
      list_keys env' = list_keys env ++ keys
      /\ list_neighsite env' = list_neighsite env ++ neighsite
      /\ list_neighisite env' = list_neighisite env ++ neighisite
      /\ list_coords env' = list_coords env ++ site_coords
      /\ List.length neighsite = List.length sites
      /\ Forall2 (fun sites keys => (List.length sites <= List.length keys)%nat)
                 neighsite keys
      /\ Forall2 (fun sites isites => List.length sites = List.length isites)
                 neighsite neighisite
      /\ Forall2 (fun sites cs => List.length sites = List.length cs)
                 neighsite site_coords.
Proof.
  induction sites as [|entry rest IH]; simpl; intros env env' Hrun.
  - injection Hrun as <-. exists [], [], [], [].
    rewrite !app_nil_r. repeat split; constructor.
  - apply bind_Ok in Hrun. destruct Hrun as (env1 & Hstep & Hrest).
    apply find_environments_step_shape in Hstep.
    destruct Hstep as (k & n & i & c & Hk & Hn & Hi & Hc & Hle & Hni & Hnc).
    destruct (IH env1 env' Hrest)
      as (ks & ns & ids & cs & Hks & Hns & His & Hcs & Hlen & F1 & F2 & F3).
    exists (k :: ks), (n :: ns), (i :: ids), (c :: cs).
    rewrite Hks, Hns, His, Hcs, Hk, Hn, Hi, Hc, <- !app_assoc. simpl.
    repeat split; try reflexivity; try (constructor; assumption).
    rewrite Hlen. reflexivity.
Qed.

Lemma enumerate_from_length {A : Type} (l : list A) :
  forall i, List.length (enumerate_from i l) = List.length l.
Proof.
  induction l as [|x rest IH]; simpl; intro i; [reflexivity|].
  rewrite IH. reflexivity.
Qed.

(** C2 (as the code has it).  For every site the resolved lists of
    neighbour sites, neighbour indices and coordinates have one length,
    which is at most the number of bond records selected for the site, and
    equal to it exactly when every candidate was bound; every resolved
    entry is a search result bound to a selected record with its neighbour
    index and a length passing [np.isclose(length, distance, rtol=1e-4)].
    A selected record without such a search result is left out. *)
Theorem resolved_set_within_selection (C : Collaborators) :
  (forall start neighbors lengths,
     let r := resolve C start neighbors lengths in
     List.length (_list_neighisite r) = List.length (_list_neighsite r)
     /\ List.length (_neigh_coords r) = List.length (_list_neighsite r)
     /\ (List.length (_list_neighsite r)
         + List.length (copied_neighbors_from_ICOHPs r)
         = List.length neighbors)%nat
     /\ (List.length (_list_neighsite r) <= List.length neighbors)%nat
     /\ (List.length (_list_neighsite r) = List.length neighbors
         <-> copied_neighbors_from_ICOHPs r = [])
     /\ Forall2 (bound_to_candidate start neighbors lengths)
                (_list_neighsite r) (_list_neighisite r))
  /\ (forall self additional_condition lowerlimit upperlimit only_bonds_to env,
        _find_environments C self additional_condition lowerlimit upperlimit
                           only_bonds_to = Ok env ->
        List.length (list_neighsite env) = List.length (structure self)
        /\ Forall2 (fun sites keys => (List.length sites <= List.length keys)%nat)
                   (list_neighsite env) (list_keys env)
        /\ Forall2 (fun sites isites => List.length sites = List.length isites)
                   (list_neighsite env) (list_neighisite env)
        /\ Forall2 (fun sites cs => List.length sites = List.length cs)
                   (list_neighsite env) (list_coords env)).
Proof.
  split.
  - intros start neighbors lengths r.
    destruct (resolve_invariant C start neighbors lengths)
      as (Hisite & Hcoords & Hcount & _ & Hbound).
    fold r in Hisite, Hcoords, Hcount, Hbound.
    repeat split; try assumption.
    + lia.
    + intro Hall. destruct (copied_neighbors_from_ICOHPs r); [reflexivity|].
      simpl in Hcount. lia.
    + intro Hempty. rewrite Hempty in Hcount. simpl in Hcount. lia.
  - intros self additional_condition lowerlimit upperlimit only_bonds_to env Hrun.
    unfold _find_environments in Hrun.
    apply find_environments_shape in Hrun.
    destruct Hrun as (ks & ns & ids & cs & Hks & Hns & His & Hcs & Hlen & F1 & F2 & F3).
    simpl in Hks, Hns, His, Hcs. rewrite Hks, Hns, His, Hcs.
    repeat split; try assumption.
    rewrite Hlen. apply enumerate_from_length.
Qed.

(** C2 as the specification words it fails: with the stored length 3.00
    and the only image of the neighbour at 3.01, each of the two sites has
    one selected bond record and no resolved neighbour. *)
Lemma unmatched_record_shortens_neighbor_set :
  exists self ce,
    __init__ (Example.world (301 # 100))
             (Example.arguments 3 (301 # 100) 0 (Some [1; - (1)]) false)
    = Ok (self, ce)
    /\ map (@List.length _) (list_keys (environments ce)) = [1; 1]%nat
    /\ map (@List.length _) (list_neighsite (environments ce)) = [0; 0]%nat.
Proof.
  do 2 eexists. split; [vm_compute; reflexivity|].
  split; reflexivity.
Qed.

(* ================================================================= *)
(** ** Determinism of the evaluation pass *)

Lemma fold_left_ext {A S : Type} (f g : S -> A -> S) (l : list A) :
  (forall s x, f s x = g s x) -> forall s, fold_left f l s = fold_left g l s.
Proof.
  intro Hext. induction l as [|x rest IH]; simpl; intro s.
  - reflexivity.
  - rewrite Hext. apply IH.
Qed.

Section Agreement.

Variables C1 C2 : Collaborators.
Hypothesis Hagree : agree C1 C2.

Lemma image_coords_agree (neigh_new : PeriodicNeighbor) :
  image_coords C1 neigh_new = image_coords C2 neigh_new.
Proof.
  destruct Hagree as (_ & _ & _ & _ & Hcell & Hcart & _).
  unfold image_coords. rewrite Hcell, Hcart. reflexivity.
Qed.

Lemma resolve_agree (start : list PeriodicNeighbor) (neighbors : list Z)
    (lengths : list Q) :
  resolve C1 start neighbors lengths = resolve C2 start neighbors lengths.
Proof.
  unfold resolve. apply fold_left_ext. intros r neigh_new.
  unfold resolve_step. rewrite image_coords_agree. reflexivity.
Qed.

Lemma find_environments_agree (self : Setup) (additional_condition : condition)
    (lowerlimit upperlimit : limit) (only_bonds_to : option (list string)) :
  _find_environments C1 self additional_condition lowerlimit upperlimit
                     only_bonds_to
  = _find_environments C2 self additional_condition lowerlimit upperlimit
                       only_bonds_to.
Proof.
  unfold _find_environments. apply for_each_ext.
  intros env [idx site] _. unfold find_environments_step, _get_icohps.
  destruct Hagree as (Hdict & _ & _ & Hsphere & _).
  rewrite Hdict.
  destruct (get_icohp_dict_of_site C2 (Icohpcollection self) idx 6
              (Some lowerlimit) (Some upperlimit) only_bonds_to)
    as [icohps|e]; simpl; [|reflexivity].
  destruct (_find_relevant_atoms_additional_condition (valences self) idx icohps
              additional_condition) as [sel|e]; simpl; [|reflexivity].
  destruct (0 <? len (neighbors_from_ICOHPs sel))%Z; [|reflexivity].
  destruct (py_max (lengths_from_ICOHPs sel)) as [longest|e]; simpl;
    [|reflexivity].
  rewrite Hsphere.
  destruct (get_sites_in_sphere C2 (structure self) (coords site)
              (longest + (1 # 2))) as [start|e]; simpl; [|reflexivity].
  rewrite resolve_agree. reflexivity.
Qed.

Lemma get_limit_from_extremum_agree (self : Setup)
    (icohpcollection : IcohpCollection) (percentage : Q) (adapt : bool)
    (additional_condition : condition) :
  _get_limit_from_extremum C1 self icohpcollection percentage adapt
                           additional_condition
  = _get_limit_from_extremum C2 self icohpcollection percentage adapt
                             additional_condition.
Proof.
  destruct Hagree as (_ & Hextremum & _).
  unfold _get_limit_from_extremum, extremum_based. rewrite Hextremum.
  reflexivity.
Qed.

Lemma periodic_image_index_agree (self : Setup) (neighbor : PeriodicSite) :
  periodic_image_index C1 self neighbor = periodic_image_index C2 self neighbor.
Proof.
  destruct Hagree as (_ & _ & _ & _ & _ & _ & Himage).
  unfold periodic_image_index. f_equal.
  induction (enumerate (structure self)) as [|entry rest IH]; simpl.
  - reflexivity.
  - rewrite Himage, IH. reflexivity.
Qed.

Lemma make_sg_list_agree (self : Setup) (env : Environments) :
  make_sg_list C1 self env = make_sg_list C2 self env.
Proof.
  destruct Hagree as (_ & _ & Hlabel & _).
  unfold make_sg_list. apply map_result_ext. intros [ineighbors neighbors] _.
  apply map_result_ext. intros [ineighbor neighbor] _.
  unfold graph_entry, graph_image.
  rewrite !periodic_image_index_agree.
  repeat (apply bind_cong; [reflexivity | intro]).
  apply bind_cong; [|reflexivity].
  destruct (add_additional_data_sg self); [|reflexivity].
  destruct (bonding_list_1 self) as [list_1|]; [|reflexivity].
  destruct (bonding_list_2 self) as [list_2|]; [|reflexivity].
  repeat (apply bind_cong; [reflexivity | intro]).
  rewrite Hlabel.
  repeat (apply bind_cong; [reflexivity | intro]).
  rewrite Hlabel. reflexivity.
Qed.

(** With collaborators that answer alike, two evaluation passes over the
    same attributes give the same result. *)
Lemma evaluate_ce_agree (self : Setup) (lowerlimit upperlimit : option limit)
    (only_bonds_to : option (list string)) (additional_condition : condition)
    (perc_strength_icohp : Q) (adapt : bool) :
  _evaluate_ce C1 self lowerlimit upperlimit only_bonds_to additional_condition
               perc_strength_icohp adapt
  = _evaluate_ce C2 self lowerlimit upperlimit only_bonds_to
                 additional_condition perc_strength_icohp adapt.
Proof.
  unfold _evaluate_ce. rewrite get_limit_from_extremum_agree.
  apply bind_cong; [reflexivity|]. intros [lower upper].
  rewrite find_environments_agree.
  apply bind_cong; [reflexivity|]. intro env.
  rewrite make_sg_list_agree. reflexivity.
Qed.

End Agreement.

(** The resolved neighbours are picked from the walk without reordering. *)
Lemma resolved_in_walk_order (C : Collaborators) (walk : list PeriodicNeighbor) :
  forall r,
    exists picked,
      subsequence picked (map nn_site walk)
      /\ _list_neighsite (fold_left (resolve_step C) walk r)
         = _list_neighsite r ++ picked.
Proof.
  induction walk as [|neigh_new rest IH]; simpl; intro r.
  - exists []. split; [constructor | symmetry; apply app_nil_r].
  - destruct (IH (resolve_step C r neigh_new)) as (picked & Hsub & Hlist).
    rewrite Hlist. clear Hlist. unfold resolve_step.
    destruct (find_in_pool (nn_distance neigh_new) (nn_index neigh_new)
                (copied_distances_from_ICOHPs r)
                (copied_neighbors_from_ICOHPs r) 0) as [idist|].
    + exists (nn_site neigh_new :: picked). split.
      * apply subsequence_keep. exact Hsub.
      * simpl. rewrite <- app_assoc. reflexivity.
    + exists picked. split; [apply subsequence_skip; exact Hsub | reflexivity].
Qed.

(** C9.  The evaluation pass is a function of the attributes of the
    object and of the answers of its collaborators: two passes that get
    the same answers return the same lists, entry for entry.  The order in
    which the search results are walked is their stable sort by distance:
    a rearrangement in ascending distance in which results at one distance
    keep the order of the search; the resolved neighbours of a site follow
    that order. *)
Theorem neighbor_resolution_deterministic :
  (forall C1 C2,
     agree C1 C2 ->
     forall self lowerlimit upperlimit only_bonds_to additional_condition
            perc_strength_icohp adapt,
       _evaluate_ce C1 self lowerlimit upperlimit only_bonds_to
                    additional_condition perc_strength_icohp adapt
       = _evaluate_ce C2 self lowerlimit upperlimit only_bonds_to
                      additional_condition perc_strength_icohp adapt)
  /\ (forall start,
        Permutation start (sorted nn_distance start)
        /\ ascending (sorted nn_distance start)
        /\ forall d,
             filter (fun n => Qeq_bool (nn_distance n) d) (sorted nn_distance start)
             = filter (fun n => Qeq_bool (nn_distance n) d) start)
  /\ (forall C start neighbors lengths,
        subsequence (_list_neighsite (resolve C start neighbors lengths))
                    (map nn_site (sorted nn_distance start))).
Proof.
  split; [|split].
  - intros C1 C2 Hagree self lowerlimit upperlimit only_bonds_to
           additional_condition perc_strength_icohp adapt.
    apply evaluate_ce_agree. exact Hagree.
  - intro start. split; [apply sorted_perm|]. split; [apply sorted_ascending|].
    intro d. apply sorted_stable.
  - intros C start neighbors lengths. unfold resolve.
    destruct (resolved_in_walk_order C (sorted nn_distance start)
                (start_resolution neighbors lengths)) as (picked & Hsub & Hlist).
    rewrite Hlist. simpl. exact Hsub.
Qed.

(* ================================================================= *)
(** ** Aggregation of bond strengths *)


(* ================================================================= *)
(** ** Aggregation of bond strengths *)

Lemma py_sum_app (l : list Q) (x : Q) : py_sum (l ++ [x]) = py_sum l + x.
Proof. unfold py_sum. rewrite fold_left_app. reflexivity. Qed.

Lemma len_app_one {A : Type} (l : list A) (x : A) :
  len (l ++ [x]) = (len l + 1)%Z.
Proof. unfold len. rewrite length_app. simpl. lia. Qed.

Lemma add_neighbor_bond_consistent (self : Setup) (ival : Z) (s s' : Sums)
    (bond : string * Q) :
  sums_consistent s ->
  add_neighbor_bond self ival s bond = Ok s' -> sums_consistent s'.
Proof.
  intros [Hsum Hcount] Hadd. destruct bond as [keys icohpsum].
  unfold add_neighbor_bond in Hadd.
  apply bind_Ok in Hadd. destruct Hadd as (pair & _ & Hadd).
  injection Hadd as <-. unfold sums_consistent. simpl.
  rewrite py_sum_app, len_app_one, Hsum, Hcount. split; reflexivity.
Qed.

Lemma add_pair_bond_consistent (self : Setup) (s s' : Sums) (icohp : IcohpValue) :
  sums_consistent s ->
  add_pair_bond self s icohp = Ok s' -> sums_consistent s'.
Proof.
  intros [Hsum Hcount] Hadd. unfold add_pair_bond in Hadd.
  apply bind_Ok in Hadd. destruct Hadd as (pair & _ & Hadd).
  injection Hadd as <-. unfold sums_consistent. simpl.
  rewrite py_sum_app, len_app_one, Hsum, Hcount. split; reflexivity.
Qed.

Lemma between_step_consistent (self : Setup) (index_n_site index_n_site2 : Z)
    (translation : vec3 Z) (state state' : Sums * bool) (icohp : IcohpValue) :
  sums_consistent (fst state) ->
  between_step self index_n_site index_n_site2 translation state icohp
    = Ok state' ->
  sums_consistent (fst state').
Proof.
  destruct state as [s done]. simpl. intros Hs Hstep.
  unfold between_step in Hstep.
  apply bind_Ok in Hstep. destruct Hstep as (atomnr1 & _ & Hstep).
  apply bind_Ok in Hstep. destruct Hstep as (atomnr2 & _ & Hstep).
  repeat match type of Hstep with
         | (if ?b then _ else _) = _ => destruct b
         end;
    try (injection Hstep as <-; exact Hs);
    apply bind_Ok in Hstep; destruct Hstep as (s1 & Hadd & Hstep);
    injection Hstep as <-; simpl;
    (eapply add_pair_bond_consistent; eassumption).
Qed.

Lemma between_pair_consistent (C : Collaborators) (self : Setup) (s s' : Sums)
    (pair : (Z * PeriodicSite) * (Z * PeriodicSite)) :
  sums_consistent s ->
  between_pair C self s pair = Ok s' -> sums_consistent s'.
Proof.
  destruct pair as [[in_site n_site] [in_site2 n_site2]].
  intros Hs Hpair. unfold between_pair in Hpair.
  destruct (in_site <? in_site2)%Z.
  2:{ injection Hpair as <-. exact Hs. }
  apply bind_Ok in Hpair. destruct Hpair as (index_n_site & _ & Hpair).
  apply bind_Ok in Hpair. destruct Hpair as (index_n_site2 & _ & Hpair).
  apply bind_Ok in Hpair. destruct Hpair as (icohps & _ & Hpair).
  apply bind_Ok in Hpair. destruct Hpair as (state & Hloop & Hpair).
  injection Hpair as <-.
  revert Hloop.
  apply (for_each_invariant (fun st : Sums * bool => sums_consistent (fst st))).
  - intros st icohp st' _ Hst Hstep.
    eapply between_step_consistent; eassumption.
  - exact Hs.
Qed.

(** C7.  In every result of the two aggregators the total is the sum of
    the list of strengths, added up in the order of the list, and the
    number of bonds is the length of that list. *)
Theorem aggregate_total_is_sum (C : Collaborators) (self : Setup)
    (ce : Environments) (isites : option (list Z)) (onlycation_isites : bool)
    (info : ICOHPNeighborsInfo.t) :
  get_info_icohps_to_neighbors self ce isites onlycation_isites = Ok info
  \/ get_info_icohps_between_neighbors C self ce isites onlycation_isites
     = Ok info ->
  ICOHPNeighborsInfo.total_icohp info
  = py_sum (ICOHPNeighborsInfo.list_icohps info)
  /\ ICOHPNeighborsInfo.n_bonds info
     = len (ICOHPNeighborsInfo.list_icohps info).
Proof.
  assert (Hstart : sums_consistent no_sums).
  { split; reflexivity. }
  intros [Hrun | Hrun].
  - unfold get_info_icohps_to_neighbors in Hrun.
    apply bind_Ok in Hrun. destruct Hrun as (sites & _ & Hrun).
    apply bind_Ok in Hrun. destruct Hrun as (s & Hloop & Hrun).
    injection Hrun as <-. simpl.
    revert Hloop. apply (for_each_invariant sums_consistent); [|exact Hstart].
    intros s0 entry s1 _ Hs0 Hbody.
    destruct (existsb (Z.eqb (fst entry)) sites).
    2:{ injection Hbody as <-. exact Hs0. }
    apply bind_Ok in Hbody. destruct Hbody as (keys & _ & Hbody).
    apply bind_Ok in Hbody. destruct Hbody as (icohps & _ & Hbody).
    revert Hbody. apply (for_each_invariant sums_consistent); [|exact Hs0].
    intros s2 bond s3 _ Hs2 Hadd.
    eapply add_neighbor_bond_consistent; eassumption.
  - unfold get_info_icohps_between_neighbors in Hrun.
    apply bind_Ok in Hrun. destruct Hrun as (sites & _ & Hrun).
    apply bind_Ok in Hrun. destruct Hrun as (s & Hloop & Hrun).
    injection Hrun as <-. simpl.
    revert Hloop. apply (for_each_invariant sums_consistent); [|exact Hstart].
    intros s0 isite s1 _ Hs0 Hbody.
    apply bind_Ok in Hbody. destruct Hbody as (neighsite & _ & Hbody).
    revert Hbody. apply (for_each_invariant sums_consistent); [|exact Hs0].
    intros s2 pair s3 _ Hs2 Hpair.
    eapply between_pair_consistent; eassumption.
Qed.

(* ================================================================= *)
(** ** Cation sites *)

Lemma py_index_of_nat {A : Type} (l : list A) (k : nat) (x : A) :
  py_index l (Z.of_nat k) = Ok x <-> nth_error l k = Some x.
Proof.
  unfold py_index.
  assert (Hneg : (Z.of_nat k <? 0)%Z = false) by (apply Z.ltb_ge; lia).
  rewrite Hneg, Hneg, Nat2Z.id.
  destruct (nth_error l k) as [y|]; split; intro H; try discriminate;
    injection H as ->; reflexivity.
Qed.





(* ================================================================= *)
(** ** Image cells *)

(** [round_half_even] gives a nearest integer. *)
Lemma round_half_even_nearest (q : Q) :
  Qabs (q - inject_Z (round_half_even q)) <= 1 # 2.
Proof.
  unfold round_half_even.
  pose proof (Qfloor_le q) as Hlow. pose proof (Qlt_floor q) as Hhigh.
  rewrite inject_Z_plus in Hhigh.
  change (inject_Z 1) with 1 in Hhigh.
  apply Qabs_Qle_condition.
  destruct (Qcompare_spec (q - inject_Z (Qfloor q)) (1 # 2)) as [Heq | Hlt | Hgt].
  - destruct (Z.even (Qfloor q)).
    + split; lra.
    + rewrite inject_Z_plus. change (inject_Z 1) with 1. split; lra.
  - split; lra.
  - rewrite inject_Z_plus. change (inject_Z 1) with 1. split; lra.
Qed.

Lemma near_integer_iff (d : Q) :
  isclose default_rtol default_atol d (inject_Z (round_half_even d)) = true
  <-> near_integer d.
Proof. unfold near_integer. rewrite isclose_iff. reflexivity. Qed.

Lemma next_such_Ok {A : Type} (p : A -> bool) (l : list A) (x : A) :
  next_such p l = Ok x -> In x l /\ p x = true.
Proof.
  induction l as [|y rest IH]; simpl; [discriminate|].
  destruct (p y) eqn:Hy.
  - intro H. injection H as <-. auto.
  - intro H. destruct (IH H). auto.
Qed.

Lemma In_enumerate_from {A : Type} (l : list A) :
  forall k i x,
    In (i, x) (enumerate_from k l) ->
    exists j, i = (k + Z.of_nat j)%Z /\ nth_error l j = Some x.
Proof.
  induction l as [|y rest IH]; simpl; intros k i x Hin; [contradiction|].
  destruct Hin as [Heq | Hin].
  - injection Heq as <- <-. exists 0%nat. split; [simpl; lia | reflexivity].
  - destruct (IH _ _ _ Hin) as (j & Hi & Hj).
    exists (S j). split; [lia | exact Hj].
Qed.

(** C5 (as the code has it).  In [from_Lobster] the image cell of a
    neighbour is the difference of its fractional coordinates and those of
    the site it is an image of, rounded to the nearest integers, and the
    guard is [np.allclose] with numpy's default tolerances: the image is
    returned when every component is within 1e-8 + 1e-5 * |rounded value|
    of its rounded value, and the "not integer" [ValueError] is raised
    otherwise.  In [_evaluate_ce] the image of a graph entry is the same
    rounded difference, taken against the first site of the structure of
    which the neighbour is a periodic image, with no tolerance test of
    its own. *)
Theorem image_cell_guarded_by_allclose :
  (forall neigh_site site,
     let diff := vec3_map2 Qminus (frac_coords neigh_site) (frac_coords site) in
     (vec3_Forall near_integer diff ->
      image_cell_of neigh_site site = Ok (vec3_map round_half_even diff))
     /\ (~ vec3_Forall near_integer diff ->
         image_cell_of neigh_site site
         = Err (ValueError
      "Weird, differences between one site in a periodic image cell is not integer ...")))
  /\ (forall q, Qabs (q - inject_Z (round_half_even q)) <= 1 # 2)
  /\ (forall structure neighisite all_nbs indices_here counter idx_neigh_site
             neigh_site index site,
        py_index neighisite idx_neigh_site = Ok index ->
        py_index structure index = Ok site ->
        assemble_neighbor structure neighisite (all_nbs, indices_here, counter)
                          (idx_neigh_site, neigh_site)
        = (cell <- image_cell_of neigh_site site ;;
           Ok (all_nbs ++ [{| nb_site := Some neigh_site; nb_index := Some index;
                              nb_image_cell := Some cell |}],
               indices_here ++ [counter], (counter + 1)%Z)))
  /\ (forall C self neighbor image,
        graph_image C self neighbor = Ok image ->
        exists isite site,
          periodic_image_index C self neighbor = Ok isite
          /\ py_index (structure self) isite = Ok site
          /\ is_periodic_image C neighbor site = true
          /\ image = vec3_map round_half_even
                       (vec3_map2 Qminus (frac_coords neighbor)
                                  (frac_coords site)))
  /\ (forall C self neighbor isite site,
        periodic_image_index C self neighbor = Ok isite ->
        py_index (structure self) isite = Ok site ->
        graph_image C self neighbor
        = Ok (vec3_map round_half_even
                (vec3_map2 Qminus (frac_coords neighbor) (frac_coords site)))).
Proof.
  split; [|split; [|split; [|split]]].
  - intros neigh_site site diff. unfold image_cell_of. fold diff.
    destruct diff as [[x y] z]. simpl.
    destruct (isclose default_rtol default_atol x (inject_Z (round_half_even x)))
      eqn:Hx;
      destruct (isclose default_rtol default_atol y (inject_Z (round_half_even y)))
        eqn:Hy;
      destruct (isclose default_rtol default_atol z (inject_Z (round_half_even z)))
        eqn:Hz; simpl;
      try apply near_integer_iff in Hx;
      try apply near_integer_iff in Hy;
      try apply near_integer_iff in Hz.
    1:{ split; [reflexivity|]. intro Hnot. exfalso. apply Hnot. auto. }
    all: split; [|reflexivity].
    all: intros (Nx & Ny & Nz).
    all: apply near_integer_iff in Nx; apply near_integer_iff in Ny;
      apply near_integer_iff in Nz; congruence.
  - exact round_half_even_nearest.
  - intros structure neighisite all_nbs indices_here counter idx_neigh_site
           neigh_site index site Hindex Hsite.
    unfold assemble_neighbor. rewrite Hindex. simpl. rewrite Hsite. reflexivity.
  - intros C self neighbor image Himage. unfold graph_image in Himage.
    apply bind_Ok in Himage. destruct Himage as (isite & Hisite & Himage).
    apply bind_Ok in Himage. destruct Himage as (site & Hsite & Himage).
    injection Himage as <-.
    exists isite, site. repeat split; try assumption.
    unfold periodic_image_index in Hisite.
    apply bind_Ok in Hisite. destruct Hisite as ([i site'] & Hnext & Hi).
    injection Hi as <-. apply next_such_Ok in Hnext.
    destruct Hnext as [Hin Himg]. simpl in Himg.
    apply In_enumerate_from in Hin. destruct Hin as (j & Hi & Hj).
    simpl in Hi. subst i. simpl in Hsite.
    apply py_index_of_nat in Hsite. rewrite Hj in Hsite.
    injection Hsite as <-. exact Himg.
  - intros C self neighbor isite site Hisite Hsite.
    unfold graph_image. rewrite Hisite. simpl. rewrite Hsite. reflexivity.
Qed.

(** C5 as the specification words it fails: a neighbour whose first
    fractional coordinate is 1.000005 while the site it is an image of is
    at 0 deviates from the integer 1 by 5e-6, more than 1e-6, and its
    image cell (1, 0, 0) is returned without an exception. *)
Lemma image_cell_rounds_beyond_1e_6 :
  let neigh_site := {| species_string := "Na";
                       frac_coords := (1000005 # 1000000, 0, 0);
                       coords := (0, 0, 0) |} in
  let site := {| species_string := "Na"; frac_coords := (0, 0, 0);
                 coords := (0, 0, 0) |} in
  deviates_beyond_1e_6 ((1000005 # 1000000) - 0)
  /\ image_cell_of neigh_site site = Ok (1, 0, 0)%Z.
Proof.
  split.
  - unfold deviates_beyond_1e_6. apply Qlt_bool_iff. vm_compute. reflexivity.
  - vm_compute. reflexivity.
Qed.

(* ================================================================= *)
(** ** The statements at work on the small crystal *)

(** Three candidates for the Cl site, of lengths 3.2, 3.00 and 3.0002,
    and the image of Cl found at 3.00015: the second candidate is bound
    and leaves the pool, the first and the third stay. *)
Lemma resolver_binds_first_match_witness :
  let C := Example.world (300015 # 100000) in
  let neigh_new := {| nn_site := Example.site_at "Cl" (300015 # 100000);
                      nn_distance := 300015 # 100000;
                      nn_index := 1; nn_image := (0, 0, 0)%Z |} in
  let r := start_resolution [1; 1; 1]%Z [32 # 10; 3; 30002 # 10000] in
  _list_neighisite (resolve_step C r neigh_new) = [1%Z]
  /\ copied_neighbors_from_ICOHPs (resolve_step C r neigh_new) = [1; 1]%Z
  /\ copied_distances_from_ICOHPs (resolve_step C r neigh_new)
     = [32 # 10; 30002 # 10000].
Proof.
  intros C neigh_new r.
  assert (Hfirst : first_match (nn_distance neigh_new) (nn_index neigh_new)
                     (copied_distances_from_ICOHPs r)
                     (copied_neighbors_from_ICOHPs r) 1).
  { split.
    - exists 3, 1%Z. repeat split.
      unfold length_matches. apply Qle_bool_iff. vm_compute. reflexivity.
    - intros j Hj (dist & neighbor & Hdist & _ & _ & Hmatch).
      assert (Hzero : j = 0%nat) by lia. subst j.
      simpl in Hdist. injection Hdist as <-.
      unfold length_matches in Hmatch. apply Qle_bool_iff in Hmatch.
      vm_compute in Hmatch. discriminate. }
  rewrite (proj1 (proj2 (resolver_binds_first_match C)) _ _ _ Hfirst).
  repeat split.
Defined.

(** With the image at 3.01 the two sites keep their selected record and
    resolve no neighbour. *)
Lemma resolved_set_within_selection_witness :
  let C := Example.world (301 # 100) in
  let self := Example.self 3 (301 # 100) NO_ADDITIONAL_CONDITION
                           (Some [1; - (1)]) in
  exists env,
    _find_environments C self NO_ADDITIONAL_CONDITION MinusInf
                       (Finite (- (15 # 100))) None = Ok env
    /\ List.length (list_neighsite env) = List.length (structure self)
    /\ Forall2 (fun sites keys => (List.length sites <= List.length keys)%nat)
               (list_neighsite env) (list_keys env).
Proof.
  intros C self. eexists. split; [vm_compute; reflexivity|].
  assert (Hrun : _find_environments C self NO_ADDITIONAL_CONDITION MinusInf
                   (Finite (- (15 # 100))) None
                 = Ok {| list_icohps := [[- (1)]; [- (1)]];
                         list_keys := [["1"%string]; ["1"%string]];
                         list_lengths := [[3]; [3]];
                         list_neighisite := [[]; []];
                         list_neighsite := [[]; []];
                         list_coords := [[]; []] |}).
  { vm_compute. reflexivity. }
  destruct (proj2 (resolved_set_within_selection C) _ _ _ _ _ _ Hrun)
    as (Hlen & Hle & _).
  split; [exact Hlen | exact Hle].
Defined.

(** The window of the small crystal: (-inf, min(-1 * 0.15, -0.1)). *)
Lemma limit_from_extremum_window_witness :
  let C := Example.world 3 in
  let self := Example.self 3 3 NO_ADDITIONAL_CONDITION (Some [1; - (1)]) in
  _get_limit_from_extremum C self (Icohpcollection self) (15 # 100) false
                           NO_ADDITIONAL_CONDITION
  = Ok (MinusInf, Finite (py_min2 (- (1) * (15 # 100)) (- (1 # 10))))
  /\ py_min2 (- (1) * (15 # 100)) (- (1 # 10)) <= - (1 # 10).
Proof.
  intros C self.
  assert (Heb : extremum_based C self (Icohpcollection self) (15 # 100) false
                               NO_ADDITIONAL_CONDITION
                = Ok (- (1) * (15 # 100))).
  { reflexivity. }
  destruct (proj1 (limit_from_extremum_window C self (Icohpcollection self)
                     (15 # 100) false NO_ADDITIONAL_CONDITION Heb)
                  (conj eq_refl eq_refl)) as (Hwindow & Hbound & _).
  split; [exact Hwindow | exact Hbound].
Defined.

(** With valences 1 and 1 bond "1" is selected for site 0 under
    condition 5. *)
Lemma no_anion_cation_selects_strict_signs_witness :
  let self := Example.self 3 3 DO_NOT_CONSIDER_ANION_CATION_BONDS
                           (Some [1; 1]) in
  let icohps := [("1"%string, Example.bond 3)] in
  exists sel,
    _find_relevant_atoms_additional_condition (valences self) 0 icohps
      DO_NOT_CONSIDER_ANION_CATION_BONDS = Ok sel
    /\ In "1"%string (keys_from_ICOHPs sel).
Proof.
  intros self icohps. eexists. split; [reflexivity|].
  apply (proj2 (proj1 (no_anion_cation_selects_strict_signs self) 0%Z icohps _
                      eq_refl "1"%string)).
  exists (Example.bond 3), 0%Z, 1%Z, 1, 1.
  split; [left; reflexivity|]. split; [reflexivity|].
  split; [left; reflexivity|]. left. split; reflexivity.
Defined.

(** The image cell of the Cl neighbour of the small crystal. *)
Lemma image_cell_guarded_by_allclose_witness :
  image_cell_of (Example.site_at "Cl" 3) (Example.site_at "Cl" 3)
  = Ok (0, 0, 0)%Z.
Proof.
  apply (proj1 (proj1 image_cell_guarded_by_allclose
                      (Example.site_at "Cl" 3) (Example.site_at "Cl" 3))).
  repeat split; unfold near_integer; apply Qle_bool_iff; vm_compute; reflexivity.
Defined.

(** Cation-cation bonds asked for with valences 0 and 0. *)
Lemma all_zero_valences_fail_at_setup_witness :
  __init__ (Example.world 3) (Example.arguments 3 3 6 (Some [0; 0]) false)
  = Err (ValueError
      "All valences are equal to 0, additional_conditions 1, 3, 5 and 6 will not work").
Proof.
  assert (Hzero : Forall (fun v => v == 0) [0; 0]).
  { repeat constructor. }
  exact (proj2 (proj2 (@all_zero_valences_fail_at_setup (Example.world 3)
                         (Example.arguments 3 3 6 (Some [0; 0]) false)
                         ONLY_CATION_CATION_BONDS [0; 0]
                         eq_refl eq_refl eq_refl Hzero)
                      (Example.collection 3) (None, None)
                      eq_refl eq_refl eq_refl)).
Defined.

(** The bonds of the cation site of the small crystal. *)
Lemma aggregate_total_is_sum_witness :
  let self := Example.self 3 3 NO_ADDITIONAL_CONDITION (Some [1; - (1)]) in
  exists info,
    get_info_icohps_to_neighbors self Example.resolved None true = Ok info
    /\ ICOHPNeighborsInfo.total_icohp info
       = py_sum (ICOHPNeighborsInfo.list_icohps info)
    /\ ICOHPNeighborsInfo.n_bonds info
       = len (ICOHPNeighborsInfo.list_icohps info).
Proof.
  intro self. eexists. split; [reflexivity|].
  apply (@aggregate_total_is_sum (Example.world 3) self Example.resolved None
                                 true).
  left. reflexivity.
Defined.


(** Two descriptions of the same collaborators give the same pass. *)
Lemma neighbor_resolution_deterministic_witness :
  let self := Example.self 3 3 NO_ADDITIONAL_CONDITION (Some [1; - (1)]) in
  _evaluate_ce (Example.world 3) self None None None NO_ADDITIONAL_CONDITION
               (15 # 100) false
  = _evaluate_ce (Example.world_again 3) self None None None
                 NO_ADDITIONAL_CONDITION (15 # 100) false.
Proof.
  intro self.
  apply (proj1 neighbor_resolution_deterministic).
  unfold agree. simpl. repeat split; try reflexivity.
  all: intros; repeat match goal with
                      | v : PeriodicSite |- _ => destruct v
                      | v : vec3 Q |- _ => destruct v as [[? ?] ?]
                      end; reflexivity.
Defined.


(* ================================================================= *)
(** * Further properties *)

(** ** Atom names *)

Lemma drop_digits_split (l : list ascii) :
  exists digits,
    l = digits ++ drop_digits l
    /\ forallb is_digit digits = true
    /\ drop_digits (drop_digits l) = drop_digits l.
Proof.
  induction l as [|c rest (digits & Hsplit & Hdigits & Hidem)]; simpl.
  - exists []. auto.
  - destruct (is_digit c) eqn:Hc.
    + exists (c :: digits). simpl. rewrite Hc, Hdigits, <- Hsplit. auto.
    + exists []. simpl. rewrite Hc. auto.
Qed.

Lemma drop_digits_app (digits rest : list ascii) :
  forallb is_digit digits = true ->
  drop_digits (digits ++ rest) = drop_digits rest.
Proof.
  induction digits as [|c digits IH]; simpl; intro H; [reflexivity|].
  apply andb_true_iff in H. destruct H as [Hc Hrest]. rewrite Hc. auto.
Qed.

Lemma forallb_rev {A : Type} (p : A -> bool) (l : list A) :
  forallb p (rev l) = forallb p l.
Proof.
  induction l as [|x rest IH]; simpl; [reflexivity|].
  rewrite forallb_app, IH. simpl. rewrite andb_true_r. apply andb_comm.
Qed.

Lemma string_drop_app (a b : list ascii) :
  string_drop (List.length a) (string_of_list_ascii (a ++ b))
  = string_of_list_ascii b.
Proof. induction a as [|c a IH]; simpl; [destruct b|]; auto. Qed.

Lemma length_string_of_list_ascii (l : list ascii) :
  String.length (string_of_list_ascii l) = List.length l.
Proof. induction l as [|c l IH]; simpl; congruence. Qed.

Lemma string_of_list_ascii_app (a b : list ascii) :
  string_of_list_ascii (a ++ b)
  = (string_of_list_ascii a ++ string_of_list_ascii b)%string.
Proof. induction a as [|c a IH]; simpl; congruence. Qed.

Lemma list_ascii_of_string_app (a b : string) :
  list_ascii_of_string (a ++ b)
  = list_ascii_of_string a ++ list_ascii_of_string b.
Proof. induction a as [|c a IH]; simpl; congruence. Qed.

(** The two parts of a name, as lists of characters. *)
Lemma split_string_lists (s : string) :
  exists head digits,
    list_ascii_of_string s = head ++ digits
    /\ forallb is_digit digits = true
    /\ drop_digits (rev head) = rev head
    /\ _split_string s
       = (string_of_list_ascii head, string_of_list_ascii digits).
Proof.
  destruct (drop_digits_split (rev (list_ascii_of_string s)))
    as (rdigits & Hsplit & Hdigits & Hidem).
  exists (rev (drop_digits (rev (list_ascii_of_string s)))), (rev rdigits).
  assert (Hlist : list_ascii_of_string s
                  = rev (drop_digits (rev (list_ascii_of_string s)))
                    ++ rev rdigits).
  { rewrite <- rev_app_distr, <- Hsplit, rev_involutive. reflexivity. }
  split; [exact Hlist|]. split; [rewrite forallb_rev; exact Hdigits|].
  split; [rewrite rev_involutive; exact Hidem|].
  unfold _split_string, rstrip_digits. f_equal.
  rewrite length_string_of_list_ascii.
  rewrite <- (string_of_list_ascii_of_string s) at 2.
  rewrite Hlist at 2. apply string_drop_app.
Qed.

Lemma split_string_strips (s : string) :
  let '(head, tail) := _split_string s in
  (head ++ tail)%string = s
  /\ all_digits tail
  /\ no_trailing_digit head.
Proof.
  destruct (split_string_lists s) as (head & digits & Hlist & Hdigits & Hhead & ->).
  split; [|split].
  - rewrite <- string_of_list_ascii_app, <- Hlist.
    apply string_of_list_ascii_of_string.
  - unfold all_digits. rewrite list_ascii_of_string_of_list_ascii. exact Hdigits.
  - unfold no_trailing_digit, rstrip_digits.
    rewrite list_ascii_of_string_of_list_ascii, Hhead, rev_involutive.
    reflexivity.
Qed.

Lemma is_digit_iff (c : ascii) : is_digit c = true <-> decimal_digit c.
Proof.
  unfold decimal_digit. split.
  - destruct c as [[] [] [] [] [] [] [] []]; intro H; try discriminate H;
      simpl; repeat (first [left; reflexivity | right]).
  - simpl. intros H.
    repeat (destruct H as [<- | H]; [reflexivity|]). destruct H.
Qed.

Lemma all_digits_iff (s : string) : all_digits s <-> digits_only s.
Proof.
  unfold all_digits, digits_only. rewrite forallb_forall, Forall_forall.
  split; intros H c Hc; apply is_digit_iff; apply H; exact Hc.
Qed.

Lemma length_drop_digits (l : list ascii) :
  (List.length (drop_digits l) <= List.length l)%nat.
Proof.
  induction l as [|c rest IH]; simpl; [lia|].
  destruct (is_digit c); simpl; lia.
Qed.

Lemma list_ascii_of_string_inj (a b : string) :
  list_ascii_of_string a = list_ascii_of_string b -> a = b.
Proof.
  intro H. rewrite <- (string_of_list_ascii_of_string a),
    <- (string_of_list_ascii_of_string b), H. reflexivity.
Qed.

(** A string is left as it is by [rstrip("0123456789")] exactly when its
    last character is not a digit. *)
Lemma no_trailing_digit_iff (s : string) :
  no_trailing_digit s <-> ~ ends_with_digit s.
Proof.
  unfold no_trailing_digit, rstrip_digits, ends_with_digit. split.
  - intros Hsame (front & c & Hs & Hc). apply is_digit_iff in Hc.
    apply (f_equal list_ascii_of_string) in Hsame.
    rewrite list_ascii_of_string_of_list_ascii in Hsame.
    rewrite Hs, list_ascii_of_string_app in Hsame. simpl in Hsame.
    rewrite rev_app_distr in Hsame. simpl in Hsame. rewrite Hc in Hsame.
    apply (f_equal (@List.length ascii)) in Hsame.
    rewrite length_rev, length_app in Hsame. simpl in Hsame.
    pose proof (length_drop_digits (rev (list_ascii_of_string front))) as Hle.
    rewrite length_rev in Hle. lia.
  - intro Hends.
    destruct (rev (list_ascii_of_string s)) as [|c rest] eqn:Hrev.
    + apply (f_equal (@rev ascii)) in Hrev. rewrite rev_involutive in Hrev.
      simpl in Hrev. simpl. symmetry. apply list_ascii_of_string_inj.
      exact Hrev.
    + simpl. destruct (is_digit c) eqn:Hc.
      * exfalso. apply Hends. exists (string_of_list_ascii (rev rest)), c.
        split; [|apply is_digit_iff; exact Hc].
        apply list_ascii_of_string_inj.
        rewrite list_ascii_of_string_app, list_ascii_of_string_of_list_ascii.
        simpl. apply (f_equal (@rev ascii)) in Hrev.
        rewrite rev_involutive in Hrev. exact Hrev.
      * rewrite <- Hrev, rev_involutive.
        apply string_of_list_ascii_of_string.
Qed.

(** X1.  [_split_string] cuts a name in two: the parts put together give
    the name back, every character of the tail is one of "0123456789",
    and the last character of the head, if there is one, is none of
    them.  So the tail is the longest run of digits at the end of the
    name. *)
Theorem split_string_parts (s : string) :
  let '(head, tail) := _split_string s in
  (head ++ tail)%string = s
  /\ digits_only tail
  /\ ~ ends_with_digit head
  /\ forall head' tail',
       s = (head' ++ tail')%string -> digits_only tail' ->
       (String.length tail' <= String.length tail)%nat.
Proof.
  pose proof (split_string_strips s) as Hparts.
  destruct (_split_string s) as [head tail].
  destruct Hparts as (Happ & Htail & Hhead).
  apply all_digits_iff in Htail. apply no_trailing_digit_iff in Hhead.
  split; [exact Happ|]. split; [exact Htail|]. split; [exact Hhead|].
  intros head' tail' Hs Htail'.
  destruct (Nat.le_gt_cases (String.length tail') (String.length tail))
    as [Hle | Hgt]; [exact Hle|].
  exfalso. apply Hhead.
  (* the longer tail reaches into the head *)
  assert (Hlists : list_ascii_of_string head ++ list_ascii_of_string tail
                   = list_ascii_of_string head' ++ list_ascii_of_string tail').
  { rewrite <- !list_ascii_of_string_app. congruence. }
  assert (Hlen : forall x, String.length x = List.length (list_ascii_of_string x)).
  { intro x. rewrite <- (string_of_list_ascii_of_string x) at 1.
    apply length_string_of_list_ascii. }
  rewrite !Hlen in Hgt. unfold digits_only in Htail'.
  set (h := list_ascii_of_string head) in *.
  set (t := list_ascii_of_string tail) in *.
  set (h' := list_ascii_of_string head') in *.
  set (t' := list_ascii_of_string tail') in *.
  assert (Hh : h = h' ++ firstn (List.length t' - List.length t) t').
  { assert (Hfirst : firstn (List.length h) (h ++ t) = h).
    { rewrite firstn_app, Nat.sub_diag, firstn_all. simpl.
      apply app_nil_r. }
    rewrite <- Hfirst at 1. rewrite Hlists.
    assert (Hlh : List.length h
                  = (List.length h' + (List.length t' - List.length t))%nat).
    { apply (f_equal (@List.length ascii)) in Hlists.
      rewrite !length_app in Hlists. lia. }
    rewrite Hlh, firstn_app.
    replace (List.length h' + (List.length t' - List.length t)
             - List.length h')%nat
      with (List.length t' - List.length t)%nat by lia.
    rewrite firstn_all2 by lia. reflexivity. }
  set (k := (List.length t' - List.length t)%nat) in *.
  assert (Hk : (0 < List.length (firstn k t'))%nat).
  { rewrite length_firstn. lia. }
  destruct (exists_last (l := firstn k t')) as (front & c & Hlast).
  { intro Hnil. rewrite Hnil in Hk. simpl in Hk. lia. }
  exists (string_of_list_ascii (h' ++ front)), c. split.
  - apply list_ascii_of_string_inj.
    rewrite list_ascii_of_string_app, list_ascii_of_string_of_list_ascii.
    simpl. fold h. rewrite Hh, Hlast, app_assoc. reflexivity.
  - rewrite Forall_forall in Htail'. apply Htail'.
    assert (Hin : In c (firstn k t' ++ skipn k t')).
    { apply in_or_app. left. rewrite Hlast. apply in_or_app. right. left.
      reflexivity. }
    rewrite firstn_skipn in Hin. exact Hin.
Qed.

Lemma split_string_of_parts (head tail : string) :
  no_trailing_digit head -> all_digits tail ->
  _split_string (head ++ tail) = (head, tail).
Proof.
  unfold no_trailing_digit, all_digits, _split_string. intros Hhead Htail.
  assert (Hstrip : rstrip_digits (head ++ tail) = head).
  { unfold rstrip_digits in *.
    rewrite list_ascii_of_string_app, rev_app_distr, drop_digits_app.
    - exact Hhead.
    - rewrite forallb_rev. exact Htail. }
  rewrite Hstrip. f_equal.
  rewrite <- (string_of_list_ascii_of_string head) at 1 2.
  rewrite <- (string_of_list_ascii_of_string tail) at 1.
  rewrite <- string_of_list_ascii_app, length_string_of_list_ascii,
    string_drop_app.
  apply string_of_list_ascii_of_string.
Qed.

Lemma digits_value_decimal (u : Decimal.uint) :
  forall acc,
    digits_value (Z.of_nat acc) (list_ascii_of_string (NilEmpty.string_of_uint u))
    = Some (Z.of_nat (Nat.of_uint_acc u acc)).
Proof.
  induction u as [|u IH|u IH|u IH|u IH|u IH|u IH|u IH|u IH|u IH|u IH];
    intro acc; cbn [NilEmpty.string_of_uint list_ascii_of_string digits_value
                    Nat.of_uint_acc];
    [reflexivity|..];
    change (is_digit _) with true; cbv iota;
    rewrite <- IH; f_equal; rewrite Nat.tail_mul_spec;
    match goal with
    | |- context [nat_of_ascii ?c] =>
        let v := eval vm_compute in (Z.of_nat (nat_of_ascii c)) in
        change (Z.of_nat (nat_of_ascii c)) with v
    end; lia.
Qed.

Lemma decimal_all_digits (u : Decimal.uint) :
  all_digits (NilEmpty.string_of_uint u).
Proof.
  unfold all_digits.
  induction u; simpl; try reflexivity; exact IHu.
Qed.

Lemma decimal_not_empty (n : nat) : decimal n <> ""%string.
Proof.
  unfold decimal. intro H.
  pose proof (Unsigned.of_to n) as Hsame.
  destruct (Nat.to_uint n) eqn:Hu; simpl in H; try discriminate.
  cbv in Hsame. subst n. vm_compute in Hu. discriminate.
Qed.

Lemma digits_value_all_digits (l : list ascii) :
  forallb is_digit l = true ->
  forall acc, (0 <= acc)%Z ->
              exists v, digits_value acc l = Some v /\ (0 <= v)%Z.
Proof.
  induction l as [|c rest IH]; intros Hdigits acc Hacc;
    cbn [forallb digits_value] in *.
  - exists acc. auto.
  - apply andb_true_iff in Hdigits. destruct Hdigits as [Hc Hrest].
    rewrite Hc. apply IH; [exact Hrest|].
    unfold is_digit in Hc. cbv zeta in Hc.
    apply andb_true_iff in Hc. destruct Hc as [Hlow _].
    apply Nat.leb_le in Hlow. lia.
Qed.

Lemma string_append_empty (s : string) : (s ++ "")%string = s.
Proof. induction s as [|c s IH]; simpl; congruence. Qed.

(** X2.  The name of an atom is its element symbol followed by its ordinal in
    the structure, counted from 1: [_get_atomnumber] gives back the
    ordinal minus one, whatever the element symbol. *)
Theorem get_atomnumber_of_name (element : string) (n : nat) :
  no_trailing_digit element ->
  _split_string (element ++ decimal n) = (element, decimal n)
  /\ _get_atomnumber (element ++ decimal n) = Ok (Z.of_nat n - 1)%Z.
Proof.
  intro Helement.
  assert (Hsplit : _split_string (element ++ decimal n) = (element, decimal n)).
  { apply split_string_of_parts; [exact Helement|]. apply decimal_all_digits. }
  split; [exact Hsplit|].
  unfold _get_atomnumber. rewrite Hsplit. simpl snd. unfold py_int.
  pose proof (decimal_not_empty n) as Hnot.
  pose proof (digits_value_decimal (Nat.to_uint n) 0) as Hvalue.
  fold (decimal n) in Hvalue. change (Z.of_nat 0) with 0%Z in Hvalue.
  change (Nat.of_uint_acc (Nat.to_uint n) 0) with (Nat.of_uint (Nat.to_uint n))
    in Hvalue.
  rewrite Unsigned.of_to in Hvalue.
  destruct (list_ascii_of_string (decimal n)) as [|c rest] eqn:Hlist.
  - exfalso. apply Hnot.
    rewrite <- (string_of_list_ascii_of_string (decimal n)), Hlist. reflexivity.
  - rewrite Hvalue. reflexivity.
Qed.

Lemma get_atomnumber_raises_iff (atomstring : string) :
  ((exists e, _get_atomnumber atomstring = Err e)
   <-> no_trailing_digit atomstring)
  /\ (forall index, _get_atomnumber atomstring = Ok index -> (-1 <= index)%Z).
Proof.
  destruct (split_string_lists atomstring)
    as (head & digits & Hlist & Hdigits & Hhead & Hsplit).
  assert (Hint : py_int (string_of_list_ascii digits)
                 = match digits with
                   | [] => Err (ValueError "invalid literal for int() with base 10")
                   | _ => match digits_value 0 digits with
                          | Some z => Ok z
                          | None =>
                              Err (ValueError
                                     "invalid literal for int() with base 10")
                          end
                   end).
  { unfold py_int. rewrite list_ascii_of_string_of_list_ascii.
    destruct digits; reflexivity. }
  destruct (@digits_value_all_digits digits Hdigits 0%Z ltac:(lia))
    as (v & Hv & Hpos).
  unfold _get_atomnumber. rewrite Hsplit. simpl snd. rewrite Hint, Hv.
  split.
  - split.
    + intros (e & He). destruct digits as [|c rest]; [|discriminate].
      rewrite app_nil_r in Hlist.
      unfold no_trailing_digit, rstrip_digits.
      rewrite Hlist, Hhead, rev_involutive, <- Hlist.
      apply string_of_list_ascii_of_string.
    + intro Hnone.
      pose proof (@split_string_of_parts atomstring ""%string Hnone eq_refl)
        as Hparts.
      rewrite string_append_empty, Hsplit in Hparts.
      injection Hparts as _ Hempty.
      destruct digits as [|c rest]; [|discriminate].
      eexists. reflexivity.
  - intros index Hindex. destruct digits as [|c rest]; [discriminate|].
    simpl in Hindex. injection Hindex as <-. lia.
Qed.

(** X3.  On a name of at most 4300 characters (the number of digits that
    [int] accepts) [_get_atomnumber] raises exactly when the last
    character of the name is none of "0123456789" (the empty name
    included), and what it raises is a [ValueError]; on every other such
    name it returns an integer that is at least -1. *)
Theorem get_atomnumber_needs_ordinal (atomstring : string) :
  (String.length atomstring <= 4300)%nat ->
  ((exists e, _get_atomnumber atomstring = Err e)
   <-> ~ ends_with_digit atomstring)
  /\ (forall e, _get_atomnumber atomstring = Err e ->
                exists msg, e = ValueError msg)
  /\ (forall index, _get_atomnumber atomstring = Ok index -> (-1 <= index)%Z).
Proof.
  intros _.
  destruct (get_atomnumber_raises_iff atomstring) as [Hraises Hindex].
  split; [|split].
  - rewrite Hraises. apply no_trailing_digit_iff.
  - intros e He. unfold _get_atomnumber, py_int in He.
    destruct (list_ascii_of_string (snd (_split_string atomstring)))
      as [|c rest].
    + injection He as <-. eexists. reflexivity.
    + destruct (digits_value 0 (c :: rest)); simpl in He.
      * discriminate.
      * injection He as <-. eexists. reflexivity.
  - exact Hindex.
Qed.

(* ================================================================= *)
(** ** The adapted extremum of an empty selection *)

Lemma element_of_iff (name element : string) :
  element_of name element <-> rstrip_digits name = element.
Proof.
  split.
  - intros (ordinal & -> & Hordinal & Helement).
    apply all_digits_iff in Hordinal. apply no_trailing_digit_iff in Helement.
    pose proof (split_string_of_parts Helement Hordinal) as Hsplit.
    unfold _split_string in Hsplit. injection Hsplit as Hhead _. exact Hhead.
  - intros <-. pose proof (split_string_strips name) as Hparts.
    unfold _split_string in Hparts. destruct Hparts as (Happ & Htail & Hhead).
    eexists. split; [symmetry; exact Happ|].
    split; [apply all_digits_iff; exact Htail|].
    apply no_trailing_digit_iff. exact Hhead.
Qed.

Lemma different_elements_iff (value : IcohpValue) :
  different_elements (_atom1 value) (_atom2 value) = true
  <-> ~ same_element value.
Proof.
  unfold different_elements, same_element.
  rewrite negb_true_iff, String.eqb_neq. split.
  - intros Hneq (element & H1 & H2).
    apply element_of_iff in H1. apply element_of_iff in H2. congruence.
  - intros Hnot Heq. apply Hnot. exists (rstrip_digits (_atom1 value)).
    split; apply element_of_iff; congruence.
Qed.

Lemma to_oxygen_iff (value : IcohpValue) :
  to_oxygen (_atom1 value) (_atom2 value) = true
  <-> element_of (_atom1 value) "O" \/ element_of (_atom2 value) "O".
Proof.
  unfold to_oxygen. rewrite orb_true_iff, !String.eqb_eq, !element_of_iff.
  reflexivity.
Qed.

Lemma anion_cation_iff (val1 val2 : Q) :
  anion_cation val1 val2 = true <-> opposite_signs val1 val2.
Proof.
  unfold anion_cation, opposite_signs.
  rewrite orb_true_iff, !andb_true_iff, !Qlt_bool_iff. reflexivity.
Qed.

Lemma cation_cation_iff (val1 val2 : Q) :
  cation_cation val1 val2 = true <-> 0 < val1 /\ 0 < val2.
Proof.
  unfold cation_cation. rewrite andb_true_iff, !Qlt_bool_iff. reflexivity.
Qed.

(** The test on two valences, read through [endpoints]. *)
Lemma by_valences_Ok (valences : option (list Q)) (value : IcohpValue)
    (test : Q -> Q -> bool) (b : bool) :
  (atomnr1 <- _get_atomnumber (_atom1 value) ;;
   atomnr2 <- _get_atomnumber (_atom2 value) ;;
   ' (val1, val2) <- endpoint_valences valences atomnr1 atomnr2 ;;
   Ok (test val1 val2)) = Ok b
  <-> exists atomnr1 atomnr2 val1 val2,
        endpoints valences value = Some (atomnr1, atomnr2, val1, val2)
        /\ test val1 val2 = b.
Proof.
  unfold endpoints, endpoint_valences.
  destruct (_get_atomnumber (_atom1 value)) as [a1|e1]; simpl.
  2:{ split; [discriminate | intros (? & ? & ? & ? & H & _); discriminate]. }
  destruct (_get_atomnumber (_atom2 value)) as [a2|e2]; simpl.
  2:{ split; [discriminate | intros (? & ? & ? & ? & H & _); discriminate]. }
  destruct (valence_at valences a1) as [v1|e1]; simpl.
  2:{ split; [discriminate | intros (? & ? & ? & ? & H & _); discriminate]. }
  destruct (valence_at valences a2) as [v2|e2]; simpl.
  2:{ split; [discriminate | intros (? & ? & ? & ? & H & _); discriminate]. }
  split.
  - intro H. injection H as <-. exists a1, a2, v1, v2. auto.
  - intros (? & ? & ? & ? & H & <-). injection H as <- <- <- <-. reflexivity.
Qed.

Lemma policy_test_true (valences : option (list Q)) (cond : condition)
    (value : IcohpValue) :
  policy_test valences cond value = Ok true
  <-> satisfies_policy valences cond value.
Proof.
  destruct cond; unfold policy_test, satisfies_policy;
    rewrite ?by_valences_Ok.
  - tauto.
  - split; intros (a1 & a2 & v1 & v2 & H & Ht); exists a1, a2, v1, v2;
      (split; [exact H | apply anion_cation_iff; exact Ht]).
  - rewrite <- different_elements_iff. split; congruence.
  - rewrite <- different_elements_iff. split.
    + intros (a1 & a2 & v1 & v2 & H & Ht). apply andb_true_iff in Ht.
      destruct Ht as [Ht Hd]. split; [|exact Hd].
      exists a1, a2, v1, v2. split; [exact H | apply anion_cation_iff; exact Ht].
    + intros [(a1 & a2 & v1 & v2 & H & Ht) Hd]. exists a1, a2, v1, v2.
      split; [exact H|]. apply andb_true_iff. split; [|exact Hd].
      apply anion_cation_iff. exact Ht.
  - rewrite <- to_oxygen_iff. split; congruence.
  - split; intros (a1 & a2 & v1 & v2 & H & Ht); exists a1, a2, v1, v2;
      (split; [exact H | apply no_anion_cation_iff; exact Ht]).
  - split; intros (a1 & a2 & v1 & v2 & H & Ht); exists a1, a2, v1, v2;
      (split; [exact H | apply cation_cation_iff; exact Ht]).
Qed.

Lemma policy_test_readable (valences : option (list Q)) (cond : condition)
    (value : IcohpValue) :
  readable valences cond value ->
  exists b, policy_test valences cond value = Ok b.
Proof.
  unfold readable, policy_test, endpoints, endpoint_valences.
  destruct cond; simpl; intro Hread; try (eexists; reflexivity);
    specialize (Hread eq_refl);
    destruct (_get_atomnumber (_atom1 value)) as [a1|]; try congruence;
    destruct (_get_atomnumber (_atom2 value)) as [a2|]; try congruence;
    simpl;
    destruct (valence_at valences a1) as [v1|]; try congruence;
    destruct (valence_at valences a2) as [v2|]; try congruence;
    simpl; eexists; reflexivity.
Qed.

Lemma adaptation_subset_collect (self : Setup) (icohpcollection : IcohpCollection)
    (cond : condition) :
  cond <> NO_ADDITIONAL_CONDITION ->
  adaptation_subset self icohpcollection cond
  = collect_icohps (policy_test (valences self) cond)
                   (map snd (_icohplist icohpcollection)).
Proof. destruct cond; intro H; [congruence | reflexivity ..]. Qed.

Lemma collect_icohps_none (test : IcohpValue -> result bool)
    (values : list IcohpValue) :
  (forall value, In value values -> test value = Ok false) ->
  collect_icohps test values = Ok [].
Proof.
  unfold collect_icohps. generalize (@nil Q) as acc.
  induction values as [|value rest IH]; intros acc Hnone; simpl.
  - reflexivity.
  - rewrite (Hnone value (or_introl eq_refl)). simpl.
    apply IH. intros v Hv. apply Hnone. right. exact Hv.
Qed.

(** C8.  When the extremum is adapted to a condition (1 to 6), the values
    it is taken over are the strengths of the bond records that satisfy
    the policy of the condition.  When every record can be read and none
    satisfies the policy, that list is empty and [min] (or [max], for
    COOPs and COBIs) of the empty list raises [ValueError]; nothing
    catches it, so [_get_limit_from_extremum], [_evaluate_ce] called
    without limits and the constructor all end with that exception: no
    default window is returned.  As soon as one record satisfies the
    policy a window is returned. *)
Theorem empty_adaptation_subset_raises (C : Collaborators) (self : Setup)
    (cond : condition) :
  cond <> NO_ADDITIONAL_CONDITION ->
  let values := map snd (_icohplist (Icohpcollection self)) in
  let empty_selection :=
    if are_icohps self then ValueError "min() arg is an empty sequence"
    else ValueError "max() arg is an empty sequence" in
  (* the adaptation subset *)
  (forall list_icohps,
     adaptation_subset self (Icohpcollection self) cond = Ok list_icohps ->
     forall x,
       In x list_icohps
       <-> exists value,
             In value values
             /\ satisfies_policy (valences self) cond value
             /\ summed_icohp value = x)
  (* no record satisfies the policy *)
  /\ ((forall value,
         In value values ->
         readable (valences self) cond value
         /\ ~ satisfies_policy (valences self) cond value) ->
      adaptation_subset self (Icohpcollection self) cond = Ok []
      /\ (forall percentage,
            _get_limit_from_extremum C self (Icohpcollection self) percentage
                                     true cond = Err empty_selection)
      /\ (forall percentage only_bonds_to,
            _evaluate_ce C self None None only_bonds_to cond
                         percentage true = Err empty_selection)
      /\ (forall args,
            init_setup C args = Ok self ->
            arg_limits args = None ->
            arg_adapt_extremum_to_add_cond args = true ->
            additional_condition self = cond ->
            __init__ C args = Err empty_selection))
  (* a record satisfies it *)
  /\ (forall list_icohps value percentage,
        adaptation_subset self (Icohpcollection self) cond = Ok list_icohps ->
        In value values ->
        satisfies_policy (valences self) cond value ->
        exists window,
          _get_limit_from_extremum C self (Icohpcollection self) percentage
                                   true cond = Ok window).
Proof.
  intros Hcond values empty_selection.
  assert (Hsubset : forall list_icohps,
             adaptation_subset self (Icohpcollection self) cond
             = Ok list_icohps ->
             forall x,
               In x list_icohps
               <-> exists value,
                     In value values
                     /\ satisfies_policy (valences self) cond value
                     /\ summed_icohp value = x).
  { intros list_icohps Hrun x.
    rewrite adaptation_subset_collect in Hrun by exact Hcond.
    unfold collect_icohps in Hrun.
    rewrite (collect_icohps_In _ _ _ Hrun x). fold values. split.
    - intros [[] | (value & Hin & Htest & Hx)].
      exists value. split; [exact Hin|]. split; [|exact Hx].
      apply policy_test_true. exact Htest.
    - intros (value & Hin & Hsat & Hx). right. exists value.
      split; [exact Hin|]. split; [|exact Hx].
      apply policy_test_true. exact Hsat. }
  assert (Hbased : forall percentage,
             extremum_based C self (Icohpcollection self) percentage true cond
             = (list_icohps <- adaptation_subset self (Icohpcollection self)
                                 cond ;;
                _adapt_extremum_to_add_cond self list_icohps percentage)).
  { intro percentage. unfold extremum_based.
    destruct cond; [congruence | reflexivity ..]. }
  split; [exact Hsubset|]. split.
  - intro Hnone.
    assert (Hempty : adaptation_subset self (Icohpcollection self) cond = Ok []).
    { rewrite adaptation_subset_collect by exact Hcond.
      apply collect_icohps_none. intros value Hin.
      destruct (Hnone value Hin) as [Hread Hnot].
      destruct (policy_test_readable Hread) as ([|] & Htest); [|exact Htest].
      exfalso. apply Hnot. apply policy_test_true. exact Htest. }
    assert (Hlimit : forall percentage,
               _get_limit_from_extremum C self (Icohpcollection self) percentage
                                        true cond
               = Err empty_selection).
    { intro percentage. unfold _get_limit_from_extremum.
      rewrite Hbased, Hempty. simpl.
      unfold _adapt_extremum_to_add_cond, empty_selection.
      destruct (are_icohps self); reflexivity. }
    assert (Heval : forall percentage only_bonds_to,
               _evaluate_ce C self None None only_bonds_to cond
                            percentage true = Err empty_selection).
    { intros percentage only_bonds_to. unfold _evaluate_ce.
      rewrite Hlimit. reflexivity. }
    split; [exact Hempty|]. split; [exact Hlimit|]. split; [exact Heval|].
    intros args Hsetup Hlimits Hadapt Hsame. unfold __init__.
    rewrite Hsetup. simpl.
    assert (Hlow : lowerlimit self = None /\ upperlimit self = None).
    { unfold init_setup in Hsetup.
      repeat (apply bind_Ok in Hsetup; destruct Hsetup as (? & _ & Hsetup)).
      injection Hsetup as <-. simpl. rewrite Hlimits. split; reflexivity. }
    destruct Hlow as [-> ->]. rewrite Hadapt, Hsame, Heval. reflexivity.
  - intros list_icohps value percentage Hrun Hin Hsat.
    unfold _get_limit_from_extremum. rewrite Hbased, Hrun. simpl.
    assert (Hmember : In (summed_icohp value) list_icohps).
    { apply (Hsubset list_icohps Hrun). exists value. auto. }
    unfold _adapt_extremum_to_add_cond.
    destruct list_icohps as [|first rest]; [destruct Hmember|].
    destruct (are_icohps self); simpl; eexists; reflexivity.
Qed.

(** Cation-cation bonds asked for in NaCl with an adapted extremum: the
    one bond record joins a cation and an anion. *)
Lemma empty_adaptation_subset_raises_witness :
  let C := Example.world 3 in
  let self := Example.self_adapted 3 3 ONLY_CATION_CATION_BONDS
                                   (Some [1; - (1)]) in
  _get_limit_from_extremum C self (Icohpcollection self) (15 # 100) true
                           ONLY_CATION_CATION_BONDS
  = Err (ValueError "min() arg is an empty sequence")
  /\ __init__ C (Example.arguments 3 3 6 (Some [1; - (1)]) true)
     = Err (ValueError "min() arg is an empty sequence").
Proof.
  intros C self.
  assert (Hcond : ONLY_CATION_CATION_BONDS <> NO_ADDITIONAL_CONDITION).
  { discriminate. }
  assert (Hnone : forall value,
             In value (map snd (_icohplist (Icohpcollection self))) ->
             readable (valences self) ONLY_CATION_CATION_BONDS value
             /\ ~ satisfies_policy (valences self) ONLY_CATION_CATION_BONDS
                                   value).
  { intros value [<- | []]. split.
    - intros _. discriminate.
    - intros (a1 & a2 & v1 & v2 & Hend & _ & Hpositive).
      injection Hend as _ _ _ <-. discriminate Hpositive. }
  destruct (proj1 (proj2 (@empty_adaptation_subset_raises C self
                            ONLY_CATION_CATION_BONDS Hcond)) Hnone)
    as (_ & Hlimit & _ & Hinit).
  split.
  - exact (Hlimit (15 # 100)).
  - exact (Hinit (Example.arguments 3 3 6 (Some [1; - (1)]) true)
                 eq_refl eq_refl eq_refl eq_refl).
Defined.

(* ================================================================= *)
(** ** The condition filter under every condition *)

Lemma combine_app_one {A B : Type} (a : list A) (b : list B) (x : A) (y : B) :
  List.length a = List.length b ->
  combine (a ++ [x]) (b ++ [y]) = combine a b ++ [(x, y)].
Proof.
  revert b. induction a as [|u a IH]; intros [|v b] Hlen; simpl in *;
    try discriminate; [reflexivity|].
  rewrite IH; [reflexivity | lia].
Qed.

Lemma rows_append_selected (s : Selected) (key : string) (icohp : IcohpValue)
    (neighbor : Z) :
  parallel s ->
  parallel (append_selected s key icohp neighbor)
  /\ rows (append_selected s key icohp neighbor)
     = rows s ++ [(key, _length icohp, neighbor, summed_icohp icohp)].
Proof.
  intros (H1 & H2 & H3). split.
  - unfold parallel. simpl. rewrite !length_app. simpl. lia.
  - unfold rows. simpl.
    rewrite !combine_app_one; try reflexivity;
      rewrite ?length_combine; lia.
Qed.

Lemma rows_append_neighbor (isite : Z) (s : Selected) (key : string)
    (icohp : IcohpValue) (atomnr1 atomnr2 : Z) :
  parallel s ->
  parallel (append_neighbor isite s key icohp atomnr1 atomnr2)
  /\ rows (append_neighbor isite s key icohp atomnr1 atomnr2)
     = rows s ++ step_rows isite key icohp atomnr1 atomnr2.
Proof.
  intro Hs. unfold append_neighbor, step_rows.
  destruct (atomnr1 =? isite)%Z; [apply rows_append_selected; exact Hs|].
  destruct (atomnr2 =? isite)%Z; [apply rows_append_selected; exact Hs|].
  split; [exact Hs | symmetry; apply app_nil_r].
Qed.

Lemma In_step_rows (isite : Z) (key : string) (icohp : IcohpValue)
    (atomnr1 atomnr2 : Z) (row : string * Q * Z * Q) :
  In row (step_rows isite key icohp atomnr1 atomnr2)
  <-> exists neighbor,
        row = (key, _length icohp, neighbor, summed_icohp icohp)
        /\ other_endpoint isite atomnr1 atomnr2 neighbor.
Proof.
  unfold step_rows, other_endpoint.
  destruct (atomnr1 =? isite)%Z eqn:H1.
  - apply Z.eqb_eq in H1. simpl. split.
    + intros [<- | []]. exists atomnr2. auto.
    + intros (n & -> & [[_ ->] | [Hne _]]); [left; reflexivity | contradiction].
  - apply Z.eqb_neq in H1. destruct (atomnr2 =? isite)%Z eqn:H2.
    + apply Z.eqb_eq in H2. simpl. split.
      * intros [<- | []]. exists atomnr1. auto.
      * intros (n & -> & [[Heq _] | (_ & _ & ->)]);
          [contradiction | left; reflexivity].
    + apply Z.eqb_neq in H2. simpl. split; [contradiction|].
      intros (n & _ & [[Heq _] | (_ & Heq & _)]); contradiction.
Qed.

(** One turn of the filter loop, under any condition. *)
Lemma relevant_atoms_step_rows (valences : option (list Q)) (isite : Z)
    (additional_condition : condition) (s s' : Selected) (key : string)
    (icohp : IcohpValue) :
  relevant_atoms_step valences isite additional_condition s (key, icohp)
    = Ok s' ->
  parallel s ->
  exists atomnr1 atomnr2 selected,
    _get_atomnumber (_atom1 icohp) = Ok atomnr1
    /\ _get_atomnumber (_atom2 icohp) = Ok atomnr2
    /\ condition_holds valences additional_condition icohp atomnr1 atomnr2
       = Ok selected
    /\ parallel s'
    /\ rows s' = rows s ++ (if selected
                            then step_rows isite key icohp atomnr1 atomnr2
                            else []).
Proof.
  intros Hstep Hs. unfold relevant_atoms_step in Hstep.
  apply bind_Ok in Hstep. destruct Hstep as (atomnr1 & H1 & Hstep).
  apply bind_Ok in Hstep. destruct Hstep as (atomnr2 & H2 & Hstep).
  apply bind_Ok in Hstep. destruct Hstep as (selected & Hsel & Hstep).
  injection Hstep as <-.
  exists atomnr1, atomnr2, selected.
  split; [exact H1|]. split; [exact H2|]. split; [exact Hsel|].
  destruct selected.
  - apply rows_append_neighbor. exact Hs.
  - split; [exact Hs | symmetry; apply app_nil_r].
Qed.

Lemma relevant_atoms_loop_rows (valences : option (list Q)) (isite : Z)
    (additional_condition : condition) (icohps : list (string * IcohpValue)) :
  forall s s',
    for_each (relevant_atoms_step valences isite additional_condition)
             icohps s = Ok s' ->
    parallel s ->
    parallel s'
    /\ exists added,
         rows s' = rows s ++ added
         /\ forall row,
              In row added
              <-> row_of_record valences isite additional_condition icohps row.
Proof.
  induction icohps as [|[key icohp] rest IH]; simpl; intros s s' Hrun Hs.
  - injection Hrun as <-. split; [exact Hs|]. exists [].
    split; [symmetry; apply app_nil_r|].
    intros [[[k l] n] v]. simpl. split; [contradiction|].
    intros (? & ? & ? & [] & _).
  - apply bind_Ok in Hrun. destruct Hrun as (s1 & Hstep & Hrest).
    destruct (@relevant_atoms_step_rows valences isite additional_condition
                s s1 key icohp Hstep Hs)
      as (n1 & n2 & selected & H1 & H2 & Hcond & Hs1 & Hrows1).
    destruct (IH s1 s' Hrest Hs1) as (Hs' & added & Hrows & Hadded).
    split; [exact Hs'|].
    exists ((if selected then step_rows isite key icohp n1 n2 else []) ++ added).
    split; [rewrite Hrows, Hrows1, app_assoc; reflexivity|].
    intros [[[k l] n] v]. rewrite in_app_iff, Hadded. simpl. split.
    + intros [Hhead | (icohp' & a1 & a2 & Hin & Hrest')].
      * destruct selected; [|contradiction].
        apply In_step_rows in Hhead. destruct Hhead as (n' & Hrow & Hother).
        injection Hrow as -> -> -> ->.
        exists icohp, n1, n2. repeat split; auto.
      * exists icohp', a1, a2. split; [right; exact Hin | exact Hrest'].
    + intros (icohp' & a1 & a2 & [Hhead | Hin] & Ha1 & Ha2 & Hc & Hother & -> & ->).
      * injection Hhead as -> ->. left.
        rewrite H1 in Ha1. injection Ha1 as ->.
        rewrite H2 in Ha2. injection Ha2 as ->.
        rewrite Hcond in Hc. injection Hc as ->.
        apply In_step_rows. exists n. auto.
      * right. exists icohp', a1, a2. repeat split; auto.
Qed.

Lemma selected_rows (valences : option (list Q)) (isite : Z)
    (icohps : list (string * IcohpValue)) (additional_condition : condition)
    (sel : Selected) :
  _find_relevant_atoms_additional_condition valences isite icohps
                                            additional_condition = Ok sel ->
  forall row,
    In row (rows sel)
    <-> row_of_record valences isite additional_condition icohps row.
Proof.
  intro Hrun. unfold _find_relevant_atoms_additional_condition in Hrun.
  destruct (@relevant_atoms_loop_rows valences isite additional_condition
              icohps no_selection sel Hrun)
    as (_ & added & Hrows & Hadded).
  { unfold parallel. simpl. auto. }
  simpl in Hrows. rewrite Hrows. exact Hadded.
Qed.


Lemma subsequence_refl {A : Type} (l : list A) : subsequence l l.
Proof. induction l; [constructor | apply subsequence_keep; assumption]. Qed.

Lemma subsequence_app {A : Type} (a a' b b' : list A) :
  subsequence a a' -> subsequence b b' -> subsequence (a ++ b) (a' ++ b').
Proof.
  intros Ha Hb. induction Ha; simpl.
  - exact Hb.
  - apply subsequence_skip. exact IHHa.
  - apply subsequence_keep. exact IHHa.
Qed.

Lemma subsequence_of_nil {A : Type} (l : list A) : subsequence [] l.
Proof. induction l; [constructor | apply subsequence_skip; assumption]. Qed.

Lemma subsequence_length {A : Type} (a b : list A) :
  subsequence a b -> (List.length a <= List.length b)%nat.
Proof. intro H. induction H; simpl; lia. Qed.

Lemma narrower_condition (valences : option (list Q)) (c1 c2 : condition)
    (icohp : IcohpValue) (atomnr1 atomnr2 : Z) (selected : bool) :
  narrower c1 c2 = true ->
  condition_holds valences c1 icohp atomnr1 atomnr2 = Ok selected ->
  exists selected',
    condition_holds valences c2 icohp atomnr1 atomnr2 = Ok selected'
    /\ (selected = true -> selected' = true).
Proof.
  intros Hnarrow Hc1.
  destruct c2; try (exists true; split; [reflexivity | auto]; fail);
    destruct c1; try discriminate; simpl in *.
  - apply bind_Ok in Hc1. destruct Hc1 as ([val1 val2] & Hv & Hc1).
    injection Hc1 as <-. rewrite Hv. simpl. eexists. split; [reflexivity|].
    intro H. apply andb_true_iff in H. tauto.
  - apply bind_Ok in Hc1. destruct Hc1 as ([val1 val2] & Hv & Hc1).
    injection Hc1 as <-. eexists. split; [reflexivity|].
    intro H. apply andb_true_iff in H. tauto.
  - apply bind_Ok in Hc1. destruct Hc1 as ([val1 val2] & Hv & Hc1).
    injection Hc1 as <-. rewrite Hv. simpl. eexists. split; [reflexivity|].
    unfold cation_cation, no_anion_cation. intros ->. reflexivity.
Qed.

Lemma narrower_loop (valences : option (list Q)) (isite : Z)
    (c1 c2 : condition) (icohps : list (string * IcohpValue)) :
  narrower c1 c2 = true ->
  forall s1 s2 s1',
    parallel s1 -> parallel s2 ->
    for_each (relevant_atoms_step valences isite c1) icohps s1 = Ok s1' ->
    exists s2' added1 added2,
      for_each (relevant_atoms_step valences isite c2) icohps s2 = Ok s2'
      /\ rows s1' = rows s1 ++ added1
      /\ rows s2' = rows s2 ++ added2
      /\ subsequence added1 added2.
Proof.
  intro Hnarrow.
  induction icohps as [|[key icohp] rest IH]; intros s1 s2 s1' Hs1 Hs2 Hrun.
  - simpl in Hrun. injection Hrun as <-. exists s2, [], [].
    rewrite !app_nil_r. repeat split; constructor.
  - cbn [for_each] in Hrun.
    apply bind_Ok in Hrun. destruct Hrun as (t1 & Hstep & Hrest).
    destruct (@relevant_atoms_step_rows valences isite c1 s1 t1 key icohp
                Hstep Hs1)
      as (n1 & n2 & selected & H1 & H2 & Hcond & Ht1 & Hrows1).
    destruct (narrower_condition valences c1 c2 icohp n1 n2 Hnarrow Hcond)
      as (selected' & Hcond' & Himp).
    assert (Hstep2 : relevant_atoms_step valences isite c2 s2 (key, icohp)
                     = Ok (if selected'
                           then append_neighbor isite s2 key icohp n1 n2
                           else s2)).
    { unfold relevant_atoms_step. rewrite H1. simpl. rewrite H2. simpl.
      rewrite Hcond'. reflexivity. }
    destruct (@relevant_atoms_step_rows valences isite c2 s2 _ key icohp
                Hstep2 Hs2)
      as (m1 & m2 & sel2 & G1 & G2 & Gcond & Ht2 & Hrows2).
    rewrite H1 in G1. injection G1 as <-.
    rewrite H2 in G2. injection G2 as <-.
    rewrite Hcond' in Gcond. injection Gcond as <-.
    destruct (IH t1 _ s1' Ht1 Ht2 Hrest)
      as (s2' & added1 & added2 & Hrun2 & Hr1 & Hr2 & Hsub).
    exists s2',
      ((if selected then step_rows isite key icohp n1 n2 else []) ++ added1),
      ((if selected' then step_rows isite key icohp n1 n2 else []) ++ added2).
    split; [cbn [for_each]; rewrite Hstep2; exact Hrun2|].
    split; [rewrite Hr1, Hrows1, app_assoc; reflexivity|].
    split; [rewrite Hr2, Hrows2, app_assoc; reflexivity|].
    apply subsequence_app; [|exact Hsub].
    destruct selected.
    + rewrite (Himp eq_refl). apply subsequence_refl.
    + apply subsequence_of_nil.
Qed.

(** X5.  The conditions only take bond records away, never add or reorder
    them.  Whatever is selected under a condition is selected, in the same
    order, under condition 0; the cation-cation bonds (6) are among those
    of condition 5; the bonds of condition 3 are among those of condition
    1 and among those of condition 2.  When the filter returns under the
    narrower condition it also returns under the wider one. *)
Theorem conditions_only_narrow (valences : option (list Q)) (isite : Z)
    (icohps : list (string * IcohpValue)) (c1 c2 : condition) (sel1 : Selected) :
  narrower c1 c2 = true ->
  _find_relevant_atoms_additional_condition valences isite icohps c1 = Ok sel1 ->
  exists sel2,
    _find_relevant_atoms_additional_condition valences isite icohps c2 = Ok sel2
    /\ subsequence (rows sel1) (rows sel2)
    /\ (List.length (keys_from_ICOHPs sel1)
        <= List.length (keys_from_ICOHPs sel2))%nat.
Proof.
  intros Hnarrow Hrun.
  assert (Hstart : parallel no_selection) by (unfold parallel; simpl; auto).
  destruct (@narrower_loop valences isite c1 c2 icohps Hnarrow no_selection
              no_selection sel1 Hstart Hstart Hrun)
    as (sel2 & added1 & added2 & Hrun2 & Hr1 & Hr2 & Hsub).
  exists sel2. split; [exact Hrun2|].
  simpl in Hr1, Hr2. rewrite Hr1, Hr2. split; [exact Hsub|].
  destruct (selected_parallel _ _ _ _ Hrun) as (A1 & A2 & A3).
  destruct (selected_parallel _ _ _ _ Hrun2) as (B1 & B2 & B3).
  pose proof (subsequence_length Hsub) as Hlen.
  rewrite <- Hr1, <- Hr2 in Hlen. unfold rows in Hlen.
  rewrite !length_combine in Hlen. lia.
Qed.

Lemma In_combine_left {A B : Type} (a : list A) (b : list B) (x : A) :
  List.length a = List.length b -> In x a -> exists y, In (x, y) (combine a b).
Proof.
  revert b. induction a as [|u a IH]; intros [|v b] Hlen Hin; simpl in *;
    try contradiction; try discriminate.
  destruct Hin as [-> | Hin].
  - exists v. left. reflexivity.
  - destruct (IH b ltac:(lia) Hin) as (y & Hy). exists y. right. exact Hy.
Qed.

Lemma In_keys_rows (s : Selected) (key : string) :
  parallel s -> In key (keys_from_ICOHPs s) ->
  exists length neighbor value, In (key, length, neighbor, value) (rows s).
Proof.
  intros (H1 & H2 & H3) Hin. unfold rows.
  destruct (@In_combine_left _ _ (keys_from_ICOHPs s) (lengths_from_ICOHPs s)
              key (eq_sym H1) Hin) as (l & Hl).
  assert (L2 : List.length (combine (keys_from_ICOHPs s) (lengths_from_ICOHPs s))
               = List.length (neighbors_from_ICOHPs s)).
  { rewrite length_combine. lia. }
  destruct (In_combine_left _ _ _ L2 Hl) as (n & Hn).
  assert (L3 : List.length (combine (combine (keys_from_ICOHPs s)
                                             (lengths_from_ICOHPs s))
                                    (neighbors_from_ICOHPs s))
               = List.length (icohps_from_ICOHPs s)).
  { rewrite !length_combine. lia. }
  destruct (In_combine_left _ _ _ L3 Hn) as (v & Hv).
  exists l, n, v. exact Hv.
Qed.

Lemma NoDup_keys_same_record {A B : Type} (l : list (A * B)) (k : A) (x y : B) :
  NoDup (map fst l) -> In (k, x) l -> In (k, y) l -> x = y.
Proof.
  induction l as [|[k0 z] rest IH]; simpl; intros Hnodup Hx Hy; [contradiction|].
  inversion Hnodup as [|? ? Hnotin Hrest]; subst.
  destruct Hx as [Hx | Hx]; destruct Hy as [Hy | Hy].
  - congruence.
  - injection Hx as -> ->. exfalso. apply Hnotin.
    apply (in_map fst) in Hy. exact Hy.
  - injection Hy as -> ->. exfalso. apply Hnotin.
    apply (in_map fst) in Hx. exact Hx.
  - apply IH; assumption.
Qed.

Lemma anion_cation_excludes (val1 val2 : Q) :
  anion_cation val1 val2 = true -> no_anion_cation val1 val2 = false.
Proof.
  unfold anion_cation, no_anion_cation.
  rewrite orb_true_iff, !andb_true_iff, !Qlt_bool_iff. intro H.
  apply orb_false_iff. split; apply andb_false_iff.
  - destruct H as [[H1 H2] | [H1 H2]].
    + left. apply Qlt_bool_false_iff. apply Qlt_le_weak. exact H1.
    + right. apply Qlt_bool_false_iff. apply Qlt_le_weak. exact H1.
  - destruct H as [[H1 H2] | [H1 H2]].
    + right. apply Qlt_bool_false_iff. apply Qlt_le_weak. exact H2.
    + left. apply Qlt_bool_false_iff. apply Qlt_le_weak. exact H2.
Qed.

(** X6.  Conditions 1 and 5 never select the same bond record: a key of the
    dict of a site that is kept as an anion-cation bond is not kept when
    anion-cation bonds are not to be considered. *)
Theorem anion_cation_bonds_left_out (valences : option (list Q)) (isite : Z)
    (icohps : list (string * IcohpValue)) (sel1 sel5 : Selected) :
  NoDup (map fst icohps) ->
  _find_relevant_atoms_additional_condition valences isite icohps
    ONLY_ANION_CATION_BONDS = Ok sel1 ->
  _find_relevant_atoms_additional_condition valences isite icohps
    DO_NOT_CONSIDER_ANION_CATION_BONDS = Ok sel5 ->
  forall key,
    In key (keys_from_ICOHPs sel1) -> ~ In key (keys_from_ICOHPs sel5).
Proof.
  intros Hnodup Hrun1 Hrun5 key Hin1 Hin5.
  pose proof (selected_parallel _ _ _ _ Hrun1) as Hpar1.
  pose proof (selected_parallel _ _ _ _ Hrun5) as Hpar5.
  pose proof (selected_rows _ _ _ _ Hrun1) as Hrows1.
  pose proof (selected_rows _ _ _ _ Hrun5) as Hrows5.
  destruct (In_keys_rows _ Hpar1 Hin1) as (l1 & n1 & v1 & Hrow1).
  destruct (In_keys_rows _ Hpar5 Hin5) as (l5 & n5 & v5 & Hrow5).
  apply Hrows1 in Hrow1. apply Hrows5 in Hrow5.
  destruct Hrow1 as (icohp & a1 & a2 & Hrec & Ha1 & Ha2 & Hc1 & _).
  destruct Hrow5 as (icohp' & b1 & b2 & Hrec' & Hb1 & Hb2 & Hc5 & _).
  pose proof (NoDup_keys_same_record _ _ _ _ Hnodup Hrec Hrec') as <-.
  rewrite Ha1 in Hb1. injection Hb1 as <-.
  rewrite Ha2 in Hb2. injection Hb2 as <-.
  simpl in Hc1, Hc5.
  destruct (endpoint_valences valences a1 a2) as [[val1 val2]|e]; simpl in *;
    [|discriminate].
  injection Hc1 as Hc1. injection Hc5 as Hc5.
  rewrite (anion_cation_excludes _ _ Hc1) in Hc5. discriminate.
Qed.

(* ================================================================= *)
(** ** What the resolver leaves unbound *)

Lemma In_combine_nth {A B : Type} (a : list A) :
  forall (b : list B) x y,
    In (x, y) (combine a b) ->
    exists i, nth_error a i = Some x /\ nth_error b i = Some y.
Proof.
  induction a as [|u a IH]; intros [|v b] x y Hin; simpl in Hin;
    try contradiction.
  destruct Hin as [Heq | Hin].
  - injection Heq as -> ->. exists 0%nat. auto.
  - destruct (IH b x y Hin) as (i & Ha & Hb). exists (S i). auto.
Qed.

Lemma resolve_step_monotone (C : Collaborators) (r : Resolution)
    (neigh_new : PeriodicNeighbor) :
  (forall x, In x (combine (copied_neighbors_from_ICOHPs
                              (resolve_step C r neigh_new))
                           (copied_distances_from_ICOHPs
                              (resolve_step C r neigh_new))) ->
             In x (combine (copied_neighbors_from_ICOHPs r)
                           (copied_distances_from_ICOHPs r)))
  /\ (forall site, In site (_list_neighsite r) ->
                   In site (_list_neighsite (resolve_step C r neigh_new)))
  /\ (forall dist,
        In (nn_index neigh_new, dist)
           (combine (copied_neighbors_from_ICOHPs r)
                    (copied_distances_from_ICOHPs r)) ->
        length_matches dist (nn_distance neigh_new) ->
        In (nn_site neigh_new) (_list_neighsite (resolve_step C r neigh_new))).
Proof.
  unfold resolve_step.
  destruct (find_in_pool (nn_distance neigh_new) (nn_index neigh_new)
              (copied_distances_from_ICOHPs r)
              (copied_neighbors_from_ICOHPs r) 0) as [idist|] eqn:Hfind; simpl.
  - split; [|split].
    + intros x Hx. apply (combine_delete_at_incl _ _ _ _ Hx).
    + intros site Hsite. apply in_or_app. left. exact Hsite.
    + intros dist _ _. apply in_or_app. right. left. reflexivity.
  - split; [auto|]. split; [auto|].
    intros dist Hin Hclose. exfalso.
    apply In_combine_nth in Hin. destruct Hin as (i & Hn & Hd).
    apply (proj1 (find_in_pool_none _ _ _ _) Hfind i).
    exists dist, (nn_index neigh_new). auto.
Qed.

Lemma resolve_walk_monotone (C : Collaborators) (walk : list PeriodicNeighbor) :
  forall r,
    let r' := fold_left (resolve_step C) walk r in
    (forall x, In x (combine (copied_neighbors_from_ICOHPs r')
                             (copied_distances_from_ICOHPs r')) ->
               In x (combine (copied_neighbors_from_ICOHPs r)
                             (copied_distances_from_ICOHPs r)))
    /\ (forall site, In site (_list_neighsite r) -> In site (_list_neighsite r'))
    /\ (forall neigh dist,
          In neigh walk ->
          In (nn_index neigh, dist)
             (combine (copied_neighbors_from_ICOHPs r')
                      (copied_distances_from_ICOHPs r')) ->
          length_matches dist (nn_distance neigh) ->
          In (nn_site neigh) (_list_neighsite r')).
Proof.
  induction walk as [|x rest IH]; intro r; simpl.
  - split; [auto|]. split; [auto|]. intros neigh dist [].
  - destruct (IH (resolve_step C r x)) as (Hpool & Hgrow & Hleft).
    destruct (resolve_step_monotone C r x) as (Hpool1 & Hgrow1 & Hbind).
    split; [|split].
    + intros y Hy. apply Hpool1, Hpool, Hy.
    + intros site Hsite. apply Hgrow, Hgrow1, Hsite.
    + intros neigh dist [<- | Hin] Hin' Hclose.
      * apply Hgrow. apply (Hbind dist); [|exact Hclose].
        apply Hpool1, Hpool. exact Hin'.
      * apply (Hleft neigh dist Hin Hin' Hclose).
Qed.

(** X7.  The walk binds each search result at most once and binds as long as
    it can: no more neighbours are resolved than the search returned, and
    a candidate is left in the pool only if every search result it could
    be bound to (same site index, distance passing the test against its
    length) has been bound, to this or to another candidate. *)
Theorem resolver_binds_while_it_can (C : Collaborators)
    (start : list PeriodicNeighbor) (neighbors : list Z) (lengths : list Q) :
  let r := resolve C start neighbors lengths in
  (List.length (_list_neighsite r) <= List.length start)%nat
  /\ (forall pair,
        In pair (combine (copied_neighbors_from_ICOHPs r)
                         (copied_distances_from_ICOHPs r)) ->
        In pair (combine neighbors lengths))
  /\ (forall neigh dist,
        In neigh start ->
        In (nn_index neigh, dist)
           (combine (copied_neighbors_from_ICOHPs r)
                    (copied_distances_from_ICOHPs r)) ->
        length_matches dist (nn_distance neigh) ->
        In (nn_site neigh) (_list_neighsite r)).
Proof.
  intro r. unfold r, resolve.
  destruct (resolve_walk_monotone C (sorted nn_distance start)
              (start_resolution neighbors lengths)) as (Hpool & _ & Hleft).
  split; [|split].
  - destruct (resolved_in_walk_order C (sorted nn_distance start)
                (start_resolution neighbors lengths)) as (picked & Hsub & Hlist).
    rewrite Hlist. simpl.
    apply subsequence_length in Hsub. rewrite length_map in Hsub.
    rewrite <- (Permutation_length (sorted_perm nn_distance start)) in Hsub.
    exact Hsub.
  - exact Hpool.
  - intros neigh dist Hin. apply Hleft.
    apply (Permutation_in neigh (sorted_perm nn_distance start)). exact Hin.
Qed.

(* ================================================================= *)
(** ** The checks of the constructor *)

Lemma condition_of_code_range (code : Z) :
  (exists c, condition_of_code code = Some c) <-> (0 <= code <= 6)%Z.
Proof.
  split.
  - intros (c & H). destruct code as [|p|p]; [lia | | discriminate].
    destruct p as [ [ [p | p | ] | [p | p | ] | ] | [ [p | p | ] | [p | p | ] | ] | ];
      simpl in H; try discriminate; lia.
  - intro H.
    assert (Hcases : (code = 0 \/ code = 1 \/ code = 2 \/ code = 3
                      \/ code = 4 \/ code = 5 \/ code = 6)%Z) by lia.
    destruct Hcases as [-> | [-> | [-> | [-> | [-> | [-> | ->]]]]]];
      eexists; reflexivity.
Qed.

(** What [init_setup] stores comes from the arguments. *)
Lemma init_setup_fields (C : Collaborators) (args : InitArgs) (self : Setup) :
  init_setup C args = Ok self ->
  condition_of_code (arg_additional_condition args)
  = Some (additional_condition self)
  /\ determine_valences C args (additional_condition self) = Ok (valences self)
  /\ check_valences (valences self) (additional_condition self) = Ok tt
  /\ structure self = arg_structure args
  /\ lowerlimit self = option_map fst (arg_limits args)
  /\ upperlimit self = option_map snd (arg_limits args).
Proof.
  unfold init_setup. intro H.
  apply bind_Ok in H. destruct H as (ICOHP & _ & H).
  apply bind_Ok in H. destruct H as (u & _ & H).
  apply bind_Ok in H. destruct H as (lists & _ & H).
  apply bind_Ok in H. destruct H as (c & Hc & H).
  apply bind_Ok in H. destruct H as (vals & Hvals & H).
  apply bind_Ok in H. destruct H as ([] & Hcheck & H).
  injection H as <-. simpl.
  unfold check_additional_condition in Hc.
  destruct (condition_of_code (arg_additional_condition args)) as [c'|];
    [|discriminate].
  injection Hc as ->. auto 10.
Qed.

(** X8.  A code of [additional_condition] outside 0..6 is refused: the
    constructor never returns an object for it, and when the bond lists
    are read successfully the exception is the [ValueError] of the check
    of the code. *)
Theorem unknown_condition_code_refused (C : Collaborators) (args : InitArgs) :
  (arg_additional_condition args < 0 \/ 6 < arg_additional_condition args)%Z ->
  (exists e, __init__ C args = Err e)
  /\ (forall ICOHP lists,
        read_icohp C args = Ok ICOHP ->
        check_identifiers args = Ok tt ->
        read_additional_data C args = Ok lists ->
        exists msg, __init__ C args = Err (ValueError msg)).
Proof.
  intro Hcode.
  assert (Hnone : condition_of_code (arg_additional_condition args) = None).
  { destruct (condition_of_code (arg_additional_condition args)) as [c|] eqn:Hc;
      [|reflexivity].
    assert (Hrange : (0 <= arg_additional_condition args <= 6)%Z).
    { apply condition_of_code_range. exists c. exact Hc. }
    lia. }
  split.
  - destruct (init_setup C args) as [self|e] eqn:Hsetup.
    + apply init_setup_fields in Hsetup. destruct Hsetup as (Hc & _).
      congruence.
    + exists e. unfold __init__. rewrite Hsetup. reflexivity.
  - intros ICOHP lists Hicohp Hids Hlists. eexists.
    unfold __init__, init_setup. rewrite Hicohp. simpl. rewrite Hids. simpl.
    rewrite Hlists. simpl. unfold check_additional_condition.
    rewrite Hnone. reflexivity.
Qed.

Lemma isclose_zero (v : Q) :
  isclose default_rtol default_atol v 0 = true <-> Qabs v <= 1 # 100000000.
Proof.
  rewrite isclose_iff. unfold default_rtol, default_atol.
  assert (Hl : Qabs (v - 0) == Qabs v).
  { apply Qabs_wd. unfold Qminus. rewrite Qplus_0_r. reflexivity. }
  assert (Hr : (1 # 100000000) + (1 # 100000) * Qabs 0 == 1 # 100000000).
  { reflexivity. }
  rewrite Hl, Hr. reflexivity.
Qed.

(** X9.  The guard against valences that are all zero looks at the given
    valences through [np.allclose]: it stops the constructor exactly when
    the condition is 1, 3, 5 or 6 and no valence exceeds 1e-8 in absolute
    value (an empty list counts as all zero).  One valence beyond 1e-8 is
    enough to pass, and conditions 0, 2 and 4 always pass. *)
Theorem valence_guard_tolerance (vs : list Q) (additional_condition : condition) :
  ((exists e, check_valences (Some vs) additional_condition = Err e)
   <-> in_1_3_5_6 additional_condition = true
       /\ forall v, In v vs -> Qabs v <= 1 # 100000000)
  /\ (in_1_3_5_6 additional_condition = false ->
      check_valences (Some vs) additional_condition = Ok tt)
  /\ (forall v,
        In v vs -> (1 # 100000000) < Qabs v ->
        check_valences (Some vs) additional_condition = Ok tt).
Proof.
  set (all_zero := forallb (fun v => isclose default_rtol default_atol v 0) vs).
  assert (Hall : all_zero = true
                 <-> forall v, In v vs -> Qabs v <= 1 # 100000000).
  { unfold all_zero. rewrite forallb_forall. split.
    - intros H v Hv. apply isclose_zero. apply H. exact Hv.
    - intros H v Hv. apply isclose_zero. apply H. exact Hv. }
  unfold check_valences, valences_all_zero. fold all_zero. simpl.
  split; [|split].
  - split.
    + intros (e & He).
      destruct all_zero eqn:Hzero;
        destruct (in_1_3_5_6 additional_condition); simpl in He;
        try discriminate.
      split; [reflexivity | apply Hall; reflexivity].
    + intros [Hc Hsmall]. apply Hall in Hsmall. rewrite Hsmall, Hc.
      eexists. reflexivity.
  - intros ->. rewrite andb_false_r. reflexivity.
  - intros v Hin Hbig.
    destruct all_zero eqn:Hzero; [|reflexivity].
    exfalso. exact (Qlt_not_le _ _ Hbig (proj1 Hall eq_refl v Hin)).
Qed.

(** X10.  When no valences are given, charges are not asked for and the
    valence estimator fails with a [ValueError], conditions 1, 3, 5 and 6
    stop the constructor: it never returns an object, and when the bond
    lists are read successfully the exception is the [ValueError]
    "Valences cannot be assigned, ...". *)
Theorem failed_valence_estimate_refused (C : Collaborators) (args : InitArgs)
    (msg : string) (c : condition) :
  arg_valences args = None ->
  arg_valences_from_charges args = false ->
  get_valences C (arg_structure args) = Err (ValueError msg) ->
  condition_of_code (arg_additional_condition args) = Some c ->
  in_1_3_5_6 c = true ->
  (exists e, __init__ C args = Err e)
  /\ (forall ICOHP lists,
        read_icohp C args = Ok ICOHP ->
        check_identifiers args = Ok tt ->
        read_additional_data C args = Ok lists ->
        __init__ C args
        = Err (ValueError
      "Valences cannot be assigned, additional_conditions 1, 3, 5 and 6 will not work")).
Proof.
  intros Hnone Hcharges Hestimate Hc Hcond.
  assert (Hdet : determine_valences C args c
                 = Err (ValueError
      "Valences cannot be assigned, additional_conditions 1, 3, 5 and 6 will not work")).
  { unfold determine_valences.
    rewrite Hnone, Hcharges, Hestimate, Hcond. reflexivity. }
  split.
  - destruct (init_setup C args) as [self|e] eqn:Hsetup.
    + apply init_setup_fields in Hsetup. destruct Hsetup as (Hc' & Hvals & _).
      rewrite Hc in Hc'. injection Hc' as Heq. rewrite <- Heq in Hvals.
      rewrite Hdet in Hvals. discriminate.
    + exists e. unfold __init__. rewrite Hsetup. reflexivity.
  - intros ICOHP lists Hicohp Hids Hlists.
    unfold __init__, init_setup. rewrite Hicohp. simpl. rewrite Hids. simpl.
    rewrite Hlists. simpl. unfold check_additional_condition.
    rewrite Hc. simpl. rewrite Hdet. reflexivity.
Qed.

(** X11.  An object without valences refuses every request that is restricted
    to cations: the two aggregators called with [onlycation_isites=True]
    (the default) raise "No valences are provided", whether or not the
    sites are listed, [anion_types] raises "No cations and anions
    defined", and [get_light_structure_environment] asked for the cation
    environments returns no object. *)
Theorem cation_requests_need_valences (C : Collaborators) (self : Setup) :
  valences self = None ->
  anion_types self = Err (ValueError "No cations and anions defined")
  /\ (forall ce isites,
        get_info_icohps_to_neighbors self ce isites true
        = Err (ValueError "No valences are provided")
        /\ get_info_icohps_between_neighbors C self ce isites true
           = Err (ValueError "No valences are provided"))
  /\ (forall ce,
        exists e,
          get_light_structure_environment C self ce true None = Err e).
Proof.
  intro Hvals. split; [|split].
  - unfold anion_types. rewrite Hvals. reflexivity.
  - intros ce isites.
    unfold get_info_icohps_to_neighbors, get_info_icohps_between_neighbors,
      select_isites.
    rewrite Hvals. split; reflexivity.
  - intro ce. unfold get_light_structure_environment, light_lists.
    destruct (for_each (geometry_step C self) (enumerate (list_coords ce))
                       ([], [], [])) as [lists|e]; simpl.
    + unfold cation_lists. rewrite Hvals. eexists. reflexivity.
    + eexists. reflexivity.
Qed.

(* ================================================================= *)
(** ** What the aggregators report *)

Lemma add_neighbor_bond_rows (self : Setup) (ival : Z) (s s' : Sums)
    (bond : string * Q) :
  sums_parallel s ->
  add_neighbor_bond self ival s bond = Ok s' ->
  sums_parallel s'
  /\ sums_rows s' = sums_rows s ++ [(fst bond, snd bond, ival)].
Proof.
  intros (H1 & H2 & H3) Hadd. destruct bond as [keys icohpsum].
  unfold add_neighbor_bond in Hadd.
  apply bind_Ok in Hadd. destruct Hadd as (pair & _ & Hadd).
  injection Hadd as <-. split.
  - unfold sums_parallel. simpl. rewrite !length_app. simpl. lia.
  - unfold sums_rows. simpl.
    rewrite !combine_app_one; try reflexivity; rewrite ?length_combine; lia.
Qed.

Lemma In_enumerate_range {A : Type} (l : list A) (i : Z) (x : A) :
  In (i, x) (enumerate l) -> (0 <= i < len l)%Z.
Proof.
  intro Hin. apply In_enumerate_from in Hin. destruct Hin as (j & -> & Hj).
  assert (j < List.length l)%nat by (apply nth_error_Some; congruence).
  unfold len. lia.
Qed.

(** X12.  In the result of [get_info_icohps_to_neighbors] the labels, the
    ICOHPs, the atom pairs and the central sites are lists of one length,
    and every bond listed is a bond that the evaluation pass stored for
    its central site, which is a site of the structure among the sites
    that were asked for. *)
Theorem neighbor_info_lists_stored_bonds (self : Setup) (ce : Environments)
    (isites : option (list Z)) (onlycation_isites : bool)
    (info : ICOHPNeighborsInfo.t) :
  get_info_icohps_to_neighbors self ce isites onlycation_isites = Ok info ->
  exists sites centers,
    select_isites self isites onlycation_isites = Ok sites
    /\ ICOHPNeighborsInfo.central_isites info = Some centers
    /\ List.length (ICOHPNeighborsInfo.labels info)
       = List.length (ICOHPNeighborsInfo.list_icohps info)
    /\ List.length (ICOHPNeighborsInfo.atoms info)
       = List.length (ICOHPNeighborsInfo.list_icohps info)
    /\ List.length centers = List.length (ICOHPNeighborsInfo.list_icohps info)
    /\ Forall (reported_bond self ce sites)
              (combine (combine (ICOHPNeighborsInfo.labels info)
                                (ICOHPNeighborsInfo.list_icohps info))
                       centers).
Proof.
  intro Hrun. unfold get_info_icohps_to_neighbors in Hrun.
  apply bind_Ok in Hrun. destruct Hrun as (sites & Hsites & Hrun).
  apply bind_Ok in Hrun. destruct Hrun as (s & Hloop & Hrun).
  injection Hrun as <-. simpl.
  exists sites, (final_isites s). split; [exact Hsites|].
  split; [reflexivity|].
  assert (Hinv : sums_parallel s
                 /\ Forall (reported_bond self ce sites) (sums_rows s)).
  { revert Hloop.
    apply (for_each_invariant
             (fun s => sums_parallel s
                       /\ Forall (reported_bond self ce sites) (sums_rows s))).
    - intros s0 [ival site] s1 Hentry Hs0 Hbody. simpl in Hbody.
      destruct (existsb (Z.eqb ival) sites) eqn:Hmember.
      2:{ injection Hbody as <-. exact Hs0. }
      apply existsb_exists in Hmember.
      destruct Hmember as (i & Hi & Heq). apply Z.eqb_eq in Heq. subst i.
      apply In_enumerate_range in Hentry.
      apply bind_Ok in Hbody. destruct Hbody as (keys & Hkeys & Hbody).
      apply bind_Ok in Hbody. destruct Hbody as (icohps & Hicohps & Hbody).
      revert Hbody.
      apply (for_each_invariant
               (fun s => sums_parallel s
                         /\ Forall (reported_bond self ce sites) (sums_rows s)));
        [|exact Hs0].
      intros s2 bond s3 Hbond [Hpar Hall] Hadd.
      destruct (add_neighbor_bond_rows _ _ _ Hpar Hadd) as [Hpar' Hrows].
      split; [exact Hpar'|]. rewrite Hrows. apply Forall_app.
      split; [exact Hall|]. constructor; [|constructor].
      destruct bond as [label value]. simpl.
      split; [exact Hentry|]. split; [exact Hi|].
      exists keys, icohps. auto.
    - split; [unfold sums_parallel; simpl; auto | constructor]. }
  destruct Hinv as [(H1 & H2 & H3) Hall]. auto.
Qed.

(** X13.  [get_info_icohps_to_neighbors] looks at the sites asked for as a set:
    two lists of sites with the same members, in any order and with any
    repetitions, give the same result. *)
Theorem neighbor_info_ignores_order_of_sites (self : Setup) (ce : Environments)
    (isites1 isites2 : list Z) (onlycation_isites : bool) :
  (forall i, In i isites1 <-> In i isites2) ->
  get_info_icohps_to_neighbors self ce (Some isites1) onlycation_isites
  = get_info_icohps_to_neighbors self ce (Some isites2) onlycation_isites.
Proof.
  intro Hsame. unfold get_info_icohps_to_neighbors, select_isites.
  destruct (valences self); destruct onlycation_isites; simpl;
    try reflexivity;
    (apply bind_cong; [|reflexivity];
     apply for_each_ext; intros s entry _;
     assert (Hmember : existsb (Z.eqb (fst entry)) isites1
                       = existsb (Z.eqb (fst entry)) isites2);
     [ destruct (existsb (Z.eqb (fst entry)) isites1) eqn:H1;
       destruct (existsb (Z.eqb (fst entry)) isites2) eqn:H2;
       try reflexivity;
       [ apply existsb_exists in H1; destruct H1 as (i & Hi & Heq);
         apply Hsame in Hi;
         assert (H2' : existsb (Z.eqb (fst entry)) isites2 = true)
           by (apply existsb_exists; exists i; auto);
         congruence
       | apply existsb_exists in H2; destruct H2 as (i & Hi & Heq);
         apply Hsame in Hi;
         assert (H1' : existsb (Z.eqb (fst entry)) isites1 = true)
           by (apply existsb_exists; exists i; auto);
         congruence ]
     | rewrite Hmember; reflexivity ]).
Qed.

(** X14.  [get_info_icohps_between_neighbors] pairs the neighbours of a site:
    when none of the sites worked on has two neighbours the result holds
    no bond at all, and no collaborator is asked anything. *)
Theorem pair_info_needs_two_neighbors (C : Collaborators) (self : Setup)
    (ce : Environments) (isites : option (list Z)) (onlycation_isites : bool)
    (sites : list Z) :
  select_isites self isites onlycation_isites = Ok sites ->
  (forall isite,
     In isite sites ->
     exists neighsite,
       py_index (list_neighsite ce) isite = Ok neighsite
       /\ (List.length neighsite <= 1)%nat) ->
  get_info_icohps_between_neighbors C self ce isites onlycation_isites
  = Ok (no_bonds None).
Proof.
  intros Hsites Hfew. unfold get_info_icohps_between_neighbors.
  rewrite Hsites. simpl.
  assert (Hloop : forall l,
             (forall isite, In isite l -> In isite sites) ->
             for_each
               (fun s isite =>
                  neighsite <- py_index (list_neighsite ce) isite ;;
                  for_each (between_pair C self)
                           (list_prod (enumerate neighsite) (enumerate neighsite))
                           s)
               l (no_sums) = Ok no_sums).
  { induction l as [|isite rest IH]; intro Hin; [reflexivity|].
    cbn [for_each].
    destruct (Hfew isite (Hin isite (or_introl eq_refl)))
      as (neighsite & Hindex & Hlen).
    rewrite Hindex. simpl.
    assert (Hpairs : for_each (between_pair C self)
                       (list_prod (enumerate neighsite) (enumerate neighsite))
                       no_sums = Ok no_sums).
    { destruct neighsite as [|x [|y more]]; [reflexivity | reflexivity|].
      simpl in Hlen. lia. }
    rewrite Hpairs. simpl. apply IH.
    intros i Hi. apply Hin. right. exact Hi. }
  rewrite (Hloop sites (fun i H => H)). reflexivity.
Qed.

(** One turn of the loop over the bond records of a pair of neighbours
    that are images of one atom: the count grows by one at most, and not
    at all once a record has been counted. *)
Lemma between_step_same_atom (self : Setup) (index : Z) (translation : vec3 Z)
    (s s' : Sums) (done done' : bool) (icohp : IcohpValue) :
  between_step self index index translation (s, done) icohp = Ok (s', done') ->
  (done = true -> s' = s /\ done' = true)
  /\ (done = false ->
      (s' = s /\ done' = false)
      \/ (number_bonds s' = (number_bonds s + 1)%Z /\ done' = true)).
Proof.
  unfold between_step. intro Hstep.
  apply bind_Ok in Hstep. destruct Hstep as (atomnr1 & _ & Hstep).
  apply bind_Ok in Hstep. destruct Hstep as (atomnr2 & _ & Hstep).
  destruct ((index =? atomnr1)%Z && (index =? atomnr2)%Z
            || (index =? atomnr2)%Z && (index =? atomnr1)%Z) eqn:Htouch.
  2:{ injection Hstep as <- <-. split; auto. }
  assert (Hsame : (atomnr1 =? atomnr2)%Z = true).
  { apply Z.eqb_eq.
    apply orb_true_iff in Htouch. rewrite !andb_true_iff, !Z.eqb_eq in Htouch.
    lia. }
  rewrite Hsame in Hstep. simpl in Hstep.
  destruct done; simpl in Hstep.
  - injection Hstep as <- <-. split; [auto | discriminate].
  - split; [discriminate|]. intros _.
    destruct (vec3_eqb translation (_translation icohp)
              || vec3_eqb translation (vec3_map Z.opp (_translation icohp))).
    + apply bind_Ok in Hstep. destruct Hstep as (s1 & Hadd & Hstep).
      injection Hstep as <- <-. right. split; [|reflexivity].
      unfold add_pair_bond in Hadd.
      apply bind_Ok in Hadd. destruct Hadd as (pair & _ & Hadd).
      injection Hadd as <-. reflexivity.
    + injection Hstep as <- <-. left. auto.
Qed.

(** X15.  Two neighbours of a site that are images of one and the same atom of
    the structure add at most one bond to the result, however many bond
    records between that atom and its images fit the translation. *)
Theorem same_atom_pair_counts_once (C : Collaborators) (self : Setup)
    (s s' : Sums) (in_site in_site2 : Z) (n_site n_site2 : PeriodicSite)
    (index : Z) :
  _get_original_site C (structure self) n_site = Ok index ->
  _get_original_site C (structure self) n_site2 = Ok index ->
  between_pair C self s ((in_site, n_site), (in_site2, n_site2)) = Ok s' ->
  (number_bonds s <= number_bonds s' <= number_bonds s + 1)%Z.
Proof.
  intros H1 H2 Hpair. unfold between_pair in Hpair.
  destruct (in_site <? in_site2)%Z.
  2:{ injection Hpair as <-. lia. }
  rewrite H1 in Hpair. simpl in Hpair. rewrite H2 in Hpair. simpl in Hpair.
  apply bind_Ok in Hpair. destruct Hpair as (icohps & _ & Hpair).
  apply bind_Ok in Hpair. destruct Hpair as ([s'' done''] & Hloop & Hpair).
  injection Hpair as <-.
  assert (Hinv : (done'' = false -> number_bonds s'' = number_bonds s)
                 /\ (number_bonds s <= number_bonds s''
                     <= number_bonds s + 1)%Z).
  { revert Hloop.
    apply (for_each_invariant
             (fun st : Sums * bool =>
                (snd st = false -> number_bonds (fst st) = number_bonds s)
                /\ (number_bonds s <= number_bonds (fst st)
                    <= number_bonds s + 1)%Z)).
    - intros [s0 d0] icohp [s1 d1] _ [Hfresh Hbound] Hstep. simpl in *.
      apply between_step_same_atom in Hstep. destruct Hstep as [Hdone Hopen].
      destruct d0.
      + destruct (Hdone eq_refl) as [-> ->]. split; [discriminate | exact Hbound].
      + destruct (Hopen eq_refl) as [[-> ->] | [Hcount ->]].
        * split; [exact Hfresh | exact Hbound].
        * split; [discriminate|]. rewrite Hcount, (Hfresh eq_refl). lia.
    - simpl. split; [reflexivity | lia]. }
  destruct Hinv as [_ Hbound]. exact Hbound.
Qed.

(* ================================================================= *)
(** ** Output assembly *)

Lemma for_each_fails {A S : Type} (body : S -> A -> result S) (l : list A)
    (x : A) :
  In x l -> (forall s, exists e, body s x = Err e) ->
  forall s, exists e, for_each body l s = Err e.
Proof.
  induction l as [|y rest IH]; simpl; intros Hin Hfail s; [contradiction|].
  destruct Hin as [-> | Hin].
  - destruct (Hfail s) as (e & He). exists e. rewrite He. reflexivity.
  - destruct (body s y) as [s1|e]; simpl.
    + apply IH; assumption.
    + exists e. reflexivity.
Qed.

Lemma In_enumerate_of_In {A : Type} (l : list A) (x : A) :
  In x l -> forall k, exists i, In (i, x) (enumerate_from k l).
Proof.
  induction l as [|y rest IH]; simpl; intros Hin k; [contradiction|].
  destruct Hin as [-> | Hin].
  - exists k. left. reflexivity.
  - destruct (IH Hin (k + 1)%Z) as (i & Hi). exists i. right. exact Hi.
Qed.

(** X16.  A site with more than 13 resolved neighbours makes
    [get_light_structure_environment] raise, whatever sites are asked
    for: nothing is returned for the other sites either. *)
Theorem more_than_13_neighbors_refused (C : Collaborators) (self : Setup)
    (ce : Environments) (only_cation_environments : bool)
    (only_indices : option (list Z)) (_neigh_coords : list (vec3 Q)) :
  In _neigh_coords (list_coords ce) ->
  (13 < List.length _neigh_coords)%nat ->
  exists e,
    get_light_structure_environment C self ce only_cation_environments
                                    only_indices = Err e.
Proof.
  intros Hin Hlong.
  destruct (In_enumerate_of_In _ _ Hin 0%Z) as (ival & Hentry).
  destruct (@for_each_fails _ _ (geometry_step C self)
              (enumerate (list_coords ce)) (ival, _neigh_coords) Hentry)
    with (s := (@nil (option string), @nil (option Q),
                @nil (option (list Z)))) as (e & He).
  { intros [[symbols csms] permuts]. simpl.
    assert (Hlen : (13 <? len _neigh_coords)%Z = true).
    { apply Z.ltb_lt. unfold len. lia. }
    rewrite Hlen. eexists. reflexivity. }
  exists e. unfold get_light_structure_environment, light_lists.
  rewrite He. reflexivity.
Qed.

Lemma range_succ (n : nat) : range (S n) = range n ++ [Z.of_nat n].
Proof. unfold range. rewrite seq_S, map_app. reflexivity. Qed.

Lemma len_app_one_nat {A : Type} (l : list A) (x : A) :
  len (l ++ [x]) = Z.of_nat (S (List.length l)).
Proof. unfold len. rewrite length_app. simpl. f_equal. lia. Qed.

Lemma py_index_In {A : Type} (l : list A) (i : Z) (x : A) :
  py_index l i = Ok x -> In x l.
Proof.
  unfold py_index.
  destruct ((if (i <? 0)%Z then (i + len l)%Z else i) <? 0)%Z; [discriminate|].
  destruct (nth_error l _) as [y|] eqn:Hnth; [|discriminate].
  intro H. injection H as <-. apply (nth_error_In _ _ Hnth).
Qed.

Section FromLobsterFacts.

Variable list_ce_symbol : option (list (option string)).
Variable list_csm : list (option Q).
Variable list_permutation : list (option (list Z)).
Variable list_neighsite : list (list PeriodicSite).
Variable list_neighisite : list (option (list Z)).
Variable structure : Structure.
Hypothesis Hpresent : Forall (fun x => x <> None) list_neighisite.

Lemma assemble_neighbors_indices (neighisite : list Z)
    (entries : list (Z * PeriodicSite)) (all0 : list NbSite) :
  forall all_nbs here c all_nbs' here' c',
    for_each (assemble_neighbor structure neighisite) entries
             (all_nbs, here, c) = Ok (all_nbs', here', c') ->
    c = len all_nbs ->
    range (List.length all0) ++ here = range (List.length all_nbs) ->
    Forall filled all_nbs ->
    c' = len all_nbs'
    /\ range (List.length all0) ++ here' = range (List.length all_nbs')
    /\ Forall filled all_nbs'.
Proof.
  induction entries as [|[idx neigh_site] rest IH];
    intros all_nbs here c all_nbs' here' c' Hrun Hc Hrange Hfilled.
  - simpl in Hrun. injection Hrun as <- <- <-. auto.
  - cbn [for_each] in Hrun.
    apply bind_Ok in Hrun. destruct Hrun as ([[all1 here1] c1] & Hstep & Hrest).
    unfold assemble_neighbor in Hstep.
    apply bind_Ok in Hstep. destruct Hstep as (index & _ & Hstep).
    apply bind_Ok in Hstep. destruct Hstep as (site & _ & Hstep).
    apply bind_Ok in Hstep. destruct Hstep as (cell & _ & Hstep).
    injection Hstep as <- <- <-.
    apply (IH _ _ _ all_nbs' here' c' Hrest).
    + rewrite len_app_one_nat. subst c. unfold len. lia.
    + rewrite length_app. simpl. rewrite Nat.add_1_r, range_succ.
      rewrite app_assoc, Hrange. subst c. reflexivity.
    + apply Forall_app. split; [exact Hfilled|].
      constructor; [|constructor]. unfold filled. simpl.
      repeat split; discriminate.
Qed.

Lemma assemble_site_invariant (a a' : Assembly) (isite : Z) :
  assemble_site list_ce_symbol list_csm list_permutation list_neighsite
                list_neighisite structure a isite = Ok a' ->
  assembly_invariant a ->
  assembly_invariant a'
  /\ List.length (asm_neighbors_sets a')
     = S (List.length (asm_neighbors_sets a)).
Proof.
  intros Hstep (Hc & Hrange & Hsets & Hlen & Hfilled).
  unfold assemble_site in Hstep.
  apply bind_Ok in Hstep. destruct Hstep as (ce_dict & _ & Hstep).
  apply bind_Ok in Hstep. destruct Hstep as (neighisite & Hindex & Hstep).
  apply py_index_In in Hindex.
  rewrite Forall_forall in Hpresent. specialize (Hpresent _ Hindex).
  destruct neighisite as [neighisite|]; [|congruence].
  apply bind_Ok in Hstep. destruct Hstep as (neighsite & _ & Hstep).
  apply bind_Ok in Hstep.
  destruct Hstep as ([[all_nbs here] c'] & Hloop & Hstep).
  injection Hstep as <-.
  destruct (@assemble_neighbors_indices neighisite (enumerate neighsite)
              (asm_all_nbs_sites a) (asm_all_nbs_sites a) [] (counter a)
              all_nbs here c' Hloop Hc)
    as (Hc' & Hrange' & Hfilled').
  { apply app_nil_r. }
  { exact Hfilled. }
  split.
  - unfold assembly_invariant. simpl.
    split; [exact Hc'|]. split.
    { rewrite concat_app. simpl. rewrite app_nil_r, Hrange. exact Hrange'. }
    split.
    { rewrite map_app, Hsets. simpl. rewrite app_nil_r. reflexivity. }
    split; [rewrite !length_app; simpl; lia | exact Hfilled'].
  - simpl. rewrite length_app. simpl. lia.
Qed.

Lemma assemble_sites_invariant (isites : list Z) :
  forall a a',
    for_each (assemble_site list_ce_symbol list_csm list_permutation
                            list_neighsite list_neighisite structure)
             isites a = Ok a' ->
    assembly_invariant a ->
    assembly_invariant a'
    /\ List.length (asm_neighbors_sets a')
       = (List.length (asm_neighbors_sets a) + List.length isites)%nat.
Proof.
  induction isites as [|isite rest IH]; intros a a' Hrun Ha.
  - simpl in Hrun. injection Hrun as <-. simpl. split; [exact Ha | lia].
  - cbn [for_each] in Hrun.
    apply bind_Ok in Hrun. destruct Hrun as (a1 & Hstep & Hrest).
    destruct (@assemble_site_invariant a a1 isite Hstep Ha) as [Ha1 Hlen1].
    destruct (IH a1 a' Hrest Ha1) as [Ha' Hlen'].
    split; [exact Ha'|]. simpl. lia.
Qed.

End FromLobsterFacts.

(** X17.  When every site comes with a list of neighbour indices (as it does
    when the lists are those of a [LobsterNeighbors] object),
    [from_Lobster] returns one neighbours set and one coordination
    environment per site of the structure; every entry of [all_nbs_sites]
    stands for a neighbour; and the indices held by the neighbours sets,
    read site after site, are 0, 1, 2, ... up to the number of entries of
    [all_nbs_sites]: each entry belongs to exactly one site. *)
Theorem from_Lobster_numbers_neighbors
    (list_ce_symbol : option (list (option string))) (list_csm : list (option Q))
    (list_permutation : list (option (list Z)))
    (list_neighsite : list (list PeriodicSite))
    (list_neighisite : list (option (list Z))) (structure : Structure)
    (valences : option (list Q)) (lse : LobsterLightStructureEnvironments) :
  Forall (fun x => x <> None) list_neighisite ->
  from_Lobster list_ce_symbol list_csm list_permutation list_neighsite
               list_neighisite structure valences = Ok lse ->
  List.length (neighbors_sets lse) = List.length structure
  /\ List.length (coordination_environments lse) = List.length structure
  /\ Forall filled (all_nbs_sites lse)
  /\ List.concat (map (fun sets => List.concat (map nb_set_indices sets))
                 (neighbors_sets lse))
     = range (List.length (all_nbs_sites lse)).
Proof.
  intros Hpresent Hrun. unfold from_Lobster in Hrun.
  apply bind_Ok in Hrun. destruct Hrun as (a & Hloop & Hrun).
  injection Hrun as <-. simpl.
  destruct (@assemble_sites_invariant list_ce_symbol list_csm list_permutation
              list_neighsite list_neighisite structure Hpresent _ _ _ Hloop)
    as ((Hc & Hrange & Hsets & Hlen & Hfilled) & Hcount).
  { unfold assembly_invariant. simpl. repeat split; constructor. }
  simpl in Hcount. unfold range in Hcount at 1.
  rewrite length_map, length_seq in Hcount.
  split; [exact Hcount|]. split; [lia|]. split; [exact Hfilled|].
  rewrite Hsets. exact Hrange.
Qed.

(* ================================================================= *)
(** ** The [NearNeighbors] interface *)

(** X18.  The species returned by [anion_types] are, without repetition, the
    species of the sites that have a negative valence; a site of valence
    0 or a site beyond the end of the list of valences adds nothing. *)
Theorem anion_types_members (self : Setup) (vals : list Q) :
  valences self = Some vals ->
  exists anions,
    anion_types self = Ok anions
    /\ NoDup anions
    /\ forall species,
         In species anions
         <-> exists i site val,
               nth_error (structure self) i = Some site
               /\ nth_error vals i = Some val
               /\ val < 0
               /\ species_string site = species.
Proof.
  intro Hvals. unfold anion_types. rewrite Hvals. eexists.
  split; [reflexivity|]. split; [apply NoDup_nodup|].
  intro species. rewrite nodup_In, in_map_iff. split.
  - intros ([site val] & Hspecies & Hin). simpl in Hspecies.
    apply filter_In in Hin. destruct Hin as [Hin Hneg]. simpl in Hneg.
    apply Qlt_bool_iff in Hneg.
    apply In_combine_nth in Hin. destruct Hin as (i & Hsite & Hval).
    exists i, site, val. auto.
  - intros (i & site & val & Hsite & Hval & Hneg & Hspecies).
    exists (site, val). split; [exact Hspecies|].
    apply filter_In. split.
    + apply (nth_error_combine_In _ _ _ Hsite Hval).
    + simpl. apply Qlt_bool_iff. exact Hneg.
Qed.

Lemma map_result_Forall2 {A B : Type} (f : A -> result B) (l : list A) :
  forall ys, map_result f l = Ok ys -> Forall2 (fun x y => f x = Ok y) l ys.
Proof.
  induction l as [|x rest IH]; simpl; intros ys H.
  - injection H as <-. constructor.
  - apply bind_Ok in H. destruct H as (y & Hy & H).
    apply bind_Ok in H. destruct H as (ys' & Hys & H).
    injection H as <-. constructor; [exact Hy | apply IH; exact Hys].
Qed.

Lemma Forall2_nth_right {A B : Type} (R : A -> B -> Prop) (l : list A)
    (l' : list B) :
  Forall2 R l l' ->
  forall i y, nth_error l' i = Some y ->
              exists x, nth_error l i = Some x /\ R x y.
Proof.
  intro H. induction H as [|x y l l' Hxy _ IH]; intros [|i] z Hz; simpl in *;
    try discriminate.
  - injection Hz as <-. exists x. auto.
  - apply IH. exact Hz.
Qed.

Lemma nth_error_enumerate_from {A : Type} (l : list A) :
  forall k j i x,
    nth_error (enumerate_from k l) j = Some (i, x) ->
    i = (k + Z.of_nat j)%Z /\ nth_error l j = Some x.
Proof.
  induction l as [|y rest IH]; intros k [|j] i x H; simpl in *;
    try discriminate.
  - injection H as <- <-. split; [lia | reflexivity].
  - destruct (IH _ _ _ _ H) as [Hi Hx]. split; [lia | exact Hx].
Qed.

(** The place read by [l[i]]. *)
Lemma py_index_position {A : Type} (l : list A) (i : Z) (x : A) :
  py_index l i = Ok x
  <-> (0 <= (if (i <? 0)%Z then i + len l else i))%Z
      /\ nth_error l (Z.to_nat (if (i <? 0)%Z then i + len l else i)%Z)
         = Some x.
Proof.
  unfold py_index.
  destruct ((if (i <? 0)%Z then (i + len l)%Z else i) <? 0)%Z eqn:Hneg.
  - apply Z.ltb_lt in Hneg. split; [discriminate | intros [H _]; lia].
  - apply Z.ltb_ge in Hneg.
    destruct (nth_error l _) as [y|]; split; intro H.
    + injection H as <-. auto.
    + destruct H as [_ H]. injection H as <-. reflexivity.
    + discriminate.
    + destruct H as [_ H]. discriminate.
Qed.

Lemma map_snd_enumerate_from {A : Type} (l : list A) :
  forall k, map snd (enumerate_from k l) = l.
Proof.
  induction l as [|x rest IH]; simpl; intro k; [reflexivity|].
  rewrite IH. reflexivity.
Qed.

Lemma graph_entries_sites (C : Collaborators) (self : Setup)
    (env : Environments) (ineighbors : Z) (indexed : list (Z * PeriodicSite))
    (entries : list GraphEntry) :
  Forall2 (fun x y => graph_entry C self env ineighbors x = Ok y)
          indexed entries ->
  map sg_site entries = map snd indexed
  /\ Forall (fun entry => sg_weight entry = 1%Z) entries.
Proof.
  intro Hentries.
  induction Hentries as [|[j neighbor] entry rest rest' Hentry _ IH].
  - split; [reflexivity | constructor].
  - destruct IH as [IHsites IHweights].
    unfold graph_entry in Hentry.
    repeat (apply bind_Ok in Hentry; destruct Hentry as (? & _ & Hentry)).
    injection Hentry as <-. simpl. rewrite IHsites.
    split; [reflexivity | constructor; [reflexivity | exact IHweights]].
Qed.

(** X19.  After an evaluation pass, [get_nn_info] for a structure of the right
    length gives for site [n] one entry per resolved neighbour of that
    site, in the order of the resolved list: the sites of the entries are
    the resolved neighbours, each with weight 1.  Weights asked for, or a
    structure of another length, raise [ValueError]. *)
Theorem nn_info_lists_resolved_neighbors (C : Collaborators) (self : Setup)
    (lowerlimit upperlimit : option limit) (only_bonds_to : option (list string))
    (additional_condition : condition) (perc_strength_icohp : Q) (adapt : bool)
    (ce : Evaluation) :
  _evaluate_ce C self lowerlimit upperlimit only_bonds_to additional_condition
               perc_strength_icohp adapt = Ok ce ->
  (forall structure' n entries,
     get_nn_info self ce structure' n false = Ok entries ->
     List.length structure' = List.length (structure self)
     /\ exists neighbors,
          py_index (list_neighsite (environments ce)) n = Ok neighbors
          /\ map sg_site entries = neighbors
          /\ Forall (fun entry => sg_weight entry = 1%Z) entries)
  /\ (forall structure' n,
        (exists msg, get_nn_info self ce structure' n true
                     = Err (ValueError msg))
        /\ (List.length structure' <> List.length (structure self) ->
            exists msg, get_nn_info self ce structure' n false
                        = Err (ValueError msg))).
Proof.
  intro Hrun. unfold _evaluate_ce in Hrun.
  apply bind_Ok in Hrun. destruct Hrun as ([lower upper] & _ & Hrun).
  apply bind_Ok in Hrun. destruct Hrun as (env & _ & Hrun).
  apply bind_Ok in Hrun. destruct Hrun as (sg & Hsg & Hrun).
  injection Hrun as <-. simpl.
  unfold make_sg_list in Hsg. apply map_result_Forall2 in Hsg.
  split.
  - intros structure' n entries Hinfo. unfold get_nn_info in Hinfo.
    simpl in Hinfo.
    destruct (len structure' =? len (structure self))%Z eqn:Hlen;
      simpl in Hinfo; [|discriminate].
    apply Z.eqb_eq in Hlen. unfold len in Hlen.
    split; [lia|].
    assert (Hsame : len sg = len (list_neighsite env)).
    { unfold len. f_equal. apply Forall2_length in Hsg.
      unfold enumerate in Hsg. rewrite enumerate_from_length in Hsg.
      symmetry. exact Hsg. }
    apply py_index_position in Hinfo. destruct Hinfo as [Hpos Hnth].
    destruct (Forall2_nth_right Hsg _ Hnth) as ([k neighbors] & Hk & Hentries).
    apply nth_error_enumerate_from in Hk. destruct Hk as [_ Hneighbors].
    exists neighbors. split.
    + apply py_index_position. rewrite <- Hsame. auto.
    + apply map_result_Forall2 in Hentries.
      apply graph_entries_sites in Hentries.
      destruct Hentries as [Hsites Hweights]. split; [|exact Hweights].
      rewrite Hsites. apply map_snd_enumerate_from.
  - intros structure' n. split.
    + eexists. reflexivity.
    + intro Hdiff. unfold get_nn_info. simpl.
      assert (Hlen : (len structure' =? len (structure self))%Z = false).
      { apply Z.eqb_neq. unfold len. lia. }
      rewrite Hlen. eexists. reflexivity.
Qed.

(* ================================================================= *)
(** ** Extremum and unit cell *)

Lemma fold_py_min2 (rest : list Q) :
  forall first,
    In (fold_left py_min2 rest first) (first :: rest)
    /\ forall x, In x (first :: rest) -> fold_left py_min2 rest first <= x.
Proof.
  induction rest as [|y rest IH]; intro first; simpl.
  - split; [left; reflexivity|]. intros x [<- | []]. apply Qle_refl.
  - destruct (IH (py_min2 first y)) as [Hin Hle]. split.
    + destruct Hin as [Heq | Hin]; [|right; right; exact Hin].
      rewrite <- Heq. destruct (py_min2_cases first y) as [-> | ->]; auto.
    + intros x [<- | [<- | Hx]].
      * eapply Qle_trans; [apply Hle; left; reflexivity | apply py_min2_le_l].
      * eapply Qle_trans; [apply Hle; left; reflexivity | apply py_min2_le_r].
      * apply Hle. right. exact Hx.
Qed.

Lemma fold_py_max2 (rest : list Q) :
  forall first,
    In (fold_left py_max2 rest first) (first :: rest)
    /\ forall x, In x (first :: rest) -> x <= fold_left py_max2 rest first.
Proof.
  induction rest as [|y rest IH]; intro first; simpl.
  - split; [left; reflexivity|]. intros x [<- | []]. apply Qle_refl.
  - destruct (IH (py_max2 first y)) as [Hin Hle]. split.
    + destruct Hin as [Heq | Hin]; [|right; right; exact Hin].
      rewrite <- Heq. destruct (py_max2_cases first y) as [-> | ->]; auto.
    + intros x [<- | [<- | Hx]].
      * eapply Qle_trans; [apply py_max2_ge_l | apply Hle; left; reflexivity].
      * eapply Qle_trans; [apply py_max2_ge_r | apply Hle; left; reflexivity].
      * apply Hle. right. exact Hx.
Qed.

(** X20.  [_adapt_extremum_to_add_cond] multiplies by the percentage a value
    taken from the list: for ICOHPs one that no value of the list is
    below, for COOPs and COBIs one that no value is above.  It raises
    exactly on the empty list. *)
Theorem adapted_extremum_is_extremum (self : Setup) (list_icohps : list Q)
    (percentage : Q) :
  ((exists e, _adapt_extremum_to_add_cond self list_icohps percentage = Err e)
   <-> list_icohps = [])
  /\ forall value,
       _adapt_extremum_to_add_cond self list_icohps percentage = Ok value ->
       exists extremum,
         In extremum list_icohps
         /\ value = extremum * percentage
         /\ forall x, In x list_icohps ->
                      if are_icohps self then extremum <= x else x <= extremum.
Proof.
  unfold _adapt_extremum_to_add_cond. split.
  - split.
    + intros (e & He). destruct list_icohps; [reflexivity|].
      destruct (are_icohps self); discriminate.
    + intros ->. destruct (are_icohps self); eexists; reflexivity.
  - intros value Hrun.
    apply bind_Ok in Hrun. destruct Hrun as (extremum & Hext & Hvalue).
    injection Hvalue as <-. exists extremum.
    destruct list_icohps as [|first rest];
      [destruct (are_icohps self); discriminate|].
    destruct (are_icohps self); simpl in Hext; injection Hext as <-.
    + destruct (fold_py_min2 rest first) as [Hin Hle]. auto.
    + destruct (fold_py_max2 rest first) as [Hin Hle]. auto.
Qed.

Lemma unit_cell_of_coordinate (coord : Q) (n : Z) :
  inject_Z n - (1 # 20000) < coord ->
  coord < inject_Z n + 1 - (1 # 20000) ->
  Qfloor (round4 coord) = n.
Proof.
  intros Hlow Hhigh. unfold round4.
  pose proof (round_half_even_nearest (coord * 10000)) as Hnear.
  apply Qabs_Qle_condition in Hnear. destruct Hnear as [Hnear1 Hnear2].
  set (R := round_half_even (coord * 10000)) in *.
  assert (H1 : (10000 * n + - (1) < R)%Z).
  { rewrite Zlt_Qlt. rewrite inject_Z_plus, inject_Z_mult.
    change (inject_Z (- (1))) with (- (1)).
    change (inject_Z 10000) with 10000. change (inject_Z 1) with 1. lra. }
  assert (H2 : (R < 10000 * (n + 1))%Z).
  { rewrite Zlt_Qlt. rewrite inject_Z_mult, inject_Z_plus.
    change (inject_Z 10000) with 10000. change (inject_Z 1) with 1. lra. }
  change (inject_Z R / 10000) with (inject_Z R / inject_Z 10000).
  rewrite <- Zdiv_Qdiv.
  symmetry. apply (Z.div_unique R 10000 n (R - 10000 * n)); lia.
Qed.

(** X21.  [_determine_unit_cell] rounds a fractional coordinate to four
    decimals before it takes the floor: a coordinate from 0.00004 below
    an integer [n] up to 0.99994 above it lies in cell [n], for cells up
    to a million away from the origin.  So a site a hair below the
    border of a cell is put in the cell above.  (The interval keeps 1e-5
    away from the ties at [n - 0.00005] and [n + 0.99995], where the
    rounding of the doubles, which the rational numbers of this
    development leave out, decides.) *)
Theorem unit_cell_rounds_before_floor (site : PeriodicSite) (a b c : Z) :
  vec3_Forall (fun p : Q * Z =>
                 inject_Z (snd p) - (4 # 100000) <= fst p
                 /\ fst p <= inject_Z (snd p) + (99994 # 100000)
                 /\ (Z.abs (snd p) <= 1000000)%Z)
              (vec3_map2 pair (frac_coords site) (a, b, c)) ->
  _determine_unit_cell site = (a, b, c).
Proof.
  unfold _determine_unit_cell. destruct (frac_coords site) as [[x y] z].
  unfold vec3_map, vec3_map2, vec3_Forall. cbn [fst snd].
  intros ((Hx1 & Hx2 & _) & (Hy1 & Hy2 & _) & (Hz1 & Hz2 & _)).
  rewrite (@unit_cell_of_coordinate x a), (@unit_cell_of_coordinate y b),
    (@unit_cell_of_coordinate z c); [reflexivity | lra ..].
Qed.

(* ================================================================= *)
(** ** The plot label *)

Lemma sort_pair_sym (a b : string) : sort_pair a b = sort_pair b a.
Proof.
  unfold sort_pair, String.ltb. rewrite (String.compare_antisym b a).
  destruct (a ?= b)%string eqn:Hcmp; simpl; try reflexivity.
  apply String.compare_eq_iff in Hcmp. subst. reflexivity.
Qed.

Lemma bond_type_sym (a b : string) : bond_type (b, a) = bond_type (a, b).
Proof. unfold bond_type. simpl. rewrite sort_pair_sym. reflexivity. Qed.

(** X22.  The label of a plot does not depend on which atom of a bond is
    written first: the two element names of each pair are sorted before
    the bonds are counted. *)
Theorem plot_label_ignores_atom_order (atoms atoms' : list (string * string))
    (per_bond : bool) :
  same_bonds atoms atoms' ->
  _get_plot_label atoms' per_bond = _get_plot_label atoms per_bond.
Proof.
  intro Hsame.
  assert (Hlabels : map bond_type atoms' = map bond_type atoms).
  { induction Hsame as [|pair pair' atoms atoms' Hpair _ IH]; [reflexivity|].
    simpl. rewrite IH. f_equal.
    destruct Hpair as [-> | ->]; [reflexivity|].
    destruct pair as [a b]. apply bond_type_sym. }
  unfold _get_plot_label. rewrite Hlabels. reflexivity.
Qed.

Lemma count_up_keys (key : string) (count : list (string * nat)) :
  map fst (count_up key count)
  = if existsb (String.eqb key) (map fst count) then map fst count
    else map fst count ++ [key].
Proof.
  induction count as [|[k n] rest IH]; simpl; [reflexivity|].
  rewrite (String.eqb_sym key k).
  destruct (String.eqb k key); simpl; [reflexivity|].
  rewrite IH. destruct (existsb (String.eqb key) (map fst rest)); reflexivity.
Qed.

Lemma count_up_NoDup (key : string) (count : list (string * nat)) :
  NoDup (map fst count) -> NoDup (map fst (count_up key count)).
Proof.
  intro Hnodup. rewrite count_up_keys.
  destruct (existsb (String.eqb key) (map fst count)) eqn:Hmem; [exact Hnodup|].
  apply NoDup_app; [exact Hnodup | constructor; [intros [] | constructor] |].
  intros k Hk [Heq | []]. subst k.
  assert (Hex : existsb (String.eqb key) (map fst count) = true).
  { apply existsb_exists. exists key. split; [exact Hk | apply String.eqb_refl]. }
  congruence.
Qed.

Lemma count_up_count_of (key k : string) (count : list (string * nat)) :
  count_of k (count_up key count)
  = if String.eqb key k then S (count_of k count) else count_of k count.
Proof.
  induction count as [|[k' n] rest IH]; simpl.
  - destruct (String.eqb key k); reflexivity.
  - destruct (String.eqb k' key) eqn:Hkey; simpl.
    + apply String.eqb_eq in Hkey. subst k'.
      destruct (String.eqb key k); reflexivity.
    + rewrite IH. destruct (String.eqb k' k) eqn:Hk; [|reflexivity].
      apply String.eqb_eq in Hk. subst k'. rewrite String.eqb_sym, Hkey.
      reflexivity.
Qed.

Lemma count_up_sum (key : string) (count : list (string * nat)) :
  list_sum (map snd (count_up key count)) = S (list_sum (map snd count)).
Proof.
  induction count as [|[k n] rest IH]; simpl; [reflexivity|].
  destruct (String.eqb k key); simpl; [reflexivity|]. rewrite IH. lia.
Qed.

Lemma count_up_positive (key : string) (count : list (string * nat)) :
  Forall (fun entry => (1 <= snd entry)%nat) count ->
  Forall (fun entry => (1 <= snd entry)%nat) (count_up key count).
Proof.
  induction 1 as [|[k n] rest Hn Hrest IH]; simpl.
  - repeat constructor.
  - destruct (String.eqb k key); constructor; simpl in *; auto; lia.
Qed.

Lemma count_of_In (k : string) (n : nat) (count : list (string * nat)) :
  NoDup (map fst count) -> In (k, n) count -> count_of k count = n.
Proof.
  induction count as [|[k' n'] rest IH]; simpl; [intros _ []|].
  intros Hnodup [Hhead | Hrest].
  - injection Hhead as -> ->. rewrite String.eqb_refl. reflexivity.
  - inversion Hnodup as [|? ? Hfresh Hnodup']; subst.
    destruct (String.eqb k' k) eqn:Hk.
    + apply String.eqb_eq in Hk. subst k'. exfalso. apply Hfresh.
      apply (in_map fst) in Hrest. exact Hrest.
    + apply IH; assumption.
Qed.

Lemma Counter_loop (labels : list string) :
  forall (done : list string) (count : list (string * nat)),
    NoDup (map fst count) ->
    (forall k, count_of k count = count_occ string_dec done k) ->
    list_sum (map snd count) = List.length done ->
    Forall (fun entry => (1 <= snd entry)%nat) count ->
    let count' := fold_left (fun count key => count_up key count) labels count in
    NoDup (map fst count')
    /\ (forall k, count_of k count' = count_occ string_dec (done ++ labels) k)
    /\ list_sum (map snd count') = List.length (done ++ labels)
    /\ Forall (fun entry => (1 <= snd entry)%nat) count'.
Proof.
  induction labels as [|key labels IH]; intros done count Hnodup Hof Hsum Hpos.
  - simpl. rewrite app_nil_r. auto.
  - simpl.
    replace (done ++ key :: labels) with ((done ++ [key]) ++ labels)
      by (rewrite <- app_assoc; reflexivity).
    apply IH.
    + apply count_up_NoDup. exact Hnodup.
    + intro k. rewrite count_up_count_of, count_occ_app, Hof. simpl.
      destruct (string_dec key k) as [Heq | Hneq].
      * subst. rewrite String.eqb_refl. lia.
      * apply String.eqb_neq in Hneq. rewrite Hneq. lia.
    + rewrite count_up_sum, Hsum, length_app. simpl. lia.
    + apply count_up_positive. exact Hpos.
Qed.

(** X23.  The counts written in the label: every kind of bond is listed once,
    with the number of pairs of this kind, and the numbers add up to the
    number of pairs. *)
Theorem plot_label_counts_bonds (atoms : list (string * string)) :
  let count := Counter (map bond_type atoms) in
  NoDup (map fst count)
  /\ list_sum (map snd count) = List.length atoms
  /\ (forall key n,
        In (key, n) count ->
        n = count_occ string_dec (map bond_type atoms) key /\ (1 <= n)%nat)
  /\ (forall pair, In pair atoms -> In (bond_type pair) (map fst count)).
Proof.
  unfold Counter.
  destruct (@Counter_loop (map bond_type atoms) [] [])
    as (Hnodup & Hof & Hsum & Hpos); simpl; auto using NoDup_nil.
  simpl in Hof, Hsum. rewrite length_map in Hsum.
  split; [exact Hnodup|]. split; [exact Hsum|]. split.
  - intros key n Hin. split.
    + rewrite <- Hof. symmetry. apply count_of_In; assumption.
    + rewrite Forall_forall in Hpos. exact (Hpos _ Hin).
  - intros pair Hpair.
    assert (Hocc : (0 < count_occ string_dec (map bond_type atoms)
                                  (bond_type pair))%nat).
    { apply count_occ_In. apply in_map. exact Hpair. }
    rewrite <- Hof in Hocc.
    set (count := fold_left (fun count key => count_up key count)
                            (map bond_type atoms) []) in *.
    clearbody count. clear - Hocc.
    induction count as [|[k n] rest IH]; simpl in *; [lia|].
    destruct (String.eqb k (bond_type pair)) eqn:Hk.
    + left. apply String.eqb_eq. exact Hk.
    + right. apply IH. exact Hocc.
Qed.

(* ================================================================= *)
(** ** Sites of valence zero *)


















Section NeighborsSets.

Variable list_ce_symbol : option (list (option string)).
Variable list_csm : list (option Q).
Variable list_permutation : list (option (list Z)).
Variable list_neighsite : list (list PeriodicSite).
Variable list_neighisite : list (option (list Z)).
Variable structure : Structure.
Hypothesis Hpresent : Forall (fun x => x <> None) list_neighisite.




End NeighborsSets.



(* ================================================================= *)
(** ** The further properties on the small crystal *)

(** "Na12" splits into "Na" and "12". *)
Lemma split_string_parts_witness :
  _split_string "Na12" = ("Na"%string, "12"%string)
  /\ digits_only "12"
  /\ ~ ends_with_digit "Na"
  /\ (String.length "2" <= String.length "12")%nat.
Proof.
  destruct (split_string_parts "Na12") as (_ & Hdigits & Hhead & Hlongest).
  split; [reflexivity|]. split; [exact Hdigits|]. split; [exact Hhead|].
  apply (Hlongest "Na1"%string "2"%string eq_refl).
  apply all_digits_iff. reflexivity.
Defined.

(** "Cl2" names the site of index 1. *)
Lemma get_atomnumber_of_name_witness :
  _split_string "Cl2" = ("Cl"%string, "2"%string)
  /\ _get_atomnumber "Cl2" = Ok 1%Z.
Proof.
  assert (Helement : no_trailing_digit "Cl") by reflexivity.
  exact (@get_atomnumber_of_name "Cl" 2 Helement).
Defined.

(** An atom name without ordinal is refused. *)
Lemma get_atomnumber_needs_ordinal_witness :
  exists e, _get_atomnumber "Na" = Err e.
Proof.
  assert (Hshort : (String.length "Na" <= 4300)%nat) by (simpl; lia).
  assert (Hname : ~ ends_with_digit "Na").
  { apply no_trailing_digit_iff. reflexivity. }
  exact (proj2 (proj1 (get_atomnumber_needs_ordinal "Na" Hshort)) Hname).
Defined.


(** The selection under condition 3 is within the one under condition 1. *)
Lemma conditions_only_narrow_witness :
  let valences := Some [1; - (1)] in
  let icohps := [("1"%string, Example.bond 3)] in
  exists sel1 sel2,
    _find_relevant_atoms_additional_condition valences 0 icohps
      ONLY_ANION_CATION_BONDS_AND_NO_ELEMENT_TO_SAME_ELEMENT_BONDS = Ok sel1
    /\ _find_relevant_atoms_additional_condition valences 0 icohps
         ONLY_ANION_CATION_BONDS = Ok sel2
    /\ subsequence (rows sel1) (rows sel2).
Proof.
  intros valences icohps.
  destruct (@conditions_only_narrow valences 0%Z icohps
              ONLY_ANION_CATION_BONDS_AND_NO_ELEMENT_TO_SAME_ELEMENT_BONDS
              ONLY_ANION_CATION_BONDS _ eq_refl eq_refl)
    as (sel2 & Hrun2 & Hsub & _).
  eexists. exists sel2. split; [reflexivity|]. split; [exact Hrun2 | exact Hsub].
Defined.

(** The bond of the small crystal is kept under condition 1 and left out
    under condition 5. *)
Lemma anion_cation_bonds_left_out_witness :
  let valences := Some [1; - (1)] in
  let icohps := [("1"%string, Example.bond 3)] in
  exists sel1 sel5,
    _find_relevant_atoms_additional_condition valences 0 icohps
      ONLY_ANION_CATION_BONDS = Ok sel1
    /\ _find_relevant_atoms_additional_condition valences 0 icohps
         DO_NOT_CONSIDER_ANION_CATION_BONDS = Ok sel5
    /\ In "1"%string (keys_from_ICOHPs sel1)
    /\ ~ In "1"%string (keys_from_ICOHPs sel5).
Proof.
  intros valences icohps. do 2 eexists.
  split; [reflexivity|]. split; [reflexivity|].
  assert (Hnodup : NoDup (map fst icohps)).
  { simpl. constructor; [intros []|constructor]. }
  assert (Hin : In "1"%string ["1"%string]) by (left; reflexivity).
  split; [exact Hin|].
  exact (@anion_cation_bonds_left_out valences 0%Z icohps _ _ Hnodup eq_refl
           eq_refl "1"%string Hin).
Defined.

(** Two candidates for the Cl site and one image of it in the search:
    one candidate stays in the pool, and the image it matches is bound. *)
Lemma resolver_binds_while_it_can_witness :
  let C := Example.world 3 in
  let start := Example.search 3 (Example.nacl 3) (0, 0, 0) in
  let r := resolve C start [1%Z; 1%Z] [3; 3] in
  (List.length (_list_neighsite r) <= List.length start)%nat
  /\ In (1%Z, 3) (combine (copied_neighbors_from_ICOHPs r)
                          (copied_distances_from_ICOHPs r))
  /\ In (Example.site_at "Cl" 3) (_list_neighsite r).
Proof.
  intros C start r.
  destruct (resolver_binds_while_it_can C start [1%Z; 1%Z] [3; 3])
    as (Hlen & _ & Hbound).
  assert (Hleft : In (1%Z, 3) (combine (copied_neighbors_from_ICOHPs r)
                                       (copied_distances_from_ICOHPs r))).
  { left. reflexivity. }
  assert (Hmatch : length_matches 3 3).
  { unfold length_matches. apply Qle_bool_iff. vm_compute. reflexivity. }
  split; [exact Hlen|]. split; [exact Hleft|].
  exact (Hbound {| nn_site := Example.site_at "Cl" 3; nn_distance := 3;
                   nn_index := 1; nn_image := (0, 0, 0)%Z |} 3
                (or_introl eq_refl) Hleft Hmatch).
Defined.

(** The code 7 is refused with a ValueError. *)
Lemma unknown_condition_code_refused_witness :
  exists msg,
    __init__ (Example.world 3)
             (Example.arguments 3 3 7 (Some [1; - (1)]) false)
    = Err (ValueError msg).
Proof.
  set (args := Example.arguments 3 3 7 (Some [1; - (1)]) false).
  assert (Hcode : (arg_additional_condition args < 0
                   \/ 6 < arg_additional_condition args)%Z).
  { right. simpl. lia. }
  exact (proj2 (@unknown_condition_code_refused (Example.world 3) args Hcode)
               (Example.collection 3) (None, None) eq_refl eq_refl eq_refl).
Defined.

(** Valences of one billionth count as zero; a valence of one hundred
    thousandth does not. *)
Lemma valence_guard_tolerance_witness :
  (exists e,
     check_valences (Some [1 # 1000000000; 0]) ONLY_CATION_CATION_BONDS = Err e)
  /\ check_valences (Some [1 # 100000; 0]) ONLY_CATION_CATION_BONDS = Ok tt.
Proof.
  split.
  - apply (proj2 (proj1 (valence_guard_tolerance [1 # 1000000000; 0]
                           ONLY_CATION_CATION_BONDS))).
    split; [reflexivity|].
    intros v [<- | [<- | []]]; apply Qle_bool_iff; reflexivity.
  - apply (proj2 (proj2 (valence_guard_tolerance [1 # 100000; 0]
                           ONLY_CATION_CATION_BONDS))
                 (1 # 100000) (or_introl eq_refl)).
    reflexivity.
Defined.

(** The small crystal without valences under condition 1, when the
    estimate of the valences fails. *)
Lemma failed_valence_estimate_refused_witness :
  __init__ (Example.world_without_valences 3)
           (Example.arguments 3 3 1 None false)
  = Err (ValueError
      "Valences cannot be assigned, additional_conditions 1, 3, 5 and 6 will not work").
Proof.
  exact (proj2 (@failed_valence_estimate_refused
                  (Example.world_without_valences 3)
                  (Example.arguments 3 3 1 None false)
                  "Valences cannot be assigned" ONLY_ANION_CATION_BONDS
                  eq_refl eq_refl eq_refl eq_refl eq_refl)
               (Example.collection 3) (None, None) eq_refl eq_refl eq_refl).
Defined.

(** The small crystal without valences. *)
Lemma cation_requests_need_valences_witness :
  let self := Example.self 3 3 NO_ADDITIONAL_CONDITION None in
  anion_types self = Err (ValueError "No cations and anions defined")
  /\ get_info_icohps_to_neighbors self Example.resolved None true
     = Err (ValueError "No valences are provided")
  /\ exists e,
       get_light_structure_environment (Example.world 3) self Example.resolved
                                       true None = Err e.
Proof.
  intro self.
  destruct (@cation_requests_need_valences (Example.world 3) self eq_refl)
    as (Hanions & Hinfo & Hlight).
  split; [exact Hanions|].
  split; [exact (proj1 (Hinfo Example.resolved None)) | exact (Hlight Example.resolved)].
Defined.

(** The bonds reported for the cation site of the small crystal. *)
Lemma neighbor_info_lists_stored_bonds_witness :
  let self := Example.self 3 3 NO_ADDITIONAL_CONDITION (Some [1; - (1)]) in
  exists info sites centers,
    get_info_icohps_to_neighbors self Example.resolved None true = Ok info
    /\ select_isites self None true = Ok sites
    /\ ICOHPNeighborsInfo.central_isites info = Some centers
    /\ Forall (reported_bond self Example.resolved sites)
              (combine (combine (ICOHPNeighborsInfo.labels info)
                                (ICOHPNeighborsInfo.list_icohps info))
                       centers).
Proof.
  intro self.
  destruct (@neighbor_info_lists_stored_bonds self Example.resolved None true
              _ eq_refl)
    as (sites & centers & Hsites & Hcenters & _ & _ & _ & Hbonds).
  eexists. exists sites, centers. split; [reflexivity|].
  split; [exact Hsites|]. split; [exact Hcenters | exact Hbonds].
Defined.

(** The two sites of the small crystal, asked for in two orders. *)
Lemma neighbor_info_ignores_order_of_sites_witness :
  let self := Example.self 3 3 NO_ADDITIONAL_CONDITION (Some [1; - (1)]) in
  get_info_icohps_to_neighbors self Example.resolved (Some [0; 1]%Z) false
  = get_info_icohps_to_neighbors self Example.resolved (Some [1; 0; 0]%Z) false.
Proof.
  intro self.
  apply (@neighbor_info_ignores_order_of_sites self Example.resolved
           [0; 1]%Z [1; 0; 0]%Z false).
  intro i. simpl. tauto.
Defined.

(** Each site of the small crystal has one neighbour only. *)
Lemma pair_info_needs_two_neighbors_witness :
  let self := Example.self 3 3 NO_ADDITIONAL_CONDITION (Some [1; - (1)]) in
  get_info_icohps_between_neighbors (Example.world 3) self Example.resolved
                                    None true
  = Ok (no_bonds None).
Proof.
  intro self.
  apply (@pair_info_needs_two_neighbors (Example.world 3) self Example.resolved
           None true [0%Z] eq_refl).
  intros isite [<- | []]. eexists. split; [reflexivity|]. simpl. lia.
Defined.

(** Two images of the Cl site one cell apart, and the bond record of Cl
    with its own image: the bond is counted once. *)
Lemma same_atom_pair_counts_once_witness :
  let C := Example.world 3 in
  let pair := ((0%Z, Example.site_at "Cl" 3), (1%Z, Example.site_at "Cl" 9)) in
  exists s',
    between_pair C Example.chlorine_chain no_sums pair = Ok s'
    /\ number_bonds s' = 1%Z
    /\ (number_bonds no_sums <= number_bonds s' <= number_bonds no_sums + 1)%Z.
Proof.
  intros C pair. eexists. split; [reflexivity|]. split; [reflexivity|].
  exact (@same_atom_pair_counts_once C Example.chlorine_chain no_sums _ 0%Z 1%Z
           (Example.site_at "Cl" 3) (Example.site_at "Cl" 9) 1%Z
           eq_refl eq_refl eq_refl).
Defined.

(** A site with fourteen neighbours. *)
Lemma more_than_13_neighbors_refused_witness :
  let self := Example.self 3 3 NO_ADDITIONAL_CONDITION (Some [1; - (1)]) in
  let ce := {| list_icohps := list_icohps Example.resolved;
               list_keys := list_keys Example.resolved;
               list_lengths := list_lengths Example.resolved;
               list_neighisite := list_neighisite Example.resolved;
               list_neighsite := list_neighsite Example.resolved;
               list_coords := [repeat (0, 0, 0) 14; [(0, 0, 0)]] |} in
  exists e,
    get_light_structure_environment (Example.world 3) self ce false None
    = Err e.
Proof.
  intros self ce.
  assert (Hin : In (repeat (0, 0, 0) 14) (list_coords ce)).
  { left. reflexivity. }
  assert (Hmany : (13 < List.length (repeat (0 : Q, 0 : Q, 0 : Q) 14))%nat).
  { rewrite repeat_length. lia. }
  exact (@more_than_13_neighbors_refused (Example.world 3) self ce false None
           _ Hin Hmany).
Defined.

(** The two neighbour sets of the small crystal get the indices 0 and 1. *)
Lemma from_Lobster_numbers_neighbors_witness :
  exists lse,
    from_Lobster (Some [Some "L:2"%string; Some "L:2"%string])
                 [Some 0; Some 0] [Some [0%Z]; Some [0%Z]]
                 (list_neighsite Example.resolved)
                 [Some [1%Z]; Some [0%Z]] (Example.nacl 3)
                 (Some [1; - (1)]) = Ok lse
    /\ List.length (neighbors_sets lse) = List.length (Example.nacl 3)
    /\ List.concat (map (fun sets => List.concat (map nb_set_indices sets))
                   (neighbors_sets lse))
       = range (List.length (all_nbs_sites lse)).
Proof.
  assert (Hpresent : Forall (fun x : option (list Z) => x <> None)
                            [Some [1%Z]; Some [0%Z]]).
  { repeat constructor; discriminate. }
  eexists. split; [reflexivity|].
  destruct (@from_Lobster_numbers_neighbors
              (Some [Some "L:2"%string; Some "L:2"%string])
              [Some 0; Some 0] [Some [0%Z]; Some [0%Z]]
              (list_neighsite Example.resolved)
              [Some [1%Z]; Some [0%Z]] (Example.nacl 3)
              (Some [1; - (1)]) _ Hpresent eq_refl)
    as (Hsets & _ & _ & Hindices).
  split; [exact Hsets | exact Hindices].
Defined.

(** Cl is the anion type of the small crystal. *)
Lemma anion_types_members_witness :
  let self := Example.self 3 3 NO_ADDITIONAL_CONDITION (Some [1; - (1)]) in
  exists anions,
    anion_types self = Ok anions /\ NoDup anions /\ In "Cl"%string anions.
Proof.
  intro self.
  destruct (@anion_types_members self [1; - (1)] eq_refl)
    as (anions & Hrun & Hnodup & Hmembers).
  exists anions. split; [exact Hrun|]. split; [exact Hnodup|].
  apply Hmembers. exists 1%nat, (Example.site_at "Cl" 3), (- (1)).
  repeat split.
Defined.

(** The neighbour of the Na site of the small crystal is the Cl site. *)
Lemma nn_info_lists_resolved_neighbors_witness :
  let C := Example.world 3 in
  let self := Example.self 3 3 NO_ADDITIONAL_CONDITION (Some [1; - (1)]) in
  exists ce entries,
    _evaluate_ce C self None None None NO_ADDITIONAL_CONDITION (15 # 100) false
    = Ok ce
    /\ get_nn_info self ce (Example.nacl 3) 0 false = Ok entries
    /\ (exists neighbors,
          py_index (list_neighsite (environments ce)) 0 = Ok neighbors
          /\ map sg_site entries = neighbors
          /\ Forall (fun entry => sg_weight entry = 1%Z) entries)
    /\ exists msg,
         get_nn_info self ce (Example.nacl 3) 0 true = Err (ValueError msg).
Proof.
  intros C self. do 2 eexists.
  split; [vm_compute; reflexivity|]. split; [vm_compute; reflexivity|].
  match goal with
  | |- (exists neighbors, py_index (list_neighsite (environments ?ce)) _ = _ /\ _)
       /\ _ =>
      assert (Hrun : _evaluate_ce C self None None None NO_ADDITIONAL_CONDITION
                                  (15 # 100) false = Ok ce)
        by (vm_compute; reflexivity);
      pose proof (@nn_info_lists_resolved_neighbors C self None None None
                    NO_ADDITIONAL_CONDITION (15 # 100) false ce Hrun)
        as [Hentries Hrefused]
  end.
  split.
  - exact (proj2 (Hentries (Example.nacl 3) 0%Z _ eq_refl)).
  - exact (proj1 (Hrefused (Example.nacl 3) 0%Z)).
Defined.

(** Of the strengths -1 and -3 of an ICOHP run the second is taken. *)
Lemma adapted_extremum_is_extremum_witness :
  let self := Example.self 3 3 NO_ADDITIONAL_CONDITION (Some [1; - (1)]) in
  _adapt_extremum_to_add_cond self [- (1); - (3)] (15 # 100)
  = Ok (- (3) * (15 # 100))
  /\ exists extremum,
       In extremum [- (1); - (3)]
       /\ - (3) * (15 # 100) = extremum * (15 # 100)
       /\ forall x, In x [- (1); - (3)] -> extremum <= x.
Proof.
  intro self. split; [reflexivity|].
  exact (proj2 (adapted_extremum_is_extremum self [- (1); - (3)] (15 # 100))
               (- (3) * (15 # 100)) eq_refl).
Defined.

(** A site at 0.99997 along the first axis is put in cell 1. *)
Lemma unit_cell_rounds_before_floor_witness :
  _determine_unit_cell
    {| species_string := "Cl";
       frac_coords := (99997 # 100000, 1 # 2, - (1 # 4));
       coords := (599982 # 100000, 3, - (3 # 2)) |}
  = (1, 0, - (1))%Z.
Proof.
  apply unit_cell_rounds_before_floor.
  unfold vec3_Forall, vec3_map2. cbn [frac_coords fst snd].
  repeat split; try (apply Qle_bool_iff; reflexivity); simpl; lia.
Defined.

(** One Na-Cl bond written in the two orders. *)
Lemma plot_label_ignores_atom_order_witness :
  _get_plot_label [("Cl2"%string, "Na1"%string)] true
  = _get_plot_label [("Na1"%string, "Cl2"%string)] true
  /\ _get_plot_label [("Na1"%string, "Cl2"%string)] true
     = "1 x Cl-Na (per bond)"%string.
Proof.
  split; [|reflexivity].
  apply plot_label_ignores_atom_order.
  constructor; [right; reflexivity | constructor].
Defined.

(** Two Na-Cl bonds and one Cl-Cl bond. *)
Lemma plot_label_counts_bonds_witness :
  let atoms := [("Na1"%string, "Cl2"%string); ("Cl2"%string, "Cl2"%string);
                ("Cl2"%string, "Na1"%string)] in
  Counter (map bond_type atoms) = [("Cl-Na"%string, 2%nat); ("Cl-Cl"%string, 1%nat)]
  /\ list_sum (map snd (Counter (map bond_type atoms))) = List.length atoms
  /\ 2%nat = count_occ string_dec (map bond_type atoms) "Cl-Na"%string.
Proof.
  intro atoms.
  destruct (plot_label_counts_bonds atoms) as (_ & Hsum & Hcount & _).
  split; [reflexivity|]. split; [exact Hsum|].
  exact (proj1 (Hcount "Cl-Na"%string 2%nat (or_introl eq_refl))).
Defined.
